(** * Payment-attempt generator: a shallow embedding and its properties

    The development embeds the Python scripts
    [data/python_scripts/insert_payments.py] and
    [data/python_scripts/insert_order_items.py].

    Modelling conventions.
    - Python [int] is [Z]; Python [float] and [Decimal] are exact rationals
      [Q] (rounding, NaN and infinities are outside the model).
    - A [dict] is an insertion-ordered association list ([PyDict]); a
      [datetime] is a number of seconds ([Z]) and [timedelta(seconds=s)]
      is added with [Z.add].
    - Exceptions are values of [exn]; a computation returns a [result].
      The only unbounded loop of the scripts (the rejection loop of
      [sorted_attempt_times]) takes fuel, and [OutOfFuel] stands for a
      run that has not returned yet.
    - [random.Random] is an abstract state machine ([RandomSource]); the
      state is threaded explicitly through every draw, in the order in
      which the script performs the calls.
    - The database is seen through the result sets of the three SELECTs
      and through the trace of the statements sent on the connection. *)

From Stdlib Require Import List ZArith QArith String Ascii Bool Lia.
From Stdlib Require Import DecimalString.
From Stdlib Require Import Permutation Sorted.
Import ListNotations.
Local Open Scope string_scope.
Local Open Scope list_scope.
Local Open Scope Z_scope.

(* ------------------------------------------------------------------ *)
(** ** Exceptions and results *)

Inductive exn : Type :=
| ValueError (msg : string)
| KeyError (key : string)
| IndexError
| StopIteration
| RuntimeError (msg : string).

Inductive result (A : Type) : Type :=
| Ok (a : A)
| Raise (e : exn)
| OutOfFuel.

Arguments Ok {A} a.
Arguments Raise {A} e.
Arguments OutOfFuel {A}.

Definition bind {A B : Type} (c : result A) (k : A -> result B) : result B :=
  match c with
  | Ok a => k a
  | Raise e => Raise e
  | OutOfFuel => OutOfFuel
  end.

Declare Scope py_scope.
Delimit Scope py_scope with py.
Notation "x <- c ;; k" := (bind c (fun x => k))
  (at level 100, c at next level, right associativity) : py_scope.
Notation "' p <- c ;; k" := (bind c (fun p => k))
  (at level 100, p pattern, c at next level, right associativity) : py_scope.
Local Open Scope py_scope.

(** [v < w] and [v <= w] on numbers, as booleans. *)
Definition Qleb (x y : Q) : bool := Qle_bool x y.
Definition Qltb (x y : Q) : bool := negb (Qle_bool y x).

(** Python's builtin [sum], starting from [0]. *)
Definition sum (vs : list Q) : Q := fold_left Qplus vs 0%Q.

(* ------------------------------------------------------------------ *)
(** ** Insertion-ordered dictionaries *)

Class Key (K : Type) : Type := {
  key_eqb : K -> K -> bool;
  key_eqb_eq : forall a b, key_eqb a b = true <-> a = b
}.

#[export] Instance string_Key : Key string :=
  {| key_eqb := String.eqb; key_eqb_eq := String.eqb_eq |}.

#[export] Instance Z_Key : Key Z :=
  {| key_eqb := Z.eqb; key_eqb_eq := Z.eqb_eq |}.

Module PyDict.

Section Dict.
Context {K V : Type} {HK : Key K}.

Definition dict : Type := list (K * V).

Definition keys (d : dict) : list K := map fst d.
Definition values (d : dict) : list V := map snd d.

(** [d.get(k)] ([None] when the key is absent). *)
Fixpoint get (d : dict) (k : K) : option V :=
  match d with
  | [] => None
  | (k', v) :: d' => if key_eqb k' k then Some v else get d' k
  end.

(** [d[k] = v]: an existing key keeps its position, a new one goes last. *)
Fixpoint set (d : dict) (k : K) (v : V) : dict :=
  match d with
  | [] => [(k, v)]
  | (k', v') :: d' =>
      if key_eqb k' k then (k', v) :: d' else (k', v') :: set d' k v
  end.

(** A dict display or comprehension: the items are stored left to right. *)
Definition of_items (l : list (K * V)) : dict :=
  fold_left (fun d kv => set d (fst kv) (snd kv)) l [].

(** Well-formed dictionaries hold each key once. *)
Definition wf (d : dict) : Prop := NoDup (keys d).

End Dict.

Arguments dict : clear implicits.

End PyDict.

(* ------------------------------------------------------------------ *)
(** ** The [random] module *)

(** The generator [random.Random]: [Random seed] builds the state,
    [random] draws a float of [[0, 1)], [randint a b] an integer of
    [[a, b]]. Nothing is assumed of the values drawn: what is proved
    below holds of every generator. *)
Class RandomSource : Type := {
  rng_state : Type;
  Random : Z -> rng_state;
  random : rng_state -> Q * rng_state;
  randint : Z -> Z -> rng_state -> Z * rng_state
}.

Module PyRandom.

(** [itertools.accumulate]: the running sums of the weights. *)
Fixpoint accumulate_from (acc : Q) (ws : list Q) : list Q :=
  match ws with
  | [] => []
  | w :: ws' => let s := (acc + w)%Q in s :: accumulate_from s ws'
  end.

Definition accumulate (ws : list Q) : list Q :=
  match ws with
  | [] => []
  | w :: ws' => w :: accumulate_from w ws'
  end.

(** [bisect.bisect_right(a, x, lo, hi)]: the loop
    [while lo < hi: mid = (lo + hi) // 2;
       if x < a[mid]: hi = mid  else: lo = mid + 1]
    run for at most [fuel] rounds. *)
Fixpoint bisect_loop (fuel : nat) (a : list Q) (x : Q) (lo hi : nat) : nat :=
  match fuel with
  | O => lo
  | S fuel' =>
      if (lo <? hi)%nat then
        let mid := ((lo + hi) / 2)%nat in
        if Qltb x (nth mid a 0%Q)
        then bisect_loop fuel' a x lo mid
        else bisect_loop fuel' a x (S mid) hi
      else lo
  end.

(** Each round shrinks [hi - lo], so [hi - lo] rounds are enough. *)
Definition bisect (a : list Q) (x : Q) (lo hi : nat) : nat :=
  bisect_loop (hi - lo) a x lo hi.

Section Choices.
Context {R : RandomSource}.

(** [rng.choices(population, weights=weights, k=1)[0]], as of Python 3.9
    (which the annotations of the scripts need): the total of the
    weights has to be positive, and one float is drawn. *)
Definition choices {A : Type} (rng : rng_state) (population : list A)
    (weights : list Q) : result (A * rng_state) :=
  let n := List.length population in
  let cum_weights := accumulate weights in
  if negb (List.length cum_weights =? n)%nat then
    Raise (ValueError "The number of weights does not match the population")
  else
    match rev cum_weights with
    | [] => Raise IndexError
    | total :: _ =>
        if Qleb total 0 then
          Raise (ValueError "Total of weights must be greater than zero")
        else
          let hi := (n - 1)%nat in
          let '(r, rng') := random rng in
          match nth_error population (bisect cum_weights (r * total)%Q 0 hi) with
          | Some x => Ok (x, rng')
          | None => Raise IndexError
          end
    end.

End Choices.

End PyRandom.

(* ------------------------------------------------------------------ *)
(** ** insert_payments.py *)

Module Payments.

Import PyDict PyRandom.

(** *** Utils *)

Section Utils.
Context {K : Type} {HK : Key K}.

Definition normalize_distribution (dist : dict K Q) : result (dict K Q) :=
  match dist with
  | [] => Raise (ValueError "Distribution is empty.")
  | _ =>
      if existsb (fun v => Qltb v 0) (values dist) then
        Raise (ValueError "Distribution weights cannot be negative.")
      else
        let total := sum (values dist) in
        if Qleb total 0 then
          Raise (ValueError "Distribution must have positive weights.")
        else
          Ok (of_items (map (fun kv => (fst kv, (snd kv / total)%Q)) dist))
  end.

Context {R : RandomSource}.

Definition weighted_choice_key (rng : rng_state) (weights : dict K Q)
    : result (K * rng_state) :=
  match weights with
  | [] => Raise (ValueError "Empty weights.")
  | _ => choices rng (keys weights) (values weights)
  end.

End Utils.

(** *** Configs *)

(** One entry of [PAYMENT_METHOD_CONFIG]; a key that the entry does not
    hold is [None], and the readers below supply the default that the
    script passes to [.get]. *)
Record MethodCfg : Type := {
  weight : option Q;
  max_attempts : option Z;
  stay_with_method_prob : option Q;
  success_rate : option Q
}.

Record Config : Type := {
  MAX_GLOBAL_ATTEMPTS : Z;
  GLOBAL_ATTEMPT_DIST : dict Z Q;
  PAYMENT_WINDOW_SECONDS : Z;
  PAYMENT_METHOD_CONFIG : dict string MethodCfg;
  CLEAR_EXISTING_PAYMENTS : bool;
  BATCH_SIZE : Z
}.

Definition SEED : Z := 42.

Definition method_cfg (w : Q) (m : Z) (stay rate : Q) : MethodCfg :=
  {| weight := Some w; max_attempts := Some m;
     stay_with_method_prob := Some stay; success_rate := Some rate |}.

(** The constants of the script. *)
Definition script_config : Config := {|
  MAX_GLOBAL_ATTEMPTS := 4;
  GLOBAL_ATTEMPT_DIST := of_items [(1, 45%Q); (2, 32%Q); (3, 18%Q); (4, 5%Q)];
  PAYMENT_WINDOW_SECONDS := 48 * 60 * 60;
  PAYMENT_METHOD_CONFIG := of_items
    [("card", method_cfg 0.58 3 0.68 0.62);
     ("paypal", method_cfg 0.18 3 0.55 0.56);
     ("mbway", method_cfg 0.18 3 0.60 0.50);
     ("bank_transfer", method_cfg 0.06 2 0.35 0.35)];
  CLEAR_EXISTING_PAYMENTS := true;
  BATCH_SIZE := 20000
|}.

(** *** Data models *)

Definition datetime : Type := Z.
Definition Decimal : Type := Q.

Record OrderInfo : Type := {
  order_id : Z;
  order_date : datetime;
  order_status : Z;
  order_total : Decimal
}.

(** A row of [payments]:
    [(order_id, attempt_no, payment_date, amount_paid, payment_method_id,
      payment_status_id)]. *)
Record Row : Type := {
  row_order_id : Z;
  row_attempt_no : Z;
  row_payment_date : datetime;
  row_amount_paid : Decimal;
  row_payment_method_id : Z;
  row_payment_status_id : Z
}.

(** *** Fetchers *)

(** What the three SELECTs return. *)
Record Database : Type := {
  payment_methods : list (Z * string);
  payment_status : list (Z * string);
  orders_with_totals : list (Z * datetime * Z * Decimal)
}.

(** The statements that change the database, in the order of the calls. *)
Inductive statement : Type :=
| DeletePayments
| InsertPayments (batch : list Row)
| Commit
| Rollback
| Close.

Definition lower_ascii (c : ascii) : ascii :=
  let n := nat_of_ascii c in
  if ((65 <=? n) && (n <=? 90))%nat then ascii_of_nat (n + 32) else c.

(** [str.lower], on the ASCII letters. *)
Fixpoint lower (s : string) : string :=
  match s with
  | EmptyString => EmptyString
  | String c s' => String (lower_ascii c) (lower s')
  end.

Definition swap_items {A B : Type} (d : list (A * B)) : list (B * A) :=
  map (fun ic => (snd ic, fst ic)) d.

Definition fetch_orders_with_totals (db : Database) : result (list OrderInfo) :=
  match orders_with_totals db with
  | [] => Raise (RuntimeError
      "The 'orders' table has no paid-total candidates (total > 0).")
  | rows =>
      Ok (map (fun r => match r with
                        | (oid, dt, sid, total) =>
                            {| order_id := oid; order_date := dt;
                               order_status := sid; order_total := total |}
                        end) rows)
  end.

Definition fetch_payment_methods (db : Database)
    : result (dict Z string * dict string Z) :=
  match payment_methods db with
  | [] => Raise (RuntimeError "The 'payment_methods' table is empty.")
  | rows =>
      let id_to_code := of_items rows in
      let code_to_id := of_items (swap_items id_to_code) in
      Ok (id_to_code, code_to_id)
  end.

Definition fetch_payment_statuses (db : Database)
    : result (dict Z string * dict string Z) :=
  match payment_status db with
  | [] => Raise (RuntimeError "The 'payment_status' table is empty.")
  | rows =>
      let id_to_code := of_items rows in
      let code_to_id :=
        of_items (map (fun ic => (lower (snd ic), fst ic)) id_to_code) in
      Ok (id_to_code, code_to_id)
  end.

(** [d[k]] on a dictionary keyed by strings. *)
Definition subscript {V : Type} (d : dict string V) (k : string) : result V :=
  match get d k with
  | Some v => Ok v
  | None => Raise (KeyError k)
  end.

(** *** Generation logic *)

(** [list.remove(x)]: drops the first occurrence. *)
Fixpoint list_remove (x : string) (l : list string) : list string :=
  match l with
  | [] => []
  | y :: l' => if String.eqb y x then l' else y :: list_remove x l'
  end.

Definition list_mem (x : string) (l : list string) : bool :=
  existsb (String.eqb x) l.

Section Generation.
Variable cfg : Config.

(** [cfg.get("weight", 0.0)] and its siblings. *)
Definition get_weight (c : MethodCfg) : Q :=
  match weight c with Some w => w | None => 0%Q end.

Definition get_max_attempts (c : MethodCfg) : Z :=
  match max_attempts c with Some m => m | None => MAX_GLOBAL_ATTEMPTS cfg end.

Definition get_stay_with_method_prob (c : MethodCfg) : Q :=
  match stay_with_method_prob c with Some p => p | None => 1%Q end.

Definition get_success_rate (c : MethodCfg) : Q :=
  match success_rate c with Some p => p | None => 0%Q end.

(** The empty entry [{}]. *)
Definition empty_cfg : MethodCfg :=
  {| weight := None; max_attempts := None;
     stay_with_method_prob := None; success_rate := None |}.

(** [min(max_m, MAX_GLOBAL_ATTEMPTS)] for an entry. *)
Definition cap (c : MethodCfg) : Z :=
  Z.min (get_max_attempts c) (MAX_GLOBAL_ATTEMPTS cfg).

(** [method_counts.get(method, 0)]. *)
Definition count_of (method_counts : dict string Z) (method : string) : Z :=
  match get method_counts method with Some n => n | None => 0 end.

Definition GLOBAL_ATTEMPT_WEIGHTS : result (dict Z Q) :=
  normalize_distribution (GLOBAL_ATTEMPT_DIST cfg).

Definition build_method_weights : dict string Q :=
  of_items (map (fun mc => (fst mc, get_weight (snd mc)))
                (PAYMENT_METHOD_CONFIG cfg)).

Definition available_methods_by_cap (method_counts : dict string Z)
    : list string :=
  map fst
    (filter (fun mc => count_of method_counts (fst mc) <? cap (snd mc))
            (PAYMENT_METHOD_CONFIG cfg)).

(** [{m: float(PAYMENT_METHOD_CONFIG[m].get("weight", 0.0)) for m in ms}]. *)
Fixpoint weights_of (ms : list string) (acc : dict string Q)
    : result (dict string Q) :=
  match ms with
  | [] => Ok acc
  | m :: ms' =>
      c <- subscript (PAYMENT_METHOD_CONFIG cfg) m ;;
      weights_of ms' (set acc m (get_weight c))
  end.

(** [available_methods_by_cap(method_counts)] without [method]. *)
Definition alternatives (method : string) (method_counts : dict string Z)
    : list string :=
  let available := available_methods_by_cap method_counts in
  if list_mem method available then list_remove method available
  else available.

Context {R : RandomSource}.

Definition pick_next_method (rng : rng_state) (current : string)
    (method_counts : dict string Z) : result (string * rng_state) :=
  let c := match get (PAYMENT_METHOD_CONFIG cfg) current with
           | Some c => c
           | None => empty_cfg
           end in
  let stay_prob := get_stay_with_method_prob c in
  let '(stay, rng1) :=
    if cap c <=? count_of method_counts current then (false, rng)
    else let '(r, rng') := random rng in (Qleb r stay_prob, rng') in
  if stay then Ok (current, rng1)
  else
    match alternatives current method_counts with
    | [] => Ok (current, rng1)
    | available =>
        weights <- weights_of available [] ;;
        weighted_choice_key rng1 weights
    end.

(** [chosen.add(s)] on a set of integers, kept as a duplicate-free list. *)
Definition set_add (s : Z) (chosen : list Z) : list Z :=
  if existsb (Z.eqb s) chosen then chosen else s :: chosen.

Fixpoint insert_sorted (s : Z) (l : list Z) : list Z :=
  match l with
  | [] => [s]
  | x :: l' => if s <=? x then s :: l else x :: insert_sorted s l'
  end.

(** [sorted(chosen)]. *)
Definition sorted (chosen : list Z) : list Z :=
  fold_right insert_sorted [] chosen.

(** [while len(chosen) < n_attempts: chosen.add(rng.randint(1, max_seconds))]. *)
Fixpoint fill_chosen (fuel : nat) (rng : rng_state) (chosen : list Z)
    (n_attempts max_seconds : Z) : result (list Z * rng_state) :=
  if Z.of_nat (List.length chosen) <? n_attempts then
    match fuel with
    | O => OutOfFuel
    | S fuel' =>
        let '(s, rng') := randint 1 max_seconds rng in
        fill_chosen fuel' rng' (set_add s chosen) n_attempts max_seconds
    end
  else Ok (chosen, rng).

Definition sorted_attempt_times (fuel : nat) (rng : rng_state)
    (base_dt : datetime) (n_attempts : Z) : result (list datetime * rng_state) :=
  if n_attempts <=? 0 then Ok ([], rng)
  else
    let max_seconds := Z.max 1 (PAYMENT_WINDOW_SECONDS cfg - 2) in
    let n_attempts := Z.min n_attempts max_seconds in
    '(chosen, rng') <- fill_chosen fuel rng [] n_attempts max_seconds ;;
    let offsets := sorted chosen in
    Ok (map (fun s => base_dt + s) offsets, rng').

Definition draw_total_attempts_planned (rng : rng_state)
    : result (Z * rng_state) :=
  weights <- GLOBAL_ATTEMPT_WEIGHTS ;;
  '(n, rng') <- weighted_choice_key rng weights ;;
  Ok (Z.min n (MAX_GLOBAL_ATTEMPTS cfg), rng').

End Generation.

(** *** Persistence *)

(** The local state of [insert_payments_in_batches]: the statements sent
    on the connection so far, [buf], [total] and [batches]. *)
Record Buffer : Type := {
  sent : list statement;
  buf : list Row;
  total : Z;
  batches : Z
}.

(** [cur.executemany(SQL_INSERT_PAYMENT, buf); conn.commit();
     total += len(buf); batches += 1]. *)
Definition flush (b : Buffer) : Buffer :=
  {| sent := sent b ++ [InsertPayments (buf b); Commit];
     buf := buf b;
     total := total b + Z.of_nat (List.length (buf b));
     batches := batches b + 1 |}.

Definition clear (b : Buffer) : Buffer :=
  {| sent := sent b; buf := []; total := total b; batches := batches b |}.

Definition append (b : Buffer) (rec : Row) : Buffer :=
  {| sent := sent b; buf := buf b ++ [rec];
     total := total b; batches := batches b |}.

(** One round of [for rec in rows]. *)
Definition buffer_step (batch_size : Z) (b : Buffer) (rec : Row) : Buffer :=
  let b1 := append b rec in
  if negb (batch_size =? 0) && (batch_size <=? Z.of_nat (List.length (buf b1)))
  then clear (flush b1)
  else b1.

Definition insert_payments_in_batches (conn : list statement)
    (rows : list Row) (batch_size : Z) : list statement * (Z * Z) :=
  match rows with
  | [] => (conn, (0, 0))
  | _ =>
      let b := fold_left (buffer_step batch_size) rows
                 {| sent := conn; buf := []; total := 0; batches := 0 |} in
      let b' := match buf b with [] => b | _ => flush b end in
      (sent b', (total b', batches b'))
  end.

(** *** Orchestration *)

(** The locals of the body of [for order in orders] that the attempt
    loop reads and writes; [rows] is the list shared by all orders. *)
Record LoopState : Type := {
  current_method : string;
  method_counts : dict string Z;
  paid : bool;
  attempt_no : Z;
  rows : list Row
}.

Definition with_current_method (st : LoopState) (m : string) : LoopState :=
  {| current_method := m; method_counts := method_counts st;
     paid := paid st; attempt_no := attempt_no st; rows := rows st |}.

(** How one round of [for t in attempt_times] ends: it falls through or
    reaches [continue], or it reaches [break]. *)
Inductive flow : Type :=
| Continue (st : LoopState)
| Break (st : LoopState).

Section Orchestration.
Variable cfg : Config.
Context {R : RandomSource}.
Variable method_id_by_code : dict string Z.
Variable status_id_by_code : dict string Z.

(** The choice of the method of one attempt and the cap check that
    follows it; [None] is the [break] of the cap check. *)
Definition choose_method (rng : rng_state) (st : LoopState)
    : result (option string * LoopState * rng_state) :=
  '(method, st1, rng1) <-
    (if attempt_no st =? 0 then Ok (current_method st, st, rng)
     else
       '(method, rng1) <-
          pick_next_method cfg rng (current_method st) (method_counts st) ;;
       Ok (method, with_current_method st method, rng1)) ;;
  c <- subscript (PAYMENT_METHOD_CONFIG cfg) method ;;
  n <- subscript (method_counts st1) method ;;
  if cap cfg c <=? n then
    match alternatives cfg method (method_counts st1) with
    | [] => Ok (None, st1, rng1)
    | alt_avail =>
        alt_weights <- weights_of cfg alt_avail [] ;;
        '(method', rng2) <- weighted_choice_key rng1 alt_weights ;;
        Ok (Some method', with_current_method st1 method', rng2)
    end
  else Ok (Some method, st1, rng1).

(** The counters, the success draw, the lookup of the method id and the
    row of one attempt. *)
Definition record_attempt (order : OrderInfo) (t : datetime)
    (rng : rng_state) (st : LoopState) (method : string)
    : result (flow * rng_state) :=
  let method_counts' :=
    set (method_counts st) method (count_of (method_counts st) method + 1) in
  let attempt_no' := attempt_no st + 1 in
  c <- subscript (PAYMENT_METHOD_CONFIG cfg) method ;;
  let success_rate := get_success_rate c in
  let '(r, rng') := random rng in
  let is_success := Qltb r success_rate in
  match get method_id_by_code method with
  | None =>
      Ok (Continue {| current_method := current_method st;
                      method_counts := method_counts';
                      paid := paid st; attempt_no := attempt_no';
                      rows := rows st |}, rng')
  | Some method_id =>
      if is_success then
        status <- subscript status_id_by_code "paid" ;;
        Ok (Break {| current_method := current_method st;
                     method_counts := method_counts';
                     paid := true; attempt_no := attempt_no';
                     rows := rows st ++
                       [{| row_order_id := order_id order;
                           row_attempt_no := attempt_no';
                           row_payment_date := t;
                           row_amount_paid := order_total order;
                           row_payment_method_id := method_id;
                           row_payment_status_id := status |}] |}, rng')
      else
        status <- subscript status_id_by_code "failed" ;;
        Ok (Continue {| current_method := current_method st;
                        method_counts := method_counts';
                        paid := paid st; attempt_no := attempt_no';
                        rows := rows st ++
                          [{| row_order_id := order_id order;
                              row_attempt_no := attempt_no';
                              row_payment_date := t;
                              row_amount_paid := 0%Q;
                              row_payment_method_id := method_id;
                              row_payment_status_id := status |}] |}, rng')
  end.

(** One round of [for t in attempt_times]. *)
Definition attempt_step (order : OrderInfo) (t : datetime)
    (rng : rng_state) (st : LoopState) : result (flow * rng_state) :=
  if paid st then Ok (Break st, rng)
  else
    '(choice, st1, rng1) <- choose_method rng st ;;
    match choice with
    | None => Ok (Break st1, rng1)
    | Some method => record_attempt order t rng1 st1 method
    end.

Fixpoint attempt_loop (order : OrderInfo) (attempt_times : list datetime)
    (rng : rng_state) (st : LoopState) : result (LoopState * rng_state) :=
  match attempt_times with
  | [] => Ok (st, rng)
  | t :: later =>
      '(fl, rng') <- attempt_step order t rng st ;;
      match fl with
      | Continue st' => attempt_loop order later rng' st'
      | Break st' => Ok (st', rng')
      end
  end.

(** [if not paid: ...] after the loop: the forced final success of an
    order that is not cancelled. *)
Definition forced_resolution (order : OrderInfo)
    (attempt_times : list datetime) (st : LoopState) : result LoopState :=
  if paid st then Ok st
  else if negb (order_status order =? 5) then
    let t_force :=
      match rev attempt_times with
      | last :: _ => last + 1
      | [] => order_date order + 1
      end in
    method_id <-
      match get method_id_by_code (current_method st) with
      | Some method_id => Ok method_id
      | None =>
          match values method_id_by_code with
          | method_id :: _ => Ok method_id
          | [] => Raise StopIteration
          end
      end ;;
    let attempt_no' := attempt_no st + 1 in
    status <- subscript status_id_by_code "paid" ;;
    Ok {| current_method := current_method st;
          method_counts := method_counts st;
          paid := paid st; attempt_no := attempt_no';
          rows := rows st ++
            [{| row_order_id := order_id order;
                row_attempt_no := attempt_no';
                row_payment_date := t_force;
                row_amount_paid := order_total order;
                row_payment_method_id := method_id;
                row_payment_status_id := status |}] |}
  else Ok st.

(** The body of [for order in orders], from the rows and the generator
    before the order to the rows and the generator after it. *)
Definition simulate_order (fuel : nat) (method_weights : dict string Q)
    (rows0 : list Row) (rng : rng_state) (order : OrderInfo)
    : result (list Row * rng_state) :=
  '(planned_attempts, rng1) <- draw_total_attempts_planned cfg rng ;;
  '(attempt_times, rng2) <-
     sorted_attempt_times cfg fuel rng1 (order_date order) planned_attempts ;;
  '(current, rng3) <- weighted_choice_key rng2 method_weights ;;
  let st0 := {| current_method := current;
                method_counts :=
                  of_items (map (fun m => (m, 0))
                                (keys (PAYMENT_METHOD_CONFIG cfg)));
                paid := false; attempt_no := 0; rows := rows0 |} in
  '(st, rng4) <- attempt_loop order attempt_times rng3 st0 ;;
  st' <- forced_resolution order attempt_times st ;;
  Ok (rows st', rng4).

Fixpoint generate_rows (fuel : nat) (method_weights : dict string Q)
    (rows0 : list Row) (rng : rng_state) (orders : list OrderInfo)
    : result (list Row * rng_state) :=
  match orders with
  | [] => Ok (rows0, rng)
  | order :: orders' =>
      '(rows1, rng1) <- simulate_order fuel method_weights rows0 rng order ;;
      generate_rows fuel method_weights rows1 rng1 orders'
  end.

End Orchestration.

(** The process environment: the variables read by [os.getenv] and the
    successive readings of [time.perf_counter]. *)
Record World : Type := {
  environ : string -> option string;
  perf_counter : nat -> Q
}.

Definition getenv (w : World) (name default : string) : string :=
  match environ w name with Some v => v | None => default end.

(** The lines printed by [run]. *)
Inductive message : Type :=
| Connecting (database user host : string)
| Inserted (total n_orders batches : Z)
| InsertTime (elapsed rate : Q)
| RuntimeFailure (msg : string).

Record Outcome : Type := {
  console : list message;
  connection : list statement
}.

Section Run.
Variable cfg : Config.
Context {R : RandomSource}.

(** The [try] block of [run]. The connector is taken to execute every
    statement, so [mysql.connector.Error] is not raised. *)
Definition run_body (fuel : nat) (w : World) (db : Database)
    (rng : rng_state) : result (list message * list statement) :=
  '(_, method_id_by_code) <- fetch_payment_methods db ;;
  '(_, status_id_by_code) <- fetch_payment_statuses db ;;
  orders <- fetch_orders_with_totals db ;;
  let conn :=
    if CLEAR_EXISTING_PAYMENTS cfg then [DeletePayments; Commit] else [] in
  let method_weights := build_method_weights cfg in
  '(rows, _) <- generate_rows cfg method_id_by_code status_id_by_code
                  fuel method_weights [] rng orders ;;
  let start := perf_counter w 0%nat in
  let '(conn', (total, batches)) :=
    insert_payments_in_batches conn rows (BATCH_SIZE cfg) in
  let elapsed := (perf_counter w 1%nat - start)%Q in
  Ok ([Inserted total (Z.of_nat (List.length orders)) batches] ++
      (if Qltb 0 elapsed
       then [InsertTime elapsed (inject_Z total / elapsed)%Q] else []),
      conn').

(** [run(seed)], after the module has been loaded (which evaluates
    [GLOBAL_ATTEMPT_WEIGHTS]), on the database [db] that [DB_CONFIG]
    selects. A [RuntimeError] comes from the fetchers, before any
    statement is sent; any other exception leaves [run]. *)
Definition run (fuel : nat) (w : World) (db : Database) (seed : Z)
    : result Outcome :=
  _ <- GLOBAL_ATTEMPT_WEIGHTS cfg ;;
  let rng := Random seed in
  let hello :=
    Connecting (getenv w "DB_NAME" "ecommerce_db_test")
               (getenv w "DB_USER" "root")
               (getenv w "DB_HOST" "localhost") in
  match run_body fuel w db rng with
  | Ok (printed, conn) =>
      Ok {| console := hello :: printed; connection := conn ++ [Close] |}
  | Raise (RuntimeError msg) =>
      Ok {| console := [hello; RuntimeFailure msg];
            connection := [Rollback; Close] |}
  | Raise e => Raise e
  | OutOfFuel => OutOfFuel
  end.

Definition main (fuel : nat) (w : World) (db : Database) : result Outcome :=
  run fuel w db SEED.

End Run.

End Payments.

(* ------------------------------------------------------------------ *)
(** ** insert_order_items.py *)

Module OrderItems.

Import PyDict PyRandom.

(** *** Utils and configs *)

(** The script has its own copy of [normalize_distribution], the same
    text as in [insert_payments.py]. *)
Definition normalize_distribution {K : Type} {HK : Key K} (dist : dict K Q)
    : result (dict K Q) :=
  Payments.normalize_distribution dist.

Record Config : Type := {
  CART_SIZE_DIST : dict Z Q;
  QTY_DIST : dict Z Q;
  CATEGORY_WEIGHTS : dict string Q;
  CLEAR_EXISTING_ORDER_ITEMS : bool;
  BATCH_SIZE : Z
}.

Definition SEED : Z := 42.

(** The constants of the script. *)
Definition script_config : Config := {|
  CART_SIZE_DIST := of_items
    [(1, 40%Q); (2, 30%Q); (3, 15%Q); (4, 10%Q); (5, 4%Q); (6, 1%Q)];
  QTY_DIST := of_items [(1, 75%Q); (2, 18%Q); (3, 5%Q); (4, 2%Q)];
  CATEGORY_WEIGHTS := of_items
    [("Electronics", 1.25%Q); ("Fashion", 1.10%Q);
     ("Home & Kitchen", 1.40%Q); ("Beauty & Personal Care", 1.20%Q);
     ("Sports & Fitness", 1.00%Q); ("Books", 0.90%Q); ("Toys", 0.95%Q);
     ("Gardening", 0.80%Q); ("Automotive", 1.05%Q);
     ("Pet Supplies", 1.10%Q)];
  CLEAR_EXISTING_ORDER_ITEMS := true;
  BATCH_SIZE := 20000
|}.

(** *** Data model *)

Definition Decimal : Type := Q.

Record Product : Type := {
  product_id : Z;
  price : Decimal;
  category_id : Z
}.

(** A row of [order_items]: [(order_id, product_id, quantity, unit_price)]. *)
Record Item : Type := {
  item_order_id : Z;
  item_product_id : Z;
  quantity : Z;
  unit_price : Decimal
}.

(** The result sets of the two SELECTs. *)
Record Database : Type := {
  orders : list Z;
  products_with_category : list (Z * Decimal * Z * string)
}.

(** The statements that change the database, in the order of the calls. *)
Inductive statement : Type :=
| DeleteOrderItems
| InsertItems (batch : list Item)
| Commit
| Rollback
| Close.

(** *** Fetchers *)

Definition fetch_orders (db : Database) : result (list Z) :=
  match orders db with
  | [] => Raise (RuntimeError
      "A tabela 'orders' está vazia — insere encomendas primeiro.")
  | rows => Ok rows
  end.

Definition fetch_products (db : Database)
    : result (dict Z Product * dict Z string) :=
  match products_with_category db with
  | [] => Raise (RuntimeError
      "There are no products with associated category.")
  | rows =>
      Ok (fold_left
            (fun acc row =>
               match row with
               | (pid, price, cat_id, cat_name) =>
                   (set (fst acc) pid
                        {| product_id := pid; price := price;
                           category_id := cat_id |},
                    set (snd acc) cat_id cat_name)
               end)
            rows ([], []))
  end.

(** *** Weights and sampling *)

Section Weights.
Variable cfg : Config.

Definition CART_SIZE_WEIGHTS : result (dict Z Q) :=
  normalize_distribution (CART_SIZE_DIST cfg).

Definition QTY_WEIGHTS : result (dict Z Q) :=
  normalize_distribution (QTY_DIST cfg).

Definition product_weights (products : dict Z Product)
    (category_names : dict Z string) (default_weight : Q) : dict Z Q :=
  fold_left
    (fun weights p =>
       let cat_name := get category_names (category_id p) in
       let w := match cat_name with
                | Some name =>
                    match get (CATEGORY_WEIGHTS cfg) name with
                    | Some w => w
                    | None => default_weight
                    end
                | None => default_weight
                end in
       set weights (product_id p) w)
    (values products) [].

Context {R : RandomSource}.

Definition choose_weighted_key (rng : rng_state) (weights : dict Z Q)
    : result (Z * rng_state) :=
  match weights with
  | [] => Raise (ValueError "Empty weights.")
  | _ => choices rng (keys weights) (values weights)
  end.

End Weights.

(** [l[i] = x] (the index is in range wherever the script assigns). *)
Fixpoint list_assign {A : Type} (l : list A) (i : nat) (x : A) : list A :=
  match l, i with
  | [], _ => []
  | _ :: l', O => x :: l'
  | y :: l', S i' => y :: list_assign l' i' x
  end.

(** [l[i], l[j] = l[j], l[i]]: both reads come before both writes. *)
Definition swap {A : Type} (l : list A) (i j : nat) : result (list A) :=
  match nth_error l j, nth_error l i with
  | Some xj, Some xi => Ok (list_assign (list_assign l i xj) j xi)
  | _, _ => Raise IndexError
  end.

Section Sampling.
Context {R : RandomSource}.

(** The rounds of [for _ in range(k)], with [rounds] of them left. *)
Fixpoint sample_loop (rounds : nat) (rng : rng_state) (pool : list Z)
    (weights : list Q) (chosen : list Z) : result (list Z * rng_state) :=
  match rounds with
  | O => Ok (chosen, rng)
  | S rounds' =>
      '(idx, rng') <- choices rng (seq 0 (List.length pool)) weights ;;
      picked <- match nth_error pool idx with
                | Some pid => Ok pid
                | None => Raise IndexError
                end ;;
      let chosen := chosen ++ [picked] in
      let last_index := (List.length pool - 1)%nat in
      pool <- swap pool idx last_index ;;
      weights <- swap weights idx last_index ;;
      let pool := removelast pool in
      let weights := removelast weights in
      match weights with
      | [] => sample_loop rounds' rng' pool weights chosen
      | _ =>
          if Qleb (sum weights) 0 then Ok (chosen, rng')
          else sample_loop rounds' rng' pool weights chosen
      end
  end.

Definition sample_unique_products_weighted (rng : rng_state)
    (candidate_ids : list Z) (weights_map : dict Z Q) (k : Z)
    : result (list Z * rng_state) :=
  if (k <=? 0) || (match candidate_ids with [] => true | _ => false end)
  then Ok ([], rng)
  else
    let pool := candidate_ids in
    let weights :=
      map (fun pid => match get weights_map pid with
                      | Some w => w
                      | None => 1%Q
                      end) pool in
    let k := Z.min k (Z.of_nat (List.length pool)) in
    sample_loop (Z.to_nat k) rng pool weights [].

End Sampling.

(** *** Orchestration *)

(** The locals of [run] that the loops write: the statements sent on
    the connection so far, [buffer], [total_items] and [batches]. *)
Record RunState : Type := {
  sent : list statement;
  buffer : list Item;
  total_items : Z;
  batches : Z
}.

(** [cur.executemany(SQL_INSERT, buffer); conn.commit();
     total_items += len(buffer); batches += 1]. *)
Definition flush (s : RunState) : RunState :=
  {| sent := sent s ++ [InsertItems (buffer s); Commit];
     buffer := buffer s;
     total_items := total_items s + Z.of_nat (List.length (buffer s));
     batches := batches s + 1 |}.

Definition clear (s : RunState) : RunState :=
  {| sent := sent s; buffer := []; total_items := total_items s;
     batches := batches s |}.

Definition append (s : RunState) (it : Item) : RunState :=
  {| sent := sent s; buffer := buffer s ++ [it];
     total_items := total_items s; batches := batches s |}.

(** *** Persistence *)

(** One round of [for rec in rows] of [insert_items_in_batches]; its
    locals [buf], [total] and [batches] are kept in a [RunState], and
    [conn] in [sent]. *)
Definition buffer_step (batch_size : Z) (s : RunState) (rec : Item)
    : RunState :=
  let s1 := append s rec in
  if negb (batch_size =? 0) &&
     (batch_size <=? Z.of_nat (List.length (buffer s1)))
  then clear (flush s1)
  else s1.

Definition insert_items_in_batches (conn : list statement)
    (rows : list Item) (batch_size : Z) : list statement * (Z * Z) :=
  match rows with
  | [] => (conn, (0, 0))
  | _ =>
      let s := fold_left (buffer_step batch_size) rows
                 {| sent := conn; buffer := []; total_items := 0;
                    batches := 0 |} in
      let s' := match buffer s with [] => s | _ => flush s end in
      (sent s', (total_items s', batches s'))
  end.

(** [str(pid)], the argument of the [KeyError] of [products[pid]]. *)
Definition repr (z : Z) : string := NilZero.string_of_int (Z.to_int z).

(** [for x in xs] over a body that may raise. *)
Fixpoint for_each {A S : Type} (body : S -> A -> result S) (xs : list A)
    (s : S) : result S :=
  match xs with
  | [] => Ok s
  | x :: xs' => s' <- body s x ;; for_each body xs' s'
  end.

(** The lines printed by [run]. *)
Inductive message : Type :=
| Connecting (database user host : string)
| Inserted (total n_orders batches : Z)
| Average (avg_items : Q)
| InsertTime (elapsed rate : Q)
| RuntimeFailure (msg : string).

Record Outcome : Type := {
  console : list message;
  connection : list statement
}.

Section Run.
Variable cfg : Config.
Context {R : RandomSource}.

(** The body of [for pid in chosen_products]. *)
Definition add_line (products : dict Z Product) (order_id : Z)
    (acc : RunState * rng_state) (pid : Z) : result (RunState * rng_state) :=
  let '(s, rng) := acc in
  weights <- QTY_WEIGHTS cfg ;;
  '(q, rng') <- choose_weighted_key rng weights ;;
  let qty := Z.max 1 q in
  p <- match get products pid with
       | Some p => Ok p
       | None => Raise (KeyError (repr pid))
       end ;;
  let s1 := append s {| item_order_id := order_id; item_product_id := pid;
                        quantity := qty; unit_price := price p |} in
  let s2 :=
    if negb (BATCH_SIZE cfg =? 0) &&
       (BATCH_SIZE cfg <=? Z.of_nat (List.length (buffer s1)))
    then clear (flush s1) else s1 in
  Ok (s2, rng').

(** The body of [for order_id in order_ids]. *)
Definition order_step (products : dict Z Product) (product_ids : list Z)
    (weights_map : dict Z Q) (acc : RunState * rng_state) (order_id : Z)
    : result (RunState * rng_state) :=
  let '(s, rng) := acc in
  weights <- CART_SIZE_WEIGHTS cfg ;;
  '(cart_size, rng1) <- choose_weighted_key rng weights ;;
  '(chosen_products, rng2) <-
     sample_unique_products_weighted rng1 product_ids weights_map cart_size ;;
  for_each (add_line products order_id) chosen_products (s, rng2).

(** The [try] block of [run]. The connector is taken to execute every
    statement, so [mysql.connector.Error] is not raised. *)
Definition run_body (w : Payments.World) (db : Database) (rng : rng_state)
    : result (list message * list statement) :=
  order_ids <- fetch_orders db ;;
  '(products, category_names) <- fetch_products db ;;
  let weights_map := product_weights cfg products category_names 1 in
  let conn :=
    if CLEAR_EXISTING_ORDER_ITEMS cfg then [DeleteOrderItems; Commit]
    else [] in
  let product_ids := keys products in
  let start := Payments.perf_counter w 0%nat in
  '(s, _) <- for_each (order_step products product_ids weights_map) order_ids
               ({| sent := conn; buffer := []; total_items := 0;
                   batches := 0 |}, rng) ;;
  let s' := match buffer s with [] => s | _ => flush s end in
  let elapsed := (Payments.perf_counter w 1%nat - start)%Q in
  let avg_items :=
    match order_ids with
    | [] => 0%Q
    | _ => (inject_Z (total_items s') /
            inject_Z (Z.of_nat (List.length order_ids)))%Q
    end in
  Ok ([Inserted (total_items s') (Z.of_nat (List.length order_ids))
                (batches s');
       Average avg_items] ++
      (if Qltb 0 elapsed
       then [InsertTime elapsed (inject_Z (total_items s') / elapsed)%Q]
       else []),
      sent s').

(** [run(seed)], after the module has been loaded (which evaluates
    [CART_SIZE_WEIGHTS] and [QTY_WEIGHTS]), on the database [db] that
    [DB_CONFIG] selects. A [RuntimeError] comes from the fetchers,
    before any statement is sent; any other exception leaves [run]. *)
Definition run (w : Payments.World) (db : Database) (seed : Z)
    : result Outcome :=
  _ <- CART_SIZE_WEIGHTS cfg ;;
  _ <- QTY_WEIGHTS cfg ;;
  let rng := Random seed in
  let hello :=
    Connecting (Payments.getenv w "DB_NAME" "ecommerce_db_test")
               (Payments.getenv w "DB_USER" "root")
               (Payments.getenv w "DB_HOST" "localhost") in
  match run_body w db rng with
  | Ok (printed, conn) =>
      Ok {| console := hello :: printed; connection := conn ++ [Close] |}
  | Raise (RuntimeError msg) =>
      Ok {| console := [hello; RuntimeFailure msg];
            connection := [Rollback; Close] |}
  | Raise e => Raise e
  | OutOfFuel => OutOfFuel
  end.

Definition main (w : Payments.World) (db : Database) : result Outcome :=
  run w db SEED.

End Run.

End OrderItems.

(* ------------------------------------------------------------------ *)
(** ** A scripted generator

    A generator for running the model on concrete inputs: [random]
    replays a list of floats (and yields [0] once the list is over),
    [randint a b] walks through [[a, b]] so that successive draws
    differ. *)

Definition scripted (floats : list Q) : RandomSource := {|
  rng_state := list Q * nat;
  Random := fun _ => (floats, O);
  random := fun s =>
    match fst s with
    | [] => (0%Q, s)
    | r :: rs => (r, (rs, snd s))
    end;
  randint := fun a b s =>
    (a + Z.of_nat (snd s) mod (b - a + 1), (fst s, S (snd s)))
|}.

(* ------------------------------------------------------------------ *)
(** ** Sample data *)

Module Sample.
Import PyDict Payments.

(** All four configured methods are registered. *)
Definition db : Database := {|
  payment_methods :=
    [(1, "card"); (2, "paypal"); (3, "mbway"); (4, "bank_transfer")];
  payment_status := [(1, "pending"); (2, "paid"); (3, "failed")];
  orders_with_totals := [(101, 1000, 4, 100%Q); (102, 5000, 5, 50%Q)]
|}.

(** [card] is configured but has no row in [payment_methods]. *)
Definition db_without_card : Database := {|
  payment_methods := [(2, "paypal"); (3, "mbway"); (4, "bank_transfer")];
  payment_status := [(1, "pending"); (2, "paid"); (3, "failed")];
  orders_with_totals := [(101, 1000, 4, 100%Q); (102, 5000, 5, 50%Q)]
|}.

Definition method_ids (d : Database) : dict string Z :=
  match fetch_payment_methods d with
  | Ok (_, code_to_id) => code_to_id
  | _ => []
  end.

Definition status_ids (d : Database) : dict string Z :=
  match fetch_payment_statuses d with
  | Ok (_, code_to_id) => code_to_id
  | _ => []
  end.

(** An order that was delivered and an order that was cancelled. *)
Definition delivered : OrderInfo :=
  {| order_id := 101; order_date := 1000; order_status := 4;
     order_total := 100%Q |}.

Definition cancelled : OrderInfo :=
  {| order_id := 102; order_date := 5000; order_status := 5;
     order_total := 50%Q |}.

Definition world : World :=
  {| environ := fun _ => None; perf_counter := fun n => inject_Z (Z.of_nat n) |}.

Definition later_world : World :=
  {| environ := fun name => if String.eqb name "DB_USER" then Some "etl" else None;
     perf_counter := fun n => inject_Z (7 * Z.of_nat n + 3) |}.

End Sample.

(* ------------------------------------------------------------------ *)
(** ** Facts about dictionaries *)

Section DictFacts.
Context {K V : Type} {HK : Key K}.
Import PyDict.

Lemma key_eqb_refl (k : K) : key_eqb k k = true.
Proof. now apply key_eqb_eq. Qed.

Lemma key_eqb_neq (a b : K) : a <> b -> key_eqb a b = false.
Proof.
  intros Hab. destruct (key_eqb a b) eqn:E; [|reflexivity].
  apply key_eqb_eq in E. contradiction.
Qed.

Lemma key_eq_dec (a b : K) : {a = b} + {a <> b}.
Proof.
  destruct (key_eqb a b) eqn:E.
  - left. now apply key_eqb_eq.
  - right. intros ->. rewrite key_eqb_refl in E. discriminate.
Qed.

Lemma get_In (d : dict K V) (k : K) (v : V) :
  get d k = Some v -> In (k, v) d.
Proof.
  induction d as [|[k' v'] d IH]; simpl; [discriminate|].
  destruct (key_eqb k' k) eqn:E.
  - intros [= ->]. apply key_eqb_eq in E. subst. now left.
  - intros Hg. right. auto.
Qed.

Lemma get_None_notin (d : dict K V) (k : K) :
  get d k = None <-> ~ In k (keys d).
Proof.
  induction d as [|[k' v'] d IH]; simpl.
  - tauto.
  - destruct (key_eqb k' k) eqn:E.
    + apply key_eqb_eq in E. subst. split; [discriminate|]. tauto.
    + rewrite IH. split; [|tauto].
      intros Hn [->|Hin]; [|tauto]. rewrite key_eqb_refl in E. discriminate.
Qed.

Lemma In_get (d : dict K V) (k : K) (v : V) :
  wf d -> In (k, v) d -> get d k = Some v.
Proof.
  unfold wf. induction d as [|[k' v'] d IH]; simpl; [tauto|].
  intros Hnd [Heq|Hin]; inversion Hnd as [|? ? Hnotin Hnd']; subst.
  - inversion Heq; subst. now rewrite key_eqb_refl.
  - destruct (key_eqb k' k) eqn:E; [|auto].
    apply key_eqb_eq in E. subst. exfalso. apply Hnotin.
    change k with (fst (k, v)). now apply in_map.
Qed.

Lemma wf_functional (d : dict K V) (k : K) (v v' : V) :
  wf d -> In (k, v) d -> In (k, v') d -> v = v'.
Proof.
  intros Hwf H1 H2. apply (In_get _ _ _ Hwf) in H1, H2. congruence.
Qed.

Lemma set_notin (d : dict K V) (k : K) (v : V) :
  ~ In k (keys d) -> set d k v = d ++ [(k, v)].
Proof.
  induction d as [|[k' v'] d IH]; simpl; [reflexivity|].
  intros Hn. rewrite key_eqb_neq by tauto. f_equal. apply IH. tauto.
Qed.

Lemma keys_set_in (d : dict K V) (k : K) (v : V) :
  In k (keys d) -> keys (set d k v) = keys d.
Proof.
  induction d as [|[k' v'] d IH]; simpl; [tauto|].
  intros Hin. destruct (key_eqb k' k) eqn:E; simpl; [reflexivity|].
  f_equal. apply IH. destruct Hin as [->|Hin]; [|assumption].
  rewrite key_eqb_refl in E. discriminate.
Qed.

Lemma keys_set (d : dict K V) (k : K) (v : V) :
  keys (set d k v) = if in_dec key_eq_dec k (keys d) then keys d
                     else keys d ++ [k].
Proof.
  destruct (in_dec key_eq_dec k (keys d)) as [Hin|Hn].
  - now apply keys_set_in.
  - rewrite set_notin by assumption. unfold keys. now rewrite map_app.
Qed.

Lemma wf_set (d : dict K V) (k : K) (v : V) : wf d -> wf (set d k v).
Proof.
  unfold wf. rewrite keys_set.
  destruct (in_dec key_eq_dec k (keys d)) as [Hin|Hn]; [auto|].
  intros Hnd. apply NoDup_app; [assumption|repeat constructor; simpl; tauto|].
  intros x Hx [<-|[]]. contradiction.
Qed.

Lemma wf_fold_set (l : list (K * V)) (acc : dict K V) :
  wf acc -> wf (fold_left (fun d kv => set d (fst kv) (snd kv)) l acc).
Proof.
  revert acc. induction l as [|[k v] l IH]; simpl; intros acc Hacc.
  - assumption.
  - apply IH. now apply wf_set.
Qed.

Lemma wf_of_items (l : list (K * V)) : wf (of_items l).
Proof. apply wf_fold_set. constructor. Qed.

Lemma fold_set_fresh (l : list (K * V)) (acc : dict K V) :
  NoDup (keys acc ++ keys l) ->
  fold_left (fun d kv => set d (fst kv) (snd kv)) l acc = acc ++ l.
Proof.
  revert acc. induction l as [|[k v] l IH]; simpl; intros acc Hnd.
  - now rewrite app_nil_r.
  - rewrite set_notin.
    + rewrite IH.
      * now rewrite <- app_assoc.
      * unfold keys in *. rewrite map_app. simpl. now rewrite <- app_assoc.
    + apply NoDup_remove_2 in Hnd. intros Hin. apply Hnd.
      apply in_or_app. now left.
Qed.

(** A comprehension over the items of a dictionary that keeps the keys
    keeps their order. *)
Lemma of_items_wf (d : dict K V) : wf d -> of_items d = d.
Proof.
  intros Hwf. unfold of_items. now rewrite fold_set_fresh.
Qed.

Lemma In_set (d : dict K V) (k k' : K) (v v' : V) :
  In (k', v') (set d k v) -> In (k', v') d \/ (k', v') = (k, v).
Proof.
  induction d as [|[k0 v0] d IH]; simpl.
  - intros [Heq|[]]. right. now symmetry.
  - destruct (key_eqb k0 k) eqn:E; simpl.
    + apply key_eqb_eq in E. subst.
      intros [Heq|Hin]; [right; now symmetry|tauto].
    + intros [Heq|Hin]; [tauto|]. destruct (IH Hin); tauto.
Qed.

Lemma In_fold_set (l : list (K * V)) (acc : dict K V) (k : K) (v : V) :
  In (k, v) (fold_left (fun d kv => set d (fst kv) (snd kv)) l acc) ->
  In (k, v) acc \/ In (k, v) l.
Proof.
  revert acc. induction l as [|[k0 v0] l IH]; simpl; intros acc Hin.
  - now left.
  - destruct (IH _ Hin) as [Hacc|Hl]; [|tauto].
    destruct (In_set _ _ _ _ _ Hacc) as [Hd|Heq]; [tauto|].
    right. left. now symmetry.
Qed.

Lemma In_of_items (l : list (K * V)) (k : K) (v : V) :
  In (k, v) (of_items l) -> In (k, v) l.
Proof.
  intros Hin. destruct (In_fold_set _ _ _ _ Hin) as [[]|Hl]. assumption.
Qed.

Lemma keys_fold_set (l : list (K * V)) (acc : dict K V) (k : K) :
  In k (keys (fold_left (fun d kv => set d (fst kv) (snd kv)) l acc)) <->
  In k (keys acc) \/ In k (keys l).
Proof.
  revert acc. induction l as [|[k0 v0] l IH]; simpl; intros acc.
  - tauto.
  - rewrite IH, keys_set. simpl.
    destruct (in_dec key_eq_dec k0 (keys acc)) as [Hin|Hn].
    + split; [tauto|]. intros [Ha|[<-|Hl]]; tauto.
    + unfold keys at 1. fold (keys acc). rewrite in_app_iff. simpl. tauto.
Qed.

Lemma keys_of_items (l : list (K * V)) (k : K) :
  In k (keys (of_items l)) <-> In k (keys l).
Proof.
  unfold of_items. rewrite keys_fold_set. simpl. tauto.
Qed.

Lemma get_set_same (d : dict K V) (k : K) (v : V) :
  get (set d k v) k = Some v.
Proof.
  induction d as [|[k' v'] d IH]; simpl.
  - now rewrite key_eqb_refl.
  - destruct (key_eqb k' k) eqn:E; simpl; rewrite E; auto.
Qed.

Lemma get_set_other (d : dict K V) (k k' : K) (v : V) :
  k <> k' -> get (set d k v) k' = get d k'.
Proof.
  intros Hne. induction d as [|[k0 v0] d IH]; simpl.
  - now rewrite key_eqb_neq.
  - destruct (key_eqb k0 k) eqn:E; simpl.
    + apply key_eqb_eq in E. subst. now rewrite key_eqb_neq.
    + now rewrite IH.
Qed.

End DictFacts.

(* ------------------------------------------------------------------ *)
(** ** The weighted distribution engine *)

(** The inputs that the specification calls invalid distributions. *)
Definition invalid_distribution {K : Type} (dist : PyDict.dict K Q) : Prop :=
  dist = [] \/
  (exists v, In v (PyDict.values dist) /\ (v < 0)%Q) \/
  (sum (PyDict.values dist) <= 0)%Q.

Lemma Qleb_le (x y : Q) : Qleb x y = true <-> (x <= y)%Q.
Proof. apply Qle_bool_iff. Qed.

Lemma Qleb_gt (x y : Q) : Qleb x y = false <-> (y < x)%Q.
Proof.
  unfold Qleb. split.
  - intros E. apply Qnot_le_lt. intros Hle.
    apply Qle_bool_iff in Hle. congruence.
  - intros Hlt. destruct (Qle_bool x y) eqn:E; [|reflexivity].
    apply Qle_bool_iff in E. exfalso. now apply (Qlt_not_le _ _ Hlt).
Qed.

Lemma Qltb_lt (x y : Q) : Qltb x y = true <-> (x < y)%Q.
Proof.
  unfold Qltb. rewrite negb_true_iff. apply Qleb_gt.
Qed.

Lemma existsb_negative (vs : list Q) :
  existsb (fun v => Qltb v 0) vs = true <->
  exists v, In v vs /\ (v < 0)%Q.
Proof.
  rewrite existsb_exists. split; intros [v [Hin Hv]]; exists v;
    (split; [assumption|]); now apply Qltb_lt.
Qed.

Section EngineFacts.
Import PyDict PyRandom Payments.

Lemma normalize_distribution_cases {K : Type} {HK : Key K}
    (dist : dict K Q) :
  wf dist ->
  (invalid_distribution dist /\
   exists msg, normalize_distribution dist = Raise (ValueError msg)) \/
  (~ invalid_distribution dist /\
   normalize_distribution dist =
     Ok (map (fun kv => (fst kv, (snd kv / sum (values dist))%Q)) dist)).
Proof.
  intros Hwf. unfold normalize_distribution, invalid_distribution.
  destruct dist as [|kv dist']; [left; eauto|].
  set (d := kv :: dist') in *.
  destruct (existsb (fun v => Qltb v 0) (values d)) eqn:Eneg.
  - left. apply existsb_negative in Eneg. eauto.
  - destruct (Qleb (sum (values d)) 0) eqn:Etot.
    + left. apply Qleb_le in Etot. eauto.
    + right. split.
      * intros [Hnil|[Hneg|Hle]].
        -- discriminate.
        -- apply existsb_negative in Hneg. congruence.
        -- apply Qleb_le in Hle. congruence.
      * f_equal. apply of_items_wf. unfold wf, keys in *.
        rewrite map_map. simpl. exact Hwf.
Qed.

Lemma accumulate_from_length (ws : list Q) (acc : Q) :
  List.length (accumulate_from acc ws) = List.length ws.
Proof.
  revert acc. induction ws; simpl; intros; [reflexivity|]. now rewrite IHws.
Qed.

Lemma accumulate_length (ws : list Q) :
  List.length (accumulate ws) = List.length ws.
Proof.
  destruct ws; simpl; [reflexivity|]. now rewrite accumulate_from_length.
Qed.

Lemma fold_left_Qplus (ws : list Q) (a : Q) :
  (fold_left Qplus ws a == a + fold_left Qplus ws 0)%Q.
Proof.
  revert a. induction ws as [|w ws IH]; simpl; intros a.
  - ring.
  - rewrite (IH (a + w)%Q), (IH (0 + w)%Q). ring.
Qed.

Lemma last_cons {A : Type} (l : list A) (s d : A) :
  List.last (s :: l) d = List.last l s.
Proof.
  revert s d. induction l as [|x l IH]; intros s d; [reflexivity|].
  change (List.last (s :: x :: l) d) with (List.last (x :: l) d).
  now rewrite (IH x d), (IH x s).
Qed.

Lemma accumulate_from_last (ws : list Q) (acc : Q) :
  (List.last (accumulate_from acc ws) acc == acc + sum ws)%Q.
Proof.
  unfold sum. revert acc. induction ws as [|w ws IH]; intros acc.
  - simpl. ring.
  - cbn [accumulate_from fold_left].
    rewrite last_cons, IH, (fold_left_Qplus ws (0 + w)%Q). ring.
Qed.

(** The total that [choices] reads at the end of the cumulative weights
    is the sum of the weights. *)
Lemma accumulate_total (ws : list Q) (total : Q) (l : list Q) :
  rev (accumulate ws) = total :: l -> (total == sum ws)%Q.
Proof.
  destruct ws as [|w ws]; [discriminate|].
  intros Hrev.
  assert (Hl : List.last (accumulate (w :: ws)) 0%Q = total).
  { rewrite <- (rev_involutive (accumulate (w :: ws))), Hrev. simpl.
    now rewrite last_last. }
  cbn [accumulate] in Hl. rewrite last_cons in Hl.
  rewrite <- Hl, accumulate_from_last. unfold sum. simpl.
  rewrite (fold_left_Qplus ws (0 + w)%Q). ring.
Qed.

Lemma bisect_loop_bounds (fuel : nat) (a : list Q) (x : Q) (lo hi : nat) :
  (lo <= hi)%nat ->
  (lo <= bisect_loop fuel a x lo hi <= hi)%nat.
Proof.
  revert lo hi.
  induction fuel as [|fuel IH]; cbn [bisect_loop]; intros lo hi Hle.
  - lia.
  - destruct (lo <? hi)%nat eqn:E; [|lia].
    apply Nat.ltb_lt in E.
    assert (Hmid : (lo <= (lo + hi) / 2 < hi)%nat).
    { split.
      - apply Nat.div_le_lower_bound; lia.
      - apply Nat.Div0.div_lt_upper_bound; lia. }
    generalize dependent ((lo + hi) / 2)%nat. intros mid Hmid.
    destruct (Qltb x (nth mid a 0%Q)).
    + specialize (IH lo mid). lia.
    + specialize (IH (S mid) hi). lia.
Qed.

(** [hi - lo] rounds are enough: with more fuel the loop has stopped
    at the same index. *)
Lemma bisect_loop_enough (fuel : nat) (a : list Q) (x : Q) (lo hi : nat) :
  (hi - lo <= fuel)%nat ->
  bisect_loop fuel a x lo hi = bisect a x lo hi.
Proof.
  unfold bisect.
  assert (Hgen : forall f1 f2 lo hi,
            (hi - lo <= f1)%nat -> (hi - lo <= f2)%nat ->
            bisect_loop f1 a x lo hi = bisect_loop f2 a x lo hi).
  { clear. induction f1 as [|f1 IH]; intros f2 lo hi H1 H2;
      destruct f2 as [|f2]; cbn [bisect_loop]; try reflexivity.
    - destruct (lo <? hi)%nat eqn:E; [apply Nat.ltb_lt in E; lia|reflexivity].
    - destruct (lo <? hi)%nat eqn:E; [apply Nat.ltb_lt in E; lia|reflexivity].
    - destruct (lo <? hi)%nat eqn:E; [|reflexivity].
      apply Nat.ltb_lt in E.
      assert (Hmid : (lo <= (lo + hi) / 2 < hi)%nat).
      { split.
        - apply Nat.div_le_lower_bound; lia.
        - apply Nat.Div0.div_lt_upper_bound; lia. }
      generalize dependent ((lo + hi) / 2)%nat. intros mid Hmid.
      destruct (Qltb x (nth mid a 0%Q)); apply IH; lia. }
  intros Hle. apply Hgen; lia.
Qed.

Lemma bisect_bounds (a : list Q) (x : Q) (hi : nat) :
  (bisect a x 0 hi <= hi)%nat.
Proof.
  unfold bisect. pose proof (bisect_loop_bounds (hi - 0) a x 0 hi). lia.
Qed.

Context {R : RandomSource}.

(** [choices] fails exactly on an empty or non-positive total, and
    otherwise draws one float and returns a member of the population. *)
Lemma choices_cases {A : Type} (rng : rng_state) (population : list A)
    (weights : list Q) :
  List.length weights = List.length population ->
  population <> [] ->
  ((sum weights <= 0)%Q /\
   exists msg, choices rng population weights = Raise (ValueError msg)) \/
  ((0 < sum weights)%Q /\
   exists x, choices rng population weights = Ok (x, snd (random rng)) /\
             In x population).
Proof.
  intros Hlen Hne. unfold choices.
  rewrite accumulate_length, Hlen, Nat.eqb_refl. simpl.
  destruct (rev (accumulate weights)) as [|total l] eqn:Erev.
  - exfalso. apply (f_equal (@List.length Q)) in Erev.
    rewrite length_rev, accumulate_length, Hlen in Erev.
    destruct population; [congruence|discriminate].
  - pose proof (accumulate_total _ _ _ Erev) as Htot.
    destruct (Qleb total 0) eqn:E.
    + left. apply Qleb_le in E. rewrite Htot in E. eauto.
    + right. apply Qleb_gt in E. rewrite Htot in E. split; [assumption|].
      destruct (random rng) as [r rng'] eqn:Er. simpl.
      set (idx := bisect (accumulate weights) (r * total)%Q 0
                         (List.length population - 1)).
      assert (Hidx : (idx < List.length population)%nat).
      { pose proof (bisect_bounds (accumulate weights) (r * total)%Q
                      (List.length population - 1)).
        fold idx in H. destruct population; [congruence|simpl in *; lia]. }
      destruct (nth_error population idx) as [x|] eqn:En.
      * exists x. split; [reflexivity|]. eapply nth_error_In; eauto.
      * apply nth_error_None in En. lia.
Qed.

Lemma weighted_choice_key_cases {K : Type} (rng : rng_state)
    (weights : dict K Q) :
  ((weights = [] \/ (sum (values weights) <= 0)%Q) /\
   exists msg, weighted_choice_key rng weights = Raise (ValueError msg)) \/
  ((weights <> [] /\ (0 < sum (values weights))%Q) /\
   exists k, weighted_choice_key rng weights = Ok (k, snd (random rng)) /\
             In k (keys weights)).
Proof.
  unfold weighted_choice_key.
  destruct weights as [|kv ws]; [left; eauto|].
  set (d := kv :: ws).
  destruct (choices_cases rng (keys d) (values d)) as [[Hs He]|[Hs He]].
  - unfold keys, values. now rewrite !length_map.
  - discriminate.
  - left. tauto.
  - right. split; [split; [discriminate|assumption]|assumption].
Qed.

End EngineFacts.

Section EngineProperties.
Import PyDict PyRandom Payments.

(** C6. [normalize_distribution] fails with [ValueError] (the
    specification's InvalidDistribution) exactly when the mapping is
    empty, holds a negative weight or has a total [<= 0]; on any other
    mapping it returns every key, in place, with its weight divided by
    the total. It fails on [{A:0, B:0}] and on [{A:-1, B:2}], and maps
    [{A:1, B:3}] to [{A:1/4, B:3/4}]. *)
Theorem normalize_distribution_spec :
  forall (K : Type) (HK : Key K) (dist : dict K Q),
    wf dist ->
    ((exists msg, normalize_distribution dist = Raise (ValueError msg)) <->
     invalid_distribution dist) /\
    (~ invalid_distribution dist ->
     normalize_distribution dist =
       Ok (map (fun kv => (fst kv, (snd kv / sum (values dist))%Q)) dist)) /\
    (exists msg,
       normalize_distribution [("A", 0%Q); ("B", 0%Q)] =
         Raise (ValueError msg)) /\
    (exists msg,
       normalize_distribution [("A", (-1)%Q); ("B", 2%Q)] =
         Raise (ValueError msg)) /\
    normalize_distribution [("A", 1%Q); ("B", 3%Q)] =
      Ok [("A", (1 # 4)%Q); ("B", (3 # 4)%Q)] /\
    ((1 # 4) == 0.25)%Q /\ ((3 # 4) == 0.75)%Q.
Proof.
  intros K HK dist Hwf.
  destruct (normalize_distribution_cases dist Hwf) as [[Hinv He]|[Hok He]].
  - repeat split; try (eexists; reflexivity); try reflexivity; try tauto.
  - repeat split; try (eexists; reflexivity); try reflexivity; try tauto.
    intros [msg Hmsg]. congruence.
Qed.

Lemma normalize_distribution_spec_witness :
  wf [("A", 1%Q); ("B", 3%Q)] /\
  ((exists msg,
      normalize_distribution [("A", 1%Q); ("B", 3%Q)] =
        Raise (ValueError msg)) <->
   invalid_distribution [("A", 1%Q); ("B", 3%Q)]).
Proof.
  assert (Hwf : wf [("A", 1%Q); ("B", 3%Q)]).
  { unfold wf. simpl. repeat constructor; simpl; intuition discriminate. }
  split; [exact Hwf|].
  exact (proj1 (normalize_distribution_spec string _ _ Hwf)).
Defined.



End EngineProperties.

(* ------------------------------------------------------------------ *)
(** ** The batch persistence buffer *)

Section BufferFacts.
Import Payments.

(** The statements that hand the chunks [chunks] to the storage. *)
Definition flushes (chunks : list (list Row)) : list statement :=
  flat_map (fun chunk => [InsertPayments chunk; Commit]) chunks.

(** The loop invariant of [insert_payments_in_batches]: after the rows
    [done], the chunks [chunks] have been flushed and [buf] holds the
    rest. *)
Record buffer_inv (conn : list statement) (batch_size : Z)
    (done : list Row) (chunks : list (list Row)) (b : Buffer) : Prop := {
  inv_sent : sent b = conn ++ flushes chunks;
  inv_rows : List.concat chunks ++ buf b = done;
  inv_full : Forall (fun c => Z.of_nat (List.length c) = batch_size) chunks;
  inv_room : Z.of_nat (List.length (buf b)) < batch_size;
  inv_total : total b = Z.of_nat (List.length (List.concat chunks));
  inv_batches : batches b = Z.of_nat (List.length chunks)
}.

Lemma flushes_app (c1 c2 : list (list Row)) :
  flushes (c1 ++ c2) = flushes c1 ++ flushes c2.
Proof. unfold flushes. now rewrite flat_map_app. Qed.

Lemma buffer_step_inv (conn : list statement) (batch_size : Z)
    (done : list Row) (chunks : list (list Row)) (b : Buffer) (rec : Row) :
  0 < batch_size ->
  buffer_inv conn batch_size done chunks b ->
  exists chunks',
    buffer_inv conn batch_size (done ++ [rec]) chunks'
               (buffer_step batch_size b rec).
Proof.
  intros Hpos [Hsent Hrows Hfull Hroom Htotal Hbatches].
  unfold buffer_step.
  assert (Hlen : Z.of_nat (List.length (buf b ++ [rec])) =
                 Z.of_nat (List.length (buf b)) + 1).
  { rewrite length_app. simpl List.length. lia. }
  destruct (batch_size =? 0) eqn:E0; [apply Z.eqb_eq in E0; lia|].
  cbn [negb andb append buf].
  destruct (batch_size <=? Z.of_nat (List.length (buf b ++ [rec]))) eqn:E.
  - apply Z.leb_le in E. exists (chunks ++ [buf b ++ [rec]]).
    constructor; cbn [clear flush append sent buf total batches].
    + rewrite Hsent, flushes_app, <- app_assoc. reflexivity.
    + rewrite List.concat_app. cbn [List.concat].
      rewrite !app_nil_r, app_assoc. now rewrite Hrows.
    + apply Forall_app. split; [assumption|]. constructor; [|constructor].
      lia.
    + simpl List.length. lia.
    + rewrite Htotal, List.concat_app. cbn [List.concat].
      rewrite app_nil_r, !length_app. simpl List.length. lia.
    + rewrite Hbatches, length_app. simpl List.length. lia.
  - apply Z.leb_gt in E. exists chunks.
    constructor; cbn [append sent buf total batches]; try assumption.
    now rewrite app_assoc, Hrows.
Qed.

Lemma buffer_fold_inv (conn : list statement) (batch_size : Z)
    (rows done : list Row) (chunks : list (list Row)) (b : Buffer) :
  0 < batch_size ->
  buffer_inv conn batch_size done chunks b ->
  exists chunks',
    buffer_inv conn batch_size (done ++ rows) chunks'
               (fold_left (buffer_step batch_size) rows b).
Proof.
  intros Hpos. revert done chunks b.
  induction rows as [|rec rows IH]; simpl; intros done chunks b Hinv.
  - exists chunks. now rewrite app_nil_r.
  - destruct (buffer_step_inv _ _ _ _ _ rec Hpos Hinv) as [chunks1 Hinv1].
    destruct (IH _ _ _ Hinv1) as [chunks2 Hinv2].
    exists chunks2. now rewrite <- app_assoc in Hinv2.
Qed.

(** Seven rows, numbered by their attempt. *)
Definition seven_rows : list Row :=
  map (fun n => {| row_order_id := 1; row_attempt_no := n;
                   row_payment_date := n; row_amount_paid := 0%Q;
                   row_payment_method_id := 1;
                   row_payment_status_id := 2 |})
      [1; 2; 3; 4; 5; 6; 7].

(** C9. For a positive threshold, [insert_payments_in_batches] sends the
    rows it was given, in their order, as contiguous non-empty chunks of
    at most [batch_size] rows, each committed once, and returns the
    number of rows and of chunks; seven rows with threshold three are
    sent as chunks of three, three and one rows. *)
Theorem insert_payments_in_batches_chunks :
  forall (conn : list statement) (rows : list Row) (batch_size : Z),
    0 < batch_size ->
    exists chunks,
      insert_payments_in_batches conn rows batch_size =
        (conn ++ flushes chunks,
         (Z.of_nat (List.length rows), Z.of_nat (List.length chunks))) /\
      List.concat chunks = rows /\
      Forall (fun c => 0 < Z.of_nat (List.length c) <= batch_size) chunks /\
      (batch_size = 3 -> List.length rows = 7%nat ->
       map (@List.length Row) chunks = [3; 3; 1]%nat).
Proof.
  intros conn rows batch_size Hpos.
  assert (Hex : exists chunks,
    insert_payments_in_batches conn rows batch_size =
      (conn ++ flushes chunks,
       (Z.of_nat (List.length rows), Z.of_nat (List.length chunks))) /\
    List.concat chunks = rows /\
    Forall (fun c => 0 < Z.of_nat (List.length c) <= batch_size) chunks /\
    Forall (fun c => Z.of_nat (List.length c) = batch_size)
           (removelast chunks)).
  { unfold insert_payments_in_batches.
    destruct rows as [|r rows'].
    { exists []. simpl. rewrite app_nil_r. repeat split; constructor. }
    set (rows := r :: rows').
    set (b0 := {| sent := conn; buf := []; total := 0; batches := 0 |}).
    assert (Hinv0 : buffer_inv conn batch_size [] [] b0).
    { constructor; simpl; try reflexivity; try lia.
      - now rewrite app_nil_r.
      - constructor. }
    destruct (buffer_fold_inv conn batch_size rows [] [] b0 Hpos Hinv0)
      as [chunks [Hsent Hrows Hfull Hroom Htotal Hbatches]].
    change ([] ++ rows) with rows in Hrows.
    set (bf := fold_left (buffer_step batch_size) rows b0) in *.
    destruct (buf bf) as [|x rest] eqn:Ebuf.
    - exists chunks. rewrite app_nil_r in Hrows.
      rewrite Hsent, Htotal, Hbatches, Hrows. repeat split.
      + eapply Forall_impl; [|exact Hfull]. simpl. intros; lia.
      + clear - Hfull. induction Hfull as [|c l Hc Hl IHl]; simpl.
        * constructor.
        * destruct l; [constructor|]. constructor; assumption.
    - exists (chunks ++ [x :: rest]).
      cbn [flush sent total batches buf].
      rewrite Ebuf, Hsent, Htotal, Hbatches, flushes_app, <- app_assoc.
      rewrite <- Hrows, !length_app. simpl List.length.
      rewrite List.concat_app. cbn [List.concat]. rewrite app_nil_r.
      repeat split.
      + repeat f_equal; lia.
      + apply Forall_app. split.
        * eapply Forall_impl; [|exact Hfull]. simpl. intros; lia.
        * constructor; [|constructor]. simpl List.length in *. lia.
      + now rewrite removelast_last. }
  destruct Hex as [chunks [Heq [Hcat [Hsz Hfull]]]].
  exists chunks. repeat split; try assumption.
  intros -> Hlen. subst rows.
  assert (Hcase : forall c : list Row,
            0 < Z.of_nat (List.length c) <= 3 ->
            List.length c = 1%nat \/ List.length c = 2%nat \/
            List.length c = 3%nat) by (intros; lia).
  destruct chunks as [|c1 [|c2 [|c3 [|c4 cs]]]]; simpl in *;
    repeat match goal with
           | Hf : Forall _ (_ :: _) |- _ => inversion Hf; clear Hf; subst
           end;
    rewrite ?length_app in Hlen; simpl in Hlen;
    rewrite ?length_app in Hlen; simpl in Hlen;
    try (repeat f_equal; lia); try lia.
Qed.

Lemma insert_payments_in_batches_chunks_witness :
  0 < 3 /\
  exists chunks,
    insert_payments_in_batches [DeletePayments; Commit] seven_rows 3 =
      ([DeletePayments; Commit] ++ flushes chunks,
       (Z.of_nat (List.length seven_rows), Z.of_nat (List.length chunks))) /\
    List.concat chunks = seven_rows /\
    Forall (fun c => 0 < Z.of_nat (List.length c) <= 3) chunks /\
    (3 = 3 -> List.length seven_rows = 7%nat ->
     map (@List.length Row) chunks = [3; 3; 1]%nat).
Proof.
  split; [lia|].
  apply (insert_payments_in_batches_chunks
           [DeletePayments; Commit] seven_rows 3).
  lia.
Defined.

End BufferFacts.

(* ------------------------------------------------------------------ *)
(** ** The attempt loop, one round at a time *)

Section StepFacts.
Import PyDict PyRandom Payments.
Context {R : RandomSource}.
Variable cfg : Config.
Variable method_id_by_code : dict string Z.
Variable status_id_by_code : dict string Z.

(** The choice of a method changes [current_method] only. *)
Definition same_but_current (st st1 : LoopState) : Prop :=
  method_counts st1 = method_counts st /\
  paid st1 = paid st /\
  attempt_no st1 = attempt_no st /\
  rows st1 = rows st.

(** The state after an attempt with [method] that appended [new_rows]. *)
Definition attempted (st1 : LoopState) (method : string) (is_paid : bool)
    (new_rows : list Row) : LoopState :=
  {| current_method := current_method st1;
     method_counts :=
       set (method_counts st1) method
           (count_of (method_counts st1) method + 1);
     paid := is_paid;
     attempt_no := attempt_no st1 + 1;
     rows := rows st1 ++ new_rows |}.

Definition attempt_row (order : OrderInfo) (st1 : LoopState) (t : datetime)
    (amount : Decimal) (method_id status : Z) : Row :=
  {| row_order_id := order_id order;
     row_attempt_no := attempt_no st1 + 1;
     row_payment_date := t;
     row_amount_paid := amount;
     row_payment_method_id := method_id;
     row_payment_status_id := status |}.

(** How one round of the loop can end. In every attempt the method is a
    configured one that is below its cap. *)
Inductive attempt_outcome (order : OrderInfo) (t : datetime)
    (st : LoopState) : flow -> Prop :=
| AlreadyPaid :
    paid st = true ->
    attempt_outcome order t st (Break st)
| Exhausted (st1 : LoopState) :
    paid st = false ->
    same_but_current st st1 ->
    attempt_outcome order t st (Break st1)
| Skipped (st1 : LoopState) (method : string) (c : MethodCfg) :
    paid st = false ->
    same_but_current st st1 ->
    get (PAYMENT_METHOD_CONFIG cfg) method = Some c ->
    count_of (method_counts st) method < cap cfg c ->
    get method_id_by_code method = None ->
    attempt_outcome order t st
      (Continue (attempted st1 method (paid st1) []))
| Succeeded (st1 : LoopState) (method : string) (c : MethodCfg)
    (method_id status : Z) :
    paid st = false ->
    same_but_current st st1 ->
    get (PAYMENT_METHOD_CONFIG cfg) method = Some c ->
    count_of (method_counts st) method < cap cfg c ->
    get method_id_by_code method = Some method_id ->
    get status_id_by_code "paid" = Some status ->
    attempt_outcome order t st
      (Break (attempted st1 method true
                [attempt_row order st1 t (order_total order)
                             method_id status]))
| Failed (st1 : LoopState) (method : string) (c : MethodCfg)
    (method_id status : Z) :
    paid st = false ->
    same_but_current st st1 ->
    get (PAYMENT_METHOD_CONFIG cfg) method = Some c ->
    count_of (method_counts st) method < cap cfg c ->
    get method_id_by_code method = Some method_id ->
    get status_id_by_code "failed" = Some status ->
    attempt_outcome order t st
      (Continue (attempted st1 method (paid st1)
                   [attempt_row order st1 t 0%Q method_id status])).

Lemma bind_Ok {A B : Type} (c : result A) (k : A -> result B) (b : B) :
  bind c k = Ok b -> exists a, c = Ok a /\ k a = Ok b.
Proof. destruct c; simpl; intros Hb; try discriminate. eauto. Qed.

Lemma subscript_Ok {V : Type} (d : dict string V) (k : string) (v : V) :
  subscript d k = Ok v -> get d k = Some v.
Proof. unfold subscript. destruct (get d k); congruence. Qed.

Lemma weighted_choice_key_In {K : Type} (rng rng' : rng_state)
    (weights : dict K Q) (k : K) :
  weighted_choice_key rng weights = Ok (k, rng') ->
  In k (keys weights) /\ rng' = snd (random rng).
Proof.
  intros Hk.
  destruct (weighted_choice_key_cases rng weights)
    as [[_ [msg He]]|[_ [k0 [He Hin]]]]; rewrite He in Hk.
  - discriminate.
  - inversion Hk; subst. tauto.
Qed.

Lemma weights_of_keys (ms : list string) (acc w : dict string Q) :
  weights_of cfg ms acc = Ok w ->
  forall k, In k (keys w) -> In k (keys acc) \/ In k ms.
Proof.
  revert acc. induction ms as [|m ms IH]; simpl; intros acc Hw k Hk.
  - inversion Hw; subst. now left.
  - apply bind_Ok in Hw. destruct Hw as [c [_ Hw]].
    destruct (IH _ Hw k Hk) as [Hacc|Hms]; [|tauto].
    rewrite keys_set in Hacc.
    destruct (in_dec key_eq_dec m (keys acc)); [tauto|].
    apply in_app_or in Hacc. simpl in Hacc. tauto.
Qed.

Lemma list_remove_subset (x y : string) (l : list string) :
  In x (list_remove y l) -> In x l.
Proof.
  induction l as [|z l IH]; simpl; [tauto|].
  destruct (String.eqb z y); simpl; tauto.
Qed.

Lemma alternatives_available (method m : string)
    (method_counts : dict string Z) :
  In m (alternatives cfg method method_counts) ->
  In m (available_methods_by_cap cfg method_counts).
Proof.
  unfold alternatives.
  destruct (list_mem method (available_methods_by_cap cfg method_counts));
    [apply list_remove_subset|tauto].
Qed.

Lemma available_below_cap (m : string) (method_counts : dict string Z) :
  wf (PAYMENT_METHOD_CONFIG cfg) ->
  In m (available_methods_by_cap cfg method_counts) ->
  exists c, get (PAYMENT_METHOD_CONFIG cfg) m = Some c /\
            count_of method_counts m < cap cfg c.
Proof.
  intros Hwf Hin. unfold available_methods_by_cap in Hin.
  apply in_map_iff in Hin. destruct Hin as [[m' c] [Hm Hin]].
  simpl in Hm. subst m'. apply filter_In in Hin. destruct Hin as [Hin Hlt].
  simpl in Hlt. apply Z.ltb_lt in Hlt.
  exists c. split; [now apply In_get|assumption].
Qed.

(** A method picked among the alternatives is below its cap. *)
Lemma repick_below_cap (avail : list string) (method : string)
    (method_counts : dict string Z) (rng rng' : rng_state)
    (w : dict string Q) (m : string) :
  wf (PAYMENT_METHOD_CONFIG cfg) ->
  avail = alternatives cfg method method_counts ->
  weights_of cfg avail [] = Ok w ->
  weighted_choice_key rng w = Ok (m, rng') ->
  exists c, get (PAYMENT_METHOD_CONFIG cfg) m = Some c /\
            count_of method_counts m < cap cfg c.
Proof.
  intros Hwf -> Hw Hk.
  apply weighted_choice_key_In in Hk. destruct Hk as [Hin _].
  destruct (weights_of_keys _ _ _ Hw _ Hin) as [[]|Halt].
  apply available_below_cap; [assumption|].
  eapply alternatives_available; eauto.
Qed.

Lemma same_but_current_refl (st : LoopState) : same_but_current st st.
Proof. unfold same_but_current. tauto. Qed.

Lemma same_but_current_with (st st1 : LoopState) (m : string) :
  same_but_current st st1 ->
  same_but_current st (with_current_method st1 m).
Proof. unfold same_but_current. simpl. tauto. Qed.

Lemma choose_method_ok (rng rng1 : rng_state) (st st1 : LoopState)
    (choice : option string) :
  wf (PAYMENT_METHOD_CONFIG cfg) ->
  choose_method cfg rng st = Ok (choice, st1, rng1) ->
  same_but_current st st1 /\
  forall method, choice = Some method ->
    exists c, get (PAYMENT_METHOD_CONFIG cfg) method = Some c /\
              count_of (method_counts st) method < cap cfg c.
Proof.
  intros Hwf Hc. unfold choose_method in Hc.
  apply bind_Ok in Hc. destruct Hc as [[[method st0] rng0] [Hsel Hc]].
  assert (Hsame : same_but_current st st0).
  { destruct (attempt_no st =? 0).
    - inversion Hsel; subst. apply same_but_current_refl.
    - apply bind_Ok in Hsel. destruct Hsel as [[m r0] [_ Hsel]].
      inversion Hsel; subst.
      apply same_but_current_with, same_but_current_refl. }
  clear Hsel.
  apply bind_Ok in Hc. destruct Hc as [c [Hcfg Hc]].
  apply bind_Ok in Hc. destruct Hc as [n [Hn Hc]].
  apply subscript_Ok in Hcfg, Hn.
  assert (Hcounts : method_counts st0 = method_counts st) by apply Hsame.
  destruct (cap cfg c <=? n) eqn:Ecap.
  - destruct (alternatives cfg method (method_counts st0))
      as [|a alt] eqn:Ealt.
    + inversion Hc; subst. split; [assumption|]. discriminate.
    + apply bind_Ok in Hc. destruct Hc as [w [Hw Hc]].
      apply bind_Ok in Hc. destruct Hc as [[m' rng2] [Hk Hc]].
      inversion Hc; subst. split.
      * now apply same_but_current_with.
      * intros m [= <-]. rewrite <- Hcounts.
        eapply (repick_below_cap (a :: alt) method); eauto.
  - inversion Hc; subst. split; [assumption|].
    intros m [= <-]. exists c. split; [assumption|].
    apply Z.leb_gt in Ecap. unfold count_of.
    rewrite <- Hcounts, Hn. assumption.
Qed.

(** The success draw is made before the method id is looked up: the
    generator has moved on whatever the lookup gives. *)
Lemma record_attempt_cases (order : OrderInfo) (t : datetime)
    (rng rng' : rng_state) (st1 : LoopState) (method : string) (fl : flow) :
  record_attempt cfg method_id_by_code status_id_by_code order t rng st1
                 method = Ok (fl, rng') ->
  rng' = snd (random rng) /\
  exists c, get (PAYMENT_METHOD_CONFIG cfg) method = Some c /\
  let is_success := Qltb (fst (random rng)) (get_success_rate c) in
  match get method_id_by_code method with
  | None => fl = Continue (attempted st1 method (paid st1) [])
  | Some method_id =>
      if is_success then
        exists status, get status_id_by_code "paid" = Some status /\
          fl = Break (attempted st1 method true
                        [attempt_row order st1 t (order_total order)
                                     method_id status])
      else
        exists status, get status_id_by_code "failed" = Some status /\
          fl = Continue (attempted st1 method (paid st1)
                           [attempt_row order st1 t 0%Q method_id status])
  end.
Proof.
  intros Hr. unfold record_attempt in Hr.
  apply bind_Ok in Hr. destruct Hr as [c [Hcfg Hr]].
  apply subscript_Ok in Hcfg.
  destruct (random rng) as [r rng0] eqn:Er. simpl.
  destruct (get method_id_by_code method) as [method_id|].
  - destruct (Qltb r (get_success_rate c)) eqn:Es.
    + apply bind_Ok in Hr. destruct Hr as [status [Hs Hr]].
      apply subscript_Ok in Hs. inversion Hr; subst.
      split; [reflexivity|]. exists c. split; [assumption|].
      rewrite Es. eauto.
    + apply bind_Ok in Hr. destruct Hr as [status [Hs Hr]].
      apply subscript_Ok in Hs. inversion Hr; subst.
      split; [reflexivity|]. exists c. split; [assumption|].
      rewrite Es. eauto.
  - inversion Hr; subst. split; [reflexivity|].
    exists c. split; [assumption|].
    unfold attempted. now rewrite app_nil_r.
Qed.

Lemma attempt_step_outcome (order : OrderInfo) (t : datetime)
    (rng rng' : rng_state) (st : LoopState) (fl : flow) :
  wf (PAYMENT_METHOD_CONFIG cfg) ->
  attempt_step cfg method_id_by_code status_id_by_code order t rng st =
    Ok (fl, rng') ->
  attempt_outcome order t st fl.
Proof.
  intros Hwf Hs. unfold attempt_step in Hs.
  destruct (paid st) eqn:Epaid.
  - inversion Hs; subst. now apply AlreadyPaid.
  - apply bind_Ok in Hs. destruct Hs as [[[choice st1] rng1] [Hc Hs]].
    destruct (choose_method_ok _ _ _ _ _ Hwf Hc) as [Hsame Hcap].
    destruct choice as [method|].
    + destruct (Hcap method eq_refl) as [c [Hcfg Hlt]].
      apply record_attempt_cases in Hs.
      destruct Hs as [_ [c' [Hcfg' Hs]]]. simpl in Hs.
      destruct (get method_id_by_code method) as [method_id|] eqn:Eid.
      * destruct (Qltb (fst (random rng1)) (get_success_rate c')).
        -- destruct Hs as [status [Hst ->]].
           eapply Succeeded; eauto.
        -- destruct Hs as [status [Hst ->]].
           eapply Failed; eauto.
      * subst fl. eapply Skipped; eauto.
    + inversion Hs; subst. now apply Exhausted.
Qed.

End StepFacts.

(** The five ways in which a round ends, with the facts of each. *)
Ltac outcome_cases Hout :=
  destruct Hout as [Hp|st1 Hp [Hc [Hpd [Hn Hr]]]
                   |st1 method c Hp [Hc [Hpd [Hn Hr]]] Hcfg Hlt Hid
                   |st1 method c mid status Hp [Hc [Hpd [Hn Hr]]] Hcfg Hlt Hid Hs
                   |st1 method c mid status Hp [Hc [Hpd [Hn Hr]]] Hcfg Hlt Hid Hs].

(* ------------------------------------------------------------------ *)
(** ** The tables read from the database *)

Section TableFacts.
Import PyDict Payments.

(** A dictionary turned round ([{f(c): i for i, c in d.items()}]) sends
    different keys to different values. *)
Lemma inverted_injective {K' : Type} {HK' : Key K'} (g : string -> K')
    (d : dict Z string) (a b : K') (i : Z) :
  wf d ->
  get (of_items (map (fun ic => (g (snd ic), fst ic)) d)) a = Some i ->
  get (of_items (map (fun ic => (g (snd ic), fst ic)) d)) b = Some i ->
  a = b.
Proof.
  intros Hwf Ha Hb.
  apply get_In, In_of_items, in_map_iff in Ha, Hb.
  destruct Ha as [[ia ca] [Ea Ha]], Hb as [[ib cb] [Eb Hb]].
  simpl in Ea, Eb. inversion Ea; inversion Eb; subst.
  now rewrite (wf_functional d i ca cb Hwf Ha Hb).
Qed.

Lemma method_ids_injective (db : Database) (id_to_code : dict Z string)
    (method_id_by_code : dict string Z) (m m' : string) (i : Z) :
  fetch_payment_methods db = Ok (id_to_code, method_id_by_code) ->
  get method_id_by_code m = Some i ->
  get method_id_by_code m' = Some i ->
  m = m'.
Proof.
  unfold fetch_payment_methods.
  destruct (payment_methods db) as [|row rows_]; [discriminate|].
  intros [= <- <-]. unfold swap_items.
  apply (inverted_injective (fun c => c)). apply wf_of_items.
Qed.

Lemma status_ids_injective (db : Database) (id_to_code : dict Z string)
    (status_id_by_code : dict string Z) (s s' : string) (i : Z) :
  fetch_payment_statuses db = Ok (id_to_code, status_id_by_code) ->
  get status_id_by_code s = Some i ->
  get status_id_by_code s' = Some i ->
  s = s'.
Proof.
  unfold fetch_payment_statuses.
  destruct (payment_status db) as [|row rows_]; [discriminate|].
  intros [= <- <-]. apply (inverted_injective lower). apply wf_of_items.
Qed.

End TableFacts.

(* ------------------------------------------------------------------ *)
(** ** The rows of one order *)

(** [ascending lo l]: the numbers of [l] grow strictly, from above [lo]. *)
Inductive ascending : Z -> list Z -> Prop :=
| ascending_nil (lo : Z) : ascending lo []
| ascending_cons (lo x : Z) (l : list Z) :
    lo < x -> ascending x l -> ascending lo (x :: l).

(** The numbers [1; 2; ...; m]. *)
Definition one_to (m : nat) : list Z := map Z.of_nat (seq 1 m).

Lemma ascending_snoc (lo x : Z) (l : list Z) :
  ascending lo l -> List.last l lo < x -> ascending lo (l ++ [x]).
Proof.
  intros Hasc. induction Hasc as [lo|lo y l Hlt Hasc IH]; intros Hx.
  - repeat constructor. assumption.
  - rewrite last_cons in Hx. simpl. constructor; auto.
Qed.

Lemma one_to_snoc (m : nat) : one_to (S m) = one_to m ++ [Z.of_nat (S m)].
Proof. unfold one_to. now rewrite seq_S, map_app. Qed.

Section OrderFacts.
Import PyDict PyRandom Payments.
Context {R : RandomSource}.
Variable cfg : Config.
Variable method_id_by_code : dict string Z.
Variable status_id_by_code : dict string Z.
Variable order : OrderInfo.
Hypothesis cfg_wf : wf (PAYMENT_METHOD_CONFIG cfg).

(** A row of a failed attempt of the order: nothing was paid. *)
Definition failed_row (r : Row) : Prop :=
  row_order_id r = order_id order /\
  row_amount_paid r = 0%Q /\
  get status_id_by_code "failed" = Some (row_payment_status_id r).

(** A row of a successful payment of the order: the total was paid. *)
Definition paid_row (r : Row) : Prop :=
  row_order_id r = order_id order /\
  row_amount_paid r = order_total order /\
  get status_id_by_code "paid" = Some (row_payment_status_id r).

(** The number of rows of [l] with the method id [mid]. *)
Definition rows_with_method (mid : Z) (l : list Row) : nat :=
  List.length (filter (fun r => row_payment_method_id r =? mid) l).

Definition flow_state (fl : flow) : LoopState :=
  match fl with
  | Continue st => st
  | Break st => st
  end.

(** Whatever every round preserves holds when the loop is left. *)
Lemma attempt_loop_invariant (P : LoopState -> Prop) :
  (forall t st fl,
     P st ->
     attempt_outcome cfg method_id_by_code status_id_by_code order t st fl ->
     P (flow_state fl)) ->
  forall attempt_times rng st st' rng',
    P st ->
    attempt_loop cfg method_id_by_code status_id_by_code order
                 attempt_times rng st = Ok (st', rng') ->
    P st'.
Proof.
  intros Hstep attempt_times.
  induction attempt_times as [|t later IH]; simpl; intros rng st st' rng' HP Hl.
  - inversion Hl; subst. assumption.
  - apply bind_Ok in Hl. destruct Hl as [[fl rng1] [Hs Hl]].
    apply attempt_step_outcome in Hs; [|assumption].
    specialize (Hstep t st fl HP Hs).
    destruct fl as [st1|st1]; simpl in Hstep.
    + exact (IH _ _ _ _ Hstep Hl).
    + inversion Hl; subst. assumption.
Qed.

(** *** The shape of the rows: failures, then at most one payment *)

Definition shape_inv (rows0 : list Row) (st : LoopState) : Prop :=
  exists failures tail,
    rows st = rows0 ++ failures ++ tail /\
    Forall failed_row failures /\
    if paid st then exists r, tail = [r] /\ paid_row r else tail = [].

Lemma shape_inv_step (rows0 : list Row) (t : datetime) (st : LoopState)
    (fl : flow) :
  shape_inv rows0 st ->
  attempt_outcome cfg method_id_by_code status_id_by_code order t st fl ->
  shape_inv rows0 (flow_state fl).
Proof.
  intros [failures [tail [Hrows [Hfail Htail]]]] Hout.
  outcome_cases Hout;
    unfold shape_inv; simpl.
  - exists failures, tail. tauto.
  - exists failures, tail. rewrite Hr, Hpd. tauto.
  - exists failures, tail. rewrite app_nil_r, Hr, Hpd. tauto.
  - rewrite Hp in Htail. subst tail. rewrite app_nil_r in Hrows.
    exists failures, [attempt_row order st1 t (order_total order) mid status].
    rewrite Hr, Hrows, <- app_assoc. repeat split; try assumption.
    eexists. split; [reflexivity|]. unfold paid_row. simpl. tauto.
  - rewrite Hp in Htail. subst tail. rewrite app_nil_r in Hrows.
    exists (failures ++ [attempt_row order st1 t 0%Q mid status]), [].
    rewrite Hr, Hrows, Hpd, Hp, app_nil_r, <- app_assoc.
    split; [reflexivity|]. split; [|reflexivity].
    apply Forall_app. split; [assumption|].
    constructor; [|constructor]. unfold failed_row. simpl. tauto.
Qed.

(** The rows that [forced_resolution] leaves. *)
Lemma forced_resolution_cases (attempt_times : list datetime)
    (st st' : LoopState) :
  forced_resolution method_id_by_code status_id_by_code order
                    attempt_times st = Ok st' ->
  (st' = st /\ (paid st = true \/ order_status order = 5)) \/
  (paid st = false /\ order_status order <> 5 /\
   exists method_id status,
     get status_id_by_code "paid" = Some status /\
     (get method_id_by_code (current_method st) = Some method_id \/
      get method_id_by_code (current_method st) = None) /\
     rows st' = rows st ++
       [attempt_row order st
          (match rev attempt_times with
           | last :: _ => last + 1
           | [] => order_date order + 1
           end)
          (order_total order) method_id status] /\
     attempt_no st' = attempt_no st + 1 /\
     method_counts st' = method_counts st /\
     paid st' = false).
Proof.
  unfold forced_resolution. intros Hf.
  destruct (paid st) eqn:Ep.
  - inversion Hf. left. tauto.
  - destruct (order_status order =? 5) eqn:E5; simpl in Hf.
    + inversion Hf. apply Z.eqb_eq in E5. left. tauto.
    + apply Z.eqb_neq in E5. right. split; [reflexivity|]. split; [assumption|].
      apply bind_Ok in Hf. destruct Hf as [method_id [Hid Hf]].
      apply bind_Ok in Hf. destruct Hf as [status [Hs Hf]].
      apply subscript_Ok in Hs. inversion Hf; subst. simpl.
      exists method_id, status. repeat split; try assumption.
      destruct (get method_id_by_code (current_method st)) as [i|].
      * inversion Hid; subst. now left.
      * now right.
Qed.

End OrderFacts.

(* ------------------------------------------------------------------ *)
(** ** From one order to the whole run *)

Section RunFacts.
Import PyDict PyRandom Payments.
Context {R : RandomSource}.
Variable cfg : Config.
Variable method_id_by_code : dict string Z.
Variable status_id_by_code : dict string Z.
Hypothesis cfg_wf : wf (PAYMENT_METHOD_CONFIG cfg).

(** The locals of an order before its first attempt. *)
Definition initial_state (current : string) (rows0 : list Row) : LoopState :=
  {| current_method := current;
     method_counts :=
       of_items (map (fun m => (m, 0)) (keys (PAYMENT_METHOD_CONFIG cfg)));
     paid := false; attempt_no := 0; rows := rows0 |}.

(** [simulate_order] is the attempt loop followed by the forced
    resolution. *)
Lemma simulate_order_stages (fuel : nat) (method_weights : dict string Q)
    (rows0 rows1 : list Row) (rng rng' : rng_state) (order : OrderInfo) :
  simulate_order cfg method_id_by_code status_id_by_code fuel method_weights
                 rows0 rng order = Ok (rows1, rng') ->
  exists attempt_times current rng3 st st',
    attempt_loop cfg method_id_by_code status_id_by_code order attempt_times
                 rng3 (initial_state current rows0) = Ok (st, rng') /\
    forced_resolution method_id_by_code status_id_by_code order
                      attempt_times st = Ok st' /\
    rows1 = rows st'.
Proof.
  unfold simulate_order. intros Hs.
  apply bind_Ok in Hs. destruct Hs as [[planned rng1] [_ Hs]].
  apply bind_Ok in Hs. destruct Hs as [[attempt_times rng2] [_ Hs]].
  apply bind_Ok in Hs. destruct Hs as [[current rng3] [_ Hs]].
  apply bind_Ok in Hs. destruct Hs as [[st rng4] [Hloop Hs]].
  apply bind_Ok in Hs. destruct Hs as [st' [Hforce Hs]].
  inversion Hs; subst.
  exists attempt_times, current, rng3, st, st'. tauto.
Qed.

(** The rows of an order: failed attempts, then at most one payment,
    which an order that is not cancelled always has. *)
Definition order_shape (order : OrderInfo) (emitted : list Row) : Prop :=
  exists failures tail,
    emitted = failures ++ tail /\
    Forall (failed_row status_id_by_code order) failures /\
    (tail = [] \/ exists r, tail = [r] /\ paid_row status_id_by_code order r) /\
    (order_status order <> 5 -> tail <> []).

Lemma simulate_order_shape (fuel : nat) (method_weights : dict string Q)
    (rows0 rows1 : list Row) (rng rng' : rng_state) (order : OrderInfo) :
  simulate_order cfg method_id_by_code status_id_by_code fuel method_weights
                 rows0 rng order = Ok (rows1, rng') ->
  exists emitted, rows1 = rows0 ++ emitted /\ order_shape order emitted.
Proof.
  intros Hs. apply simulate_order_stages in Hs.
  destruct Hs as [attempt_times [current [rng3 [st [st' [Hl [Hf ->]]]]]]].
  assert (Hinv : shape_inv status_id_by_code order rows0 st).
  { eapply (attempt_loop_invariant cfg method_id_by_code status_id_by_code
              order cfg_wf (shape_inv status_id_by_code order rows0));
      [| |exact Hl].
    - intros t s fl. apply shape_inv_step.
    - exists [], []. simpl. rewrite app_nil_r. repeat split. constructor. }
  destruct Hinv as [failures [tail [Hrows [Hfail Htail]]]].
  apply forced_resolution_cases in Hf.
  destruct Hf as [[-> Hwhy]|[Hp [H5 [mid [status [Hs [_ [Hr _]]]]]]]].
  - exists (failures ++ tail). split; [assumption|].
    exists failures, tail. repeat split; try assumption.
    + destruct (paid st); [right; assumption|left; assumption].
    + intros Hn5. destruct Hwhy as [Hp|H5]; [|contradiction].
      rewrite Hp in Htail. destruct Htail as [r [-> _]]. discriminate.
  - rewrite Hp in Htail. subst tail. rewrite app_nil_r in Hrows.
    eexists. split; [rewrite Hr, Hrows, <- app_assoc; reflexivity|].
    eexists failures, [_]. repeat split; try assumption.
    + right. eexists. split; [reflexivity|].
      unfold paid_row. simpl. tauto.
    + discriminate.
Qed.

(** What holds of the rows that each order appends holds, order by
    order, of the rows of the run. *)
Lemma generate_rows_per_order (P : OrderInfo -> list Row -> Prop)
    (fuel : nat) (method_weights : dict string Q) :
  (forall rows0 rows1 rng rng' order,
     simulate_order cfg method_id_by_code status_id_by_code fuel
                    method_weights rows0 rng order = Ok (rows1, rng') ->
     exists emitted, rows1 = rows0 ++ emitted /\ P order emitted) ->
  forall orders rows0 rows rng rng',
    generate_rows cfg method_id_by_code status_id_by_code fuel method_weights
                  rows0 rng orders = Ok (rows, rng') ->
    exists per_order,
      rows = rows0 ++ List.concat per_order /\ Forall2 P orders per_order.
Proof.
  intros Hone orders.
  induction orders as [|order orders IH]; simpl; intros rows0 rows rng rng' Hg.
  - inversion Hg; subst. exists []. simpl. rewrite app_nil_r.
    split; [reflexivity|constructor].
  - apply bind_Ok in Hg. destruct Hg as [[rows1 rng1] [Hs Hg]].
    destruct (Hone _ _ _ _ _ Hs) as [emitted [-> HP]].
    destruct (IH _ _ _ _ Hg) as [per_order [-> Hall]].
    exists (emitted :: per_order). simpl. rewrite <- app_assoc.
    split; [reflexivity|]. constructor; assumption.
Qed.

End RunFacts.

(* ------------------------------------------------------------------ *)
(** ** The rows of an order among the rows of a run *)

Section OrderRows.
Import PyDict PyRandom Payments.

(** The rows of [rows] that carry the id of [order]. *)
Definition rows_of_order (order : OrderInfo) (rows : list Row) : list Row :=
  filter (fun r => row_order_id r =? order_id order) rows.

Lemma rows_of_order_own (order : OrderInfo) (l : list Row) :
  Forall (fun r => row_order_id r = order_id order) l ->
  rows_of_order order l = l.
Proof.
  unfold rows_of_order. induction 1 as [|r l Hr Hl IH]; simpl;
    [reflexivity|].
  rewrite Hr, Z.eqb_refl. now f_equal.
Qed.

Lemma rows_of_order_other (order : OrderInfo) (l : list Row) :
  Forall (fun r => row_order_id r <> order_id order) l ->
  rows_of_order order l = [].
Proof.
  unfold rows_of_order. induction 1 as [|r l Hr Hl IH]; simpl;
    [reflexivity|].
  apply Z.eqb_neq in Hr. now rewrite Hr.
Qed.

Lemma rows_of_order_app (order : OrderInfo) (l1 l2 : list Row) :
  rows_of_order order (l1 ++ l2) =
  rows_of_order order l1 ++ rows_of_order order l2.
Proof. apply filter_app. Qed.

(** The ids carried by the pieces of a split by order. *)
Lemma split_ids (orders : list OrderInfo) (per_order : list (list Row)) :
  Forall2 (fun order emitted =>
             Forall (fun r => row_order_id r = order_id order) emitted)
          orders per_order ->
  Forall (fun r => In (row_order_id r) (map order_id orders))
         (List.concat per_order).
Proof.
  induction 1 as [|order emitted orders per_order Hown Hall IH]; simpl;
    [constructor|].
  apply Forall_app. split.
  - eapply Forall_impl; [|exact Hown]. intros r Hr. now left.
  - eapply Forall_impl; [|exact IH]. intros r Hr. now right.
Qed.

(** When the orders have distinct ids, a split of the rows in which
    every piece carries the id of its order is the split by id. *)
Lemma split_is_filter (orders : list OrderInfo)
    (per_order : list (list Row)) :
  Forall2 (fun order emitted =>
             Forall (fun r => row_order_id r = order_id order) emitted)
          orders per_order ->
  NoDup (map order_id orders) ->
  forall pre,
    Forall (fun r => ~ In (row_order_id r) (map order_id orders)) pre ->
    Forall2 (fun order emitted =>
               emitted = rows_of_order order (pre ++ List.concat per_order))
            orders per_order.
Proof.
  induction 1 as [|order emitted orders per_order Hown Hall IH];
    intros Hnd pre Hpre; [constructor|].
  cbn [map] in Hnd, Hpre. inversion Hnd as [|? ? Hnot Hnd']; subst.
  cbn [List.concat]. constructor.
  - rewrite !rows_of_order_app.
    rewrite (rows_of_order_other order pre), (rows_of_order_own order emitted),
      (rows_of_order_other order (List.concat per_order)).
    + now rewrite app_nil_r.
    + eapply Forall_impl; [|exact (split_ids _ _ Hall)].
      intros r Hin Heq. apply Hnot. now rewrite <- Heq.
    + exact Hown.
    + eapply Forall_impl; [|exact Hpre].
      intros r Hr Heq. apply Hr. left. now symmetry.
  - rewrite app_assoc. apply IH; [assumption|].
    apply Forall_app. split.
    + eapply Forall_impl; [|exact Hpre]. intros r Hr Hin. apply Hr. now right.
    + eapply Forall_impl; [|exact Hown].
      intros r Hr Hin. apply Hnot. now rewrite <- Hr.
Qed.

Context {R : RandomSource}.
Variable cfg : Config.
Variable method_id_by_code : dict string Z.
Variable status_id_by_code : dict string Z.
Hypothesis cfg_wf : wf (PAYMENT_METHOD_CONFIG cfg).

(** Every row that an order appends carries the id of the order. *)
Lemma simulate_order_ids (fuel : nat) (method_weights : dict string Q)
    (rows0 rows1 : list Row) (rng rng' : rng_state) (order : OrderInfo) :
  simulate_order cfg method_id_by_code status_id_by_code fuel method_weights
                 rows0 rng order = Ok (rows1, rng') ->
  exists emitted,
    rows1 = rows0 ++ emitted /\
    Forall (fun r => row_order_id r = order_id order) emitted.
Proof.
  intros Hs.
  destruct (simulate_order_shape cfg _ _ cfg_wf _ _ _ _ _ _ _ Hs)
    as [emitted [-> [failures [tail [-> [Hfail [Htail _]]]]]]].
  eexists. split; [reflexivity|]. apply Forall_app. split.
  - eapply Forall_impl; [|exact Hfail]. intros r Hr. apply Hr.
  - destruct Htail as [->|[r [-> Hr]]]; repeat constructor. apply Hr.
Qed.

(** What holds of the rows that each order appends holds of the rows of
    the run, split by order: every piece carries the id of its order,
    and with distinct order ids the pieces are the rows of the run
    filtered by order id. *)
Lemma generate_rows_by_order (P : OrderInfo -> list Row -> Prop)
    (fuel : nat) (method_weights : dict string Q) :
  (forall rows0 rows1 rng rng' order,
     simulate_order cfg method_id_by_code status_id_by_code fuel
                    method_weights rows0 rng order = Ok (rows1, rng') ->
     exists emitted, rows1 = rows0 ++ emitted /\ P order emitted) ->
  forall orders rows0 rows rng rng',
    generate_rows cfg method_id_by_code status_id_by_code fuel method_weights
                  rows0 rng orders = Ok (rows, rng') ->
    exists per_order,
      rows = rows0 ++ List.concat per_order /\
      Forall2
        (fun order emitted =>
           Forall (fun r => row_order_id r = order_id order) emitted /\
           P order emitted)
        orders per_order /\
      (NoDup (map order_id orders) ->
       Forall2
         (fun order emitted =>
            emitted = rows_of_order order (List.concat per_order))
         orders per_order).
Proof.
  intros Hone orders rows0 rows rng rng' Hgen.
  assert (Hboth : forall r0 r1 g g' order,
            simulate_order cfg method_id_by_code status_id_by_code fuel
                           method_weights r0 g order = Ok (r1, g') ->
            exists emitted,
              r1 = r0 ++ emitted /\
              (Forall (fun r => row_order_id r = order_id order) emitted /\
               P order emitted)).
  { intros r0 r1 g g' order Hs.
    destruct (Hone _ _ _ _ _ Hs) as [emitted [He HP]].
    destruct (simulate_order_ids _ _ _ _ _ _ _ Hs) as [emitted' [He' Hid]].
    assert (emitted' = emitted)
      by (apply (app_inv_head r0); congruence).
    subst emitted'. exists emitted. tauto. }
  destruct (generate_rows_per_order cfg method_id_by_code status_id_by_code
              (fun order emitted =>
                 Forall (fun r => row_order_id r = order_id order) emitted /\
                 P order emitted)
              fuel method_weights Hboth orders rows0 rows rng rng' Hgen)
    as [per_order [Hrows Hall]].
  exists per_order. split; [exact Hrows|]. split; [exact Hall|].
  intros Hnd.
  apply (split_is_filter orders per_order) with (pre := []);
    [|exact Hnd|constructor].
  eapply Forall2_impl; [|exact Hall]. intros o e He. apply He.
Qed.

End OrderRows.

(* ------------------------------------------------------------------ *)
(** ** Terminal resolution of an order *)

Section ResolutionProperties.
Import PyDict PyRandom Payments.

(** C2 fails as stated: with every draw at [0] the first attempt of the
    cancelled order succeeds, and its only row pays the total with the
    status [paid]. *)
Lemma cancelled_order_paid :
  order_status Sample.cancelled = 5 /\
  get (Sample.status_ids Sample.db) "paid" = Some 2 /\
  get (Sample.status_ids Sample.db) "failed" = Some 3 /\
  generate_rows (R := scripted []) script_config
    (Sample.method_ids Sample.db) (Sample.status_ids Sample.db) 10
    (build_method_weights script_config) []
    (@Random (scripted []) 42) [Sample.cancelled] =
  Ok ([{| row_order_id := 102; row_attempt_no := 1;
          row_payment_date := 5001; row_amount_paid := 50%Q;
          row_payment_method_id := 1; row_payment_status_id := 2 |}],
      ([], 1%nat)).
Proof. repeat split; vm_compute; reflexivity. Qed.

End ResolutionProperties.

(* ------------------------------------------------------------------ *)
(** ** Attempt numbers *)

Section NumberFacts.
Import PyDict PyRandom Payments.
Context {R : RandomSource}.
Variable cfg : Config.
Variable method_id_by_code : dict string Z.
Variable status_id_by_code : dict string Z.
Variable order : OrderInfo.
Hypothesis cfg_wf : wf (PAYMENT_METHOD_CONFIG cfg).

(** Every configured method has an id in [payment_methods]. *)
Definition all_registered : Prop :=
  forall m c,
    get (PAYMENT_METHOD_CONFIG cfg) m = Some c ->
    get method_id_by_code m <> None.

(** The numbers of the rows appended so far grow strictly and stay
    within [1 .. attempt_no]; they are [1 .. attempt_no] when no attempt
    can be skipped. *)
Definition numbering_inv (rows0 : list Row) (st : LoopState) : Prop :=
  exists emitted,
    rows st = rows0 ++ emitted /\
    ascending 0 (map row_attempt_no emitted) /\
    List.last (map row_attempt_no emitted) 0 <= attempt_no st /\
    (all_registered ->
     map row_attempt_no emitted = one_to (List.length emitted) /\
     attempt_no st = Z.of_nat (List.length emitted)).

Lemma numbering_inv_append (rows0 : list Row) (st st' : LoopState) (r : Row) :
  numbering_inv rows0 st ->
  rows st' = rows st ++ [r] ->
  row_attempt_no r = attempt_no st + 1 ->
  attempt_no st' = attempt_no st + 1 ->
  numbering_inv rows0 st'.
Proof.
  intros [emitted [Hrows [Hasc [Hlast Hdense]]]] Hr Hno Hst.
  exists (emitted ++ [r]). rewrite Hr, Hrows, <- app_assoc, map_app. simpl.
  split; [reflexivity|]. split; [|split].
  - apply ascending_snoc; [assumption|lia].
  - rewrite last_last. lia.
  - intros Hreg. destruct (Hdense Hreg) as [Hmap Hlen].
    rewrite length_app, Nat.add_1_r, one_to_snoc, Hmap. simpl List.length.
    split; [f_equal; f_equal; lia|lia].
Qed.

Lemma numbering_inv_step (rows0 : list Row) (t : datetime) (st : LoopState)
    (fl : flow) :
  numbering_inv rows0 st ->
  attempt_outcome cfg method_id_by_code status_id_by_code order t st fl ->
  numbering_inv rows0 (flow_state fl).
Proof.
  intros Hinv Hout.
  outcome_cases Hout;
    simpl.
  - assumption.
  - destruct Hinv as [emitted Hinv]. exists emitted. now rewrite Hr, Hn.
  - destruct Hinv as [emitted [Hrows [Hasc [Hlast Hdense]]]].
    exists emitted. simpl. rewrite app_nil_r, Hr, Hn.
    split; [assumption|]. split; [assumption|]. split; [lia|].
    intros Hreg. now elim (Hreg _ _ Hcfg).
  - apply (numbering_inv_append rows0 st _
             (attempt_row order st1 t (order_total order) mid status) Hinv);
      simpl; rewrite ?Hr, ?Hn; reflexivity.
  - apply (numbering_inv_append rows0 st _
             (attempt_row order st1 t 0%Q mid status) Hinv);
      simpl; rewrite ?Hr, ?Hn; reflexivity.
Qed.

Lemma simulate_order_numbering (fuel : nat) (method_weights : dict string Q)
    (rows0 rows1 : list Row) (rng rng' : rng_state) :
  simulate_order cfg method_id_by_code status_id_by_code fuel method_weights
                 rows0 rng order = Ok (rows1, rng') ->
  exists emitted,
    rows1 = rows0 ++ emitted /\
    ascending 0 (map row_attempt_no emitted) /\
    (all_registered ->
     map row_attempt_no emitted = one_to (List.length emitted)).
Proof.
  intros Hs. apply simulate_order_stages in Hs.
  destruct Hs as [attempt_times [current [rng3 [st [st' [Hl [Hf ->]]]]]]].
  assert (Hinv : numbering_inv rows0 st).
  { eapply (attempt_loop_invariant cfg method_id_by_code status_id_by_code
              order cfg_wf (numbering_inv rows0)); [| |exact Hl].
    - intros t s fl. apply numbering_inv_step.
    - exists []. simpl. rewrite app_nil_r.
      repeat split; try reflexivity; try lia. constructor. }
  assert (Hinv' : numbering_inv rows0 st').
  { apply forced_resolution_cases in Hf.
    destruct Hf as [[-> _]|[_ [_ [mid [status [_ [_ [Hr [Hn _]]]]]]]]];
      [assumption|].
    eapply numbering_inv_append; eauto. }
  destruct Hinv' as [emitted [Hrows [Hasc [_ Hdense]]]].
  exists emitted. repeat split; try assumption.
  intros Hreg. apply (Hdense Hreg).
Qed.

End NumberFacts.

Section NumberProperties.
Import PyDict PyRandom Payments.

(** C4 fails as stated: [card] has no id, the only attempt of the order
    is skipped and keeps the number 1, and the one row of the order, the
    forced payment, has the number 2. *)
Lemma attempt_number_gap :
  get (Sample.method_ids Sample.db_without_card) "card" = None /\
  generate_rows (R := scripted []) script_config
    (Sample.method_ids Sample.db_without_card)
    (Sample.status_ids Sample.db_without_card) 10
    (build_method_weights script_config) []
    (@Random (scripted []) 42) [Sample.delivered] =
  Ok ([{| row_order_id := 101; row_attempt_no := 2;
          row_payment_date := 1002; row_amount_paid := 100%Q;
          row_payment_method_id := 2; row_payment_status_id := 2 |}],
      ([], 1%nat)) /\
  [2] <> one_to 1.
Proof. repeat split; try (vm_compute; reflexivity). discriminate. Qed.

End NumberProperties.

(* ------------------------------------------------------------------ *)
(** ** Per-method caps *)

Section CapFacts.
Import PyDict PyRandom Payments.
Context {R : RandomSource}.
Variable cfg : Config.
Variable method_id_by_code : dict string Z.
Variable status_id_by_code : dict string Z.
Variable order : OrderInfo.
Hypothesis cfg_wf : wf (PAYMENT_METHOD_CONFIG cfg).

(** No counter is above the cap of its method. *)
Definition cap_inv (st : LoopState) : Prop :=
  forall m c,
    get (PAYMENT_METHOD_CONFIG cfg) m = Some c ->
    count_of (method_counts st) m <= cap cfg c.

(** Different methods have different ids. *)
Definition ids_injective : Prop :=
  forall m m' i,
    get method_id_by_code m = Some i ->
    get method_id_by_code m' = Some i ->
    m = m'.

(** The rows appended so far with the id of a method are no more than
    the counter of the method. *)
Definition counted_inv (rows0 : list Row) (st : LoopState) : Prop :=
  exists emitted,
    rows st = rows0 ++ emitted /\
    forall m mid,
      get method_id_by_code m = Some mid ->
      Z.of_nat (rows_with_method mid emitted) <=
      count_of (method_counts st) m.

Lemma count_of_set (counts : dict string Z) (method m : string) (n : Z) :
  count_of (set counts method n) m =
  if String.eqb method m then n else count_of counts m.
Proof.
  unfold count_of. destruct (String.eqb method m) eqn:E.
  - apply String.eqb_eq in E. subst. now rewrite get_set_same.
  - apply String.eqb_neq in E. now rewrite get_set_other.
Qed.

Lemma cap_inv_attempted (st st1 : LoopState) (method : string)
    (c : MethodCfg) (is_paid : bool) (new_rows : list Row) :
  cap_inv st ->
  same_but_current st st1 ->
  get (PAYMENT_METHOD_CONFIG cfg) method = Some c ->
  count_of (method_counts st) method < cap cfg c ->
  cap_inv (attempted st1 method is_paid new_rows).
Proof.
  intros Hinv [Hc _] Hcfg Hlt m c' Hm. simpl.
  rewrite count_of_set, Hc.
  destruct (String.eqb method m) eqn:E.
  - apply String.eqb_eq in E. subst m.
    assert (c' = c) by congruence. subst c'. lia.
  - now apply Hinv.
Qed.

Lemma cap_inv_step (t : datetime) (st : LoopState) (fl : flow) :
  cap_inv st ->
  attempt_outcome cfg method_id_by_code status_id_by_code order t st fl ->
  cap_inv (flow_state fl).
Proof.
  intros Hinv Hout.
  destruct Hout as [Hp|st1 Hp Hsame
                   |st1 method c Hp Hsame Hcfg Hlt Hid
                   |st1 method c mid status Hp Hsame Hcfg Hlt Hid Hs
                   |st1 method c mid status Hp Hsame Hcfg Hlt Hid Hs];
    simpl; try (eapply cap_inv_attempted; eassumption).
  - assumption.
  - intros m c Hm. destruct Hsame as [-> _]. now apply Hinv.
Qed.

Lemma rows_with_method_app (mid : Z) (l1 l2 : list Row) :
  rows_with_method mid (l1 ++ l2) =
  (rows_with_method mid l1 + rows_with_method mid l2)%nat.
Proof. unfold rows_with_method. now rewrite filter_app, length_app. Qed.

Lemma counted_inv_attempted (rows0 : list Row) (st st1 : LoopState)
    (method : string) (is_paid : bool) (new_rows : list Row) :
  ids_injective ->
  counted_inv rows0 st ->
  same_but_current st st1 ->
  (new_rows = [] \/
   exists r, new_rows = [r] /\
     get method_id_by_code method = Some (row_payment_method_id r)) ->
  counted_inv rows0 (attempted st1 method is_paid new_rows).
Proof.
  intros Hinj [emitted [Hrows Hcount]] [Hc [_ [_ Hr]]] Hnew.
  exists (emitted ++ new_rows). simpl.
  rewrite Hr, Hrows, <- app_assoc. split; [reflexivity|].
  intros m mid Hm. specialize (Hcount m mid Hm).
  rewrite count_of_set, Hc, rows_with_method_app.
  destruct Hnew as [->|[r [-> Hid]]].
  - unfold rows_with_method at 2. simpl.
    destruct (String.eqb method m) eqn:E; [|lia].
    apply String.eqb_eq in E. subst. lia.
  - unfold rows_with_method at 2. simpl.
    destruct (row_payment_method_id r =? mid) eqn:Eid; simpl.
    + apply Z.eqb_eq in Eid. subst mid.
      rewrite (Hinj _ _ _ Hid Hm), String.eqb_refl. lia.
    + destruct (String.eqb method m) eqn:E; [|lia].
      apply String.eqb_eq in E. subst. lia.
Qed.

Lemma counted_inv_step (rows0 : list Row) (t : datetime) (st : LoopState)
    (fl : flow) :
  ids_injective ->
  counted_inv rows0 st ->
  attempt_outcome cfg method_id_by_code status_id_by_code order t st fl ->
  counted_inv rows0 (flow_state fl).
Proof.
  intros Hinj Hinv Hout.
  destruct Hout as [Hp|st1 Hp Hsame
                   |st1 method c Hp Hsame Hcfg Hlt Hid
                   |st1 method c mid status Hp Hsame Hcfg Hlt Hid Hs
                   |st1 method c mid status Hp Hsame Hcfg Hlt Hid Hs];
    simpl.
  - assumption.
  - destruct Hinv as [emitted [Hrows Hcount]]. exists emitted.
    destruct Hsame as [-> [_ [_ ->]]]. tauto.
  - apply (counted_inv_attempted rows0 st); auto.
  - apply (counted_inv_attempted rows0 st); auto.
    right. eexists. split; [reflexivity|]. exact Hid.
  - apply (counted_inv_attempted rows0 st); auto.
    right. eexists. split; [reflexivity|]. exact Hid.
Qed.

Lemma initial_counts_zero (m : string) (current : string)
    (rows0 : list Row) :
  count_of (method_counts (initial_state cfg current rows0)) m = 0.
Proof.
  unfold count_of, initial_state. simpl.
  destruct (get _ m) as [n|] eqn:E; [|reflexivity].
  apply get_In, In_of_items, in_map_iff in E.
  destruct E as [m' [E _]]. now inversion E.
Qed.

(** The rows of an order are the rows of its attempt loop, in which no
    method goes over its cap, and at most one forced payment. *)
Lemma simulate_order_caps (fuel : nat) (method_weights : dict string Q)
    (rows0 rows1 : list Row) (rng rng' : rng_state) :
  ids_injective ->
  (forall m c, get (PAYMENT_METHOD_CONFIG cfg) m = Some c -> 0 <= cap cfg c) ->
  simulate_order cfg method_id_by_code status_id_by_code fuel method_weights
                 rows0 rng order = Ok (rows1, rng') ->
  exists attempts forced,
    rows1 = rows0 ++ attempts ++ forced /\
    (List.length forced <= 1)%nat /\
    forall m c mid,
      get (PAYMENT_METHOD_CONFIG cfg) m = Some c ->
      get method_id_by_code m = Some mid ->
      Z.of_nat (rows_with_method mid attempts) <= cap cfg c /\
      Z.of_nat (rows_with_method mid (attempts ++ forced)) <= cap cfg c + 1.
Proof.
  intros Hinj Hcaps Hs. apply simulate_order_stages in Hs.
  destruct Hs as [attempt_times [current [rng3 [st [st' [Hl [Hf ->]]]]]]].
  set (P := fun s => cap_inv s /\ counted_inv rows0 s).
  assert (Hstep : forall t s fl,
            P s ->
            attempt_outcome cfg method_id_by_code status_id_by_code order
                            t s fl ->
            P (flow_state fl)).
  { intros t s fl [H1 H2] Hout. split.
    - eapply cap_inv_step; eauto.
    - eapply counted_inv_step; eauto. }
  assert (Hinit : P (initial_state cfg current rows0)).
  { split.
    - intros m c Hm.
      pose proof (initial_counts_zero m current rows0) as Hzero.
      specialize (Hcaps m c Hm). lia.
    - exists []. split; [simpl; now rewrite app_nil_r|].
      intros m mid _.
      pose proof (initial_counts_zero m current rows0) as Hzero.
      unfold rows_with_method. simpl List.length. lia. }
  pose proof (attempt_loop_invariant cfg method_id_by_code status_id_by_code
                order cfg_wf P Hstep _ _ _ _ _ Hinit Hl) as Hinv.
  destruct Hinv as [Hcap [attempts [Hrows Hcount]]].
  assert (Hforced : exists forced,
            rows st' = rows st ++ forced /\ (List.length forced <= 1)%nat).
  { apply forced_resolution_cases in Hf.
    destruct Hf as [[-> _]|[_ [_ [mid [status [_ [_ [Hr _]]]]]]]].
    - exists []. rewrite app_nil_r. simpl. split; [reflexivity|lia].
    - eexists. split; [exact Hr|]. simpl. lia. }
  destruct Hforced as [forced [Hr Hlen]].
  exists attempts, forced. rewrite Hr, Hrows, <- app_assoc.
  split; [reflexivity|]. split; [assumption|].
  intros m c mid Hm Hid.
  specialize (Hcap m c Hm). specialize (Hcount m mid Hid).
  rewrite rows_with_method_app.
  assert (rows_with_method mid forced <= List.length forced)%nat
    by apply filter_length_le.
  lia.
Qed.

End CapFacts.

Section CapProperties.
Import PyDict PyRandom Payments.

(** The caps of the constants of the script are 3, 3, 3 and 2. *)
Lemma script_caps_nonneg (m : string) (c : MethodCfg) :
  get (PAYMENT_METHOD_CONFIG script_config) m = Some c ->
  0 <= cap script_config c.
Proof.
  intros Hm. apply get_In in Hm. vm_compute in Hm.
  destruct Hm as [Hm|[Hm|[Hm|[Hm|[]]]]]; inversion Hm; subst;
    vm_compute; discriminate.
Qed.

(** C5 fails as stated when the forced payment counts as an attempt:
    three attempts by card fail, which is the cap of [card], and the
    forced payment is a fourth row by card. *)
Lemma forced_payment_over_cap :
  (exists c, get (PAYMENT_METHOD_CONFIG script_config) "card" = Some c /\
             cap script_config c = 3) /\
  get (Sample.method_ids Sample.db) "card" = Some 1 /\
  exists rows rng',
    generate_rows (R := scripted [0.8; 0; 0.9; 0; 0.9; 0; 0.9]%Q)
      script_config (Sample.method_ids Sample.db)
      (Sample.status_ids Sample.db) 10
      (build_method_weights script_config) []
      (@Random (scripted [0.8; 0; 0.9; 0; 0.9; 0; 0.9]%Q) 42)
      [Sample.delivered] = Ok (rows, rng') /\
    map row_attempt_no rows = [1; 2; 3; 4] /\
    map row_payment_status_id rows = [3; 3; 3; 2] /\
    rows_with_method 1 rows = 4%nat.
Proof.
  split; [|split].
  - eexists. split; [vm_compute; reflexivity|vm_compute; reflexivity].
  - vm_compute. reflexivity.
  - eexists. eexists. split; [vm_compute; reflexivity|].
    repeat split; vm_compute; reflexivity.
Qed.

End CapProperties.

(* ------------------------------------------------------------------ *)
(** ** Attempts whose method has no id *)

Section SkipFacts.
Import PyDict PyRandom Payments.
Context {R : RandomSource}.
Variable cfg : Config.
Variable method_id_by_code : dict string Z.
Variable status_id_by_code : dict string Z.
Variable order : OrderInfo.
Hypothesis cfg_wf : wf (PAYMENT_METHOD_CONFIG cfg).

(** No configured method has an id in [payment_methods]. *)
Definition none_registered : Prop :=
  forall m c,
    get (PAYMENT_METHOD_CONFIG cfg) m = Some c ->
    get method_id_by_code m = None.

(** The time of the forced payment. *)
Definition t_force (attempt_times : list datetime) : datetime :=
  match rev attempt_times with
  | last :: _ => last + 1
  | [] => order_date order + 1
  end.

Lemma record_attempt_skips (t : datetime) (rng : rng_state)
    (st : LoopState) (method : string) (c : MethodCfg) :
  get (PAYMENT_METHOD_CONFIG cfg) method = Some c ->
  get method_id_by_code method = None ->
  record_attempt cfg method_id_by_code status_id_by_code order t rng st
                 method =
    Ok (Continue {| current_method := current_method st;
                    method_counts :=
                      set (method_counts st) method
                          (count_of (method_counts st) method + 1);
                    paid := paid st;
                    attempt_no := attempt_no st + 1;
                    rows := rows st |},
        snd (random rng)).
Proof.
  intros Hcfg Hid. unfold record_attempt, subscript.
  rewrite Hcfg. simpl. destruct (random rng) as [r rng']. now rewrite Hid.
Qed.

Lemma forced_resolution_pays (attempt_times : list datetime)
    (st st' : LoopState) :
  order_status order <> 5 ->
  forced_resolution method_id_by_code status_id_by_code order
                    attempt_times st = Ok st' ->
  if paid st then st' = st
  else exists r,
         rows st' = rows st ++ [r] /\
         paid_row status_id_by_code order r /\
         row_attempt_no r = attempt_no st + 1 /\
         row_payment_date r = t_force attempt_times.
Proof.
  intros H5 Hf. apply forced_resolution_cases in Hf.
  destruct Hf as [[-> [Hp|Hc]]|[Hp [_ [mid [status [Hs [_ [Hr _]]]]]]]].
  - now rewrite Hp.
  - contradiction.
  - rewrite Hp. eexists. split; [exact Hr|].
    unfold paid_row. simpl. tauto.
Qed.

Definition quiet_inv (rows0 : list Row) (st : LoopState) : Prop :=
  rows st = rows0 /\ paid st = false.

Lemma quiet_inv_step (rows0 : list Row) (t : datetime) (st : LoopState)
    (fl : flow) :
  none_registered ->
  quiet_inv rows0 st ->
  attempt_outcome cfg method_id_by_code status_id_by_code order t st fl ->
  quiet_inv rows0 (flow_state fl).
Proof.
  intros Hnone [Hrows Hpaid] Hout.
  outcome_cases Hout;
    unfold quiet_inv; simpl.
  - tauto.
  - rewrite Hr, Hpd. tauto.
  - rewrite app_nil_r, Hr, Hpd. tauto.
  - rewrite (Hnone _ _ Hcfg) in Hid. discriminate.
  - rewrite (Hnone _ _ Hcfg) in Hid. discriminate.
Qed.

Lemma simulate_order_all_skipped (fuel : nat)
    (method_weights : dict string Q) (rows0 rows1 : list Row)
    (rng rng' : rng_state) :
  none_registered ->
  order_status order <> 5 ->
  simulate_order cfg method_id_by_code status_id_by_code fuel method_weights
                 rows0 rng order = Ok (rows1, rng') ->
  exists r, rows1 = rows0 ++ [r] /\ paid_row status_id_by_code order r.
Proof.
  intros Hnone H5 Hs. apply simulate_order_stages in Hs.
  destruct Hs as [attempt_times [current [rng3 [st [st' [Hl [Hf ->]]]]]]].
  assert (Hstep : forall t s fl,
            quiet_inv rows0 s ->
            attempt_outcome cfg method_id_by_code status_id_by_code order
                            t s fl ->
            quiet_inv rows0 (flow_state fl)).
  { intros t s fl. now apply quiet_inv_step. }
  assert (Hinit : quiet_inv rows0 (initial_state cfg current rows0)).
  { split; reflexivity. }
  destruct (attempt_loop_invariant cfg method_id_by_code status_id_by_code
              order cfg_wf (quiet_inv rows0) Hstep _ _ _ _ _ Hinit Hl)
    as [Hrows Hpaid].
  apply (forced_resolution_pays _ _ _ H5) in Hf. rewrite Hpaid in Hf.
  destruct Hf as [r [Hr [Hrow _]]]. exists r. now rewrite Hr, Hrows.
Qed.

End SkipFacts.

Section SkipProperties.
Import PyDict PyRandom Payments.

(** In this table no configured method has an id. *)
Lemma cash_only_none_registered :
  none_registered script_config [("cash", 9)].
Proof.
  intros m c Hm. apply get_In in Hm. vm_compute in Hm.
  destruct Hm as [Hm|[Hm|[Hm|[Hm|[]]]]]; inversion Hm; subst; reflexivity.
Qed.

(** C10 fails as stated: [card] has no id and its attempt is skipped
    although the draw succeeded; the second attempt, by paypal,
    succeeds, the loop ends paid and the forced resolution appends
    nothing. The last row of the order is the row of the second
    attempt, at its time 1002, and not a forced payment at 1003. *)
Lemma skipped_then_paid_by_later_attempt :
  get (Sample.method_ids Sample.db_without_card) "card" = None /\
  Qltb (fst (random (RandomSource := scripted [])
               ([0; 0.9; 0; 0]%Q, 2%nat))) 0.62 = true /\
  order_status Sample.delivered <> 5 /\
  exists st,
    attempt_loop (R := scripted []) script_config
      (Sample.method_ids Sample.db_without_card)
      (Sample.status_ids Sample.db_without_card) Sample.delivered
      [1001; 1002] ([0; 0.9; 0; 0]%Q, 2%nat)
      (initial_state script_config "card" []) = Ok (st, ([], 2%nat)) /\
    paid st = true /\
    forced_resolution (Sample.method_ids Sample.db_without_card)
      (Sample.status_ids Sample.db_without_card) Sample.delivered
      [1001; 1002] st = Ok st /\
    simulate_order (R := scripted [0.5; 0; 0; 0.9; 0; 0]%Q) script_config
      (Sample.method_ids Sample.db_without_card)
      (Sample.status_ids Sample.db_without_card) 10
      (build_method_weights script_config) []
      (@Random (scripted [0.5; 0; 0; 0.9; 0; 0]%Q) 42) Sample.delivered =
      Ok (rows st, ([], 2%nat)) /\
    rows st =
      [{| row_order_id := 101; row_attempt_no := 2;
          row_payment_date := 1002; row_amount_paid := 100%Q;
          row_payment_method_id := 2; row_payment_status_id := 2 |}] /\
    t_force Sample.delivered [1001; 1002] = 1003.
Proof.
  split; [vm_compute; reflexivity|].
  split; [vm_compute; reflexivity|].
  split; [vm_compute; discriminate|].
  eexists. split; [vm_compute; reflexivity|].
  repeat split; vm_compute; reflexivity.
Qed.

End SkipProperties.

(* ------------------------------------------------------------------ *)
(** ** Determinism *)

(** Two results agree when they are equal or one of them is a run that
    was cut short. *)
Definition agree {A : Type} (r1 r2 : result A) : Prop :=
  r1 = OutOfFuel \/ r2 = OutOfFuel \/ r1 = r2.

(** What a run leaves outside the process: the statements sent to the
    database, or the exception that left [run]. *)
Definition storage_of (r : result Payments.Outcome)
    : result (list Payments.statement) :=
  match r with
  | Ok out => Ok (Payments.connection out)
  | Raise e => Raise e
  | OutOfFuel => OutOfFuel
  end.

Lemma agree_refl {A : Type} (r : result A) : agree r r.
Proof. right. right. reflexivity. Qed.

Lemma agree_bind {A B : Type} (c1 c2 : result A) (k1 k2 : A -> result B) :
  agree c1 c2 ->
  (forall a, agree (k1 a) (k2 a)) ->
  agree (bind c1 k1) (bind c2 k2).
Proof.
  intros [-> | [-> | ->]] Hk.
  - now left.
  - right. now left.
  - destruct c2; simpl; [apply Hk|apply agree_refl|apply agree_refl].
Qed.

Section FuelFacts.
Import PyDict PyRandom Payments.
Context {R : RandomSource}.
Variable cfg : Config.

Lemma fill_chosen_agree (fuel1 fuel2 : nat) (rng : rng_state)
    (chosen : list Z) (n_attempts max_seconds : Z) :
  agree (fill_chosen fuel1 rng chosen n_attempts max_seconds)
        (fill_chosen fuel2 rng chosen n_attempts max_seconds).
Proof.
  revert fuel2 rng chosen.
  induction fuel1 as [|fuel1 IH]; intros fuel2 rng chosen;
    destruct fuel2 as [|fuel2]; cbn [fill_chosen];
    destruct (Z.of_nat (List.length chosen) <? n_attempts);
    try apply agree_refl; try (now left); try (right; now left).
  destruct (randint 1 max_seconds rng) as [s rng1]. apply IH.
Qed.

(** More fuel does not change what [fill_chosen] returns. *)
Lemma fill_chosen_more_fuel (fuel : nat) (rng : rng_state)
    (chosen : list Z) (n_attempts max_seconds : Z)
    (res : list Z * rng_state) :
  fill_chosen fuel rng chosen n_attempts max_seconds = Ok res ->
  forall fuel', (fuel <= fuel')%nat ->
    fill_chosen fuel' rng chosen n_attempts max_seconds = Ok res.
Proof.
  revert rng chosen.
  induction fuel as [|fuel IH]; intros rng chosen Hres fuel' Hle;
    cbn [fill_chosen] in Hres.
  - destruct fuel'; cbn [fill_chosen];
      destruct (Z.of_nat (List.length chosen) <? n_attempts);
      congruence.
  - destruct fuel' as [|fuel']; [lia|]. cbn [fill_chosen].
    destruct (Z.of_nat (List.length chosen) <? n_attempts); [|assumption].
    destruct (randint 1 max_seconds rng) as [s rng1].
    apply IH; [assumption|lia].
Qed.

Lemma sorted_attempt_times_agree (fuel1 fuel2 : nat) (rng : rng_state)
    (base_dt : datetime) (n_attempts : Z) :
  agree (sorted_attempt_times cfg fuel1 rng base_dt n_attempts)
        (sorted_attempt_times cfg fuel2 rng base_dt n_attempts).
Proof.
  unfold sorted_attempt_times.
  destruct (n_attempts <=? 0); [apply agree_refl|].
  apply agree_bind; [apply fill_chosen_agree|].
  intros [chosen rng']. apply agree_refl.
Qed.

Variable method_id_by_code : dict string Z.
Variable status_id_by_code : dict string Z.

Lemma simulate_order_agree (fuel1 fuel2 : nat)
    (method_weights : dict string Q) (rows0 : list Row) (rng : rng_state)
    (order : OrderInfo) :
  agree (simulate_order cfg method_id_by_code status_id_by_code fuel1
                        method_weights rows0 rng order)
        (simulate_order cfg method_id_by_code status_id_by_code fuel2
                        method_weights rows0 rng order).
Proof.
  unfold simulate_order.
  apply agree_bind; [apply agree_refl|]. intros [planned rng1].
  apply agree_bind; [apply sorted_attempt_times_agree|].
  intros [attempt_times rng2]. apply agree_refl.
Qed.

Lemma generate_rows_agree (fuel1 fuel2 : nat)
    (method_weights : dict string Q) (orders : list OrderInfo)
    (rows0 : list Row) (rng : rng_state) :
  agree (generate_rows cfg method_id_by_code status_id_by_code fuel1
                       method_weights rows0 rng orders)
        (generate_rows cfg method_id_by_code status_id_by_code fuel2
                       method_weights rows0 rng orders).
Proof.
  revert rows0 rng.
  induction orders as [|order orders IH]; intros rows0 rng; simpl.
  - apply agree_refl.
  - apply agree_bind; [apply simulate_order_agree|].
    intros [rows1 rng1]. apply IH.
Qed.

End FuelFacts.

Section RunDeterminism.
Import PyDict PyRandom Payments.
Context {R : RandomSource}.
Variable cfg : Config.

(** The statements that the [try] block of [run] sends: [run_body]
    without the clock and the console. *)
Definition stored_statements (fuel : nat) (db : Database) (rng : rng_state)
    : result (list statement) :=
  '(_, method_id_by_code) <- fetch_payment_methods db ;;
  '(_, status_id_by_code) <- fetch_payment_statuses db ;;
  orders <- fetch_orders_with_totals db ;;
  '(rows, _) <- generate_rows cfg method_id_by_code status_id_by_code fuel
                  (build_method_weights cfg) [] rng orders ;;
  Ok (fst (insert_payments_in_batches
             (if CLEAR_EXISTING_PAYMENTS cfg
              then [DeletePayments; Commit] else [])
             rows (BATCH_SIZE cfg))).

Lemma run_body_stored (fuel : nat) (w : World) (db : Database)
    (rng : rng_state) :
  stored_statements fuel db rng =
  bind (run_body cfg fuel w db rng) (fun pc => Ok (snd pc)).
Proof.
  unfold stored_statements, run_body.
  destruct (fetch_payment_methods db) as [[i2c mids]|e|]; try reflexivity.
  simpl.
  destruct (fetch_payment_statuses db) as [[i2c' sids]|e|]; try reflexivity.
  simpl.
  destruct (fetch_orders_with_totals db) as [orders|e|]; try reflexivity.
  simpl.
  destruct (generate_rows cfg mids sids fuel (build_method_weights cfg) []
                          rng orders) as [[rows rng']|e|]; try reflexivity.
  simpl.
  destruct (insert_payments_in_batches _ rows (BATCH_SIZE cfg))
    as [conn' [total batches]].
  reflexivity.
Qed.

(** What [run] leaves in the database is a function of the statements
    of its [try] block. *)
Definition settle (stored : result (list statement))
    : result (list statement) :=
  match stored with
  | Ok conn => Ok (conn ++ [Close])
  | Raise (RuntimeError _) => Ok [Rollback; Close]
  | Raise e => Raise e
  | OutOfFuel => OutOfFuel
  end.

Lemma run_storage (fuel : nat) (w : World) (db : Database) (seed : Z) :
  storage_of (run cfg fuel w db seed) =
  bind (GLOBAL_ATTEMPT_WEIGHTS cfg)
       (fun _ => settle (stored_statements fuel db (Random seed))).
Proof.
  unfold run. rewrite (run_body_stored fuel w db (Random seed)).
  destruct (GLOBAL_ATTEMPT_WEIGHTS cfg) as [weights|e|]; try reflexivity.
  simpl.
  destruct (run_body cfg fuel w db (Random seed)) as [[printed conn]|e|];
    try reflexivity.
  destruct e; reflexivity.
Qed.

Lemma stored_statements_agree (fuel1 fuel2 : nat) (db : Database)
    (rng : rng_state) :
  agree (stored_statements fuel1 db rng) (stored_statements fuel2 db rng).
Proof.
  unfold stored_statements.
  apply agree_bind; [apply agree_refl|]. intros [i2c mids].
  apply agree_bind; [apply agree_refl|]. intros [i2c' sids].
  apply agree_bind; [apply agree_refl|]. intros orders.
  apply agree_bind; [apply generate_rows_agree|]. intros [rows rng'].
  apply agree_refl.
Qed.

Lemma settle_agree (s1 s2 : result (list statement)) :
  agree s1 s2 -> agree (settle s1) (settle s2).
Proof.
  intros [-> | [-> | ->]]; [now left|right; now left|apply agree_refl].
Qed.

End RunDeterminism.

Section DeterminismProperties.
Import PyDict PyRandom Payments.

(** C3. With the configuration, the seed and the three result sets
    fixed, what [run] sends to the database does not depend on the
    process environment or on the clock, nor on when the run is
    observed: two runs that return have sent the same statements with
    the same rows, and a run that ends in an exception ends in the same
    exception. Every draw comes from the one generator [Random seed]. *)
Theorem run_deterministic :
  forall (R : RandomSource) (cfg : Config) (db : Database) (seed : Z),
    (forall fuel w1 w2,
       storage_of (run cfg fuel w1 db seed) =
       storage_of (run cfg fuel w2 db seed)) /\
    (forall fuel1 fuel2 w1 w2,
       agree (storage_of (run cfg fuel1 w1 db seed))
             (storage_of (run cfg fuel2 w2 db seed))) /\
    (forall fuel1 fuel2 w1 w2 out1 out2,
       run cfg fuel1 w1 db seed = Ok out1 ->
       run cfg fuel2 w2 db seed = Ok out2 ->
       connection out1 = connection out2).
Proof.
  intros R cfg db seed.
  assert (Hagree : forall fuel1 fuel2 w1 w2,
            agree (storage_of (run cfg fuel1 w1 db seed))
                  (storage_of (run cfg fuel2 w2 db seed))).
  { intros fuel1 fuel2 w1 w2. rewrite !run_storage.
    apply agree_bind; [apply agree_refl|]. intros _.
    apply settle_agree, stored_statements_agree. }
  split; [|split].
  - intros fuel w1 w2. now rewrite !run_storage.
  - exact Hagree.
  - intros fuel1 fuel2 w1 w2 out1 out2 H1 H2.
    specialize (Hagree fuel1 fuel2 w1 w2). rewrite H1, H2 in Hagree.
    simpl in Hagree. destruct Hagree as [Ha|[Ha|Ha]]; congruence.
Qed.

(** Two runs of the script on the sample data, at different times and
    in different environments: the statements are the same, the lines
    printed are not. *)
Lemma run_deterministic_witness :
  exists out1 out2,
    run (R := scripted [0.8; 0; 0.9; 0; 0.9; 0; 0.9]%Q) script_config 10
        Sample.world Sample.db SEED = Ok out1 /\
    run (R := scripted [0.8; 0; 0.9; 0; 0.9; 0; 0.9]%Q) script_config 20
        Sample.later_world Sample.db SEED = Ok out2 /\
    connection out1 = connection out2 /\
    console out1 <> console out2.
Proof.
  eexists. eexists.
  split; [vm_compute; reflexivity|].
  split; [vm_compute; reflexivity|].
  split.
  - apply (proj2 (proj2 (run_deterministic
             (scripted [0.8; 0; 0.9; 0; 0.9; 0; 0.9]%Q) script_config
             Sample.db SEED)) 10%nat 20%nat Sample.world Sample.later_world);
      vm_compute; reflexivity.
  - vm_compute. discriminate.
Defined.

End DeterminismProperties.

(* ------------------------------------------------------------------ *)
(** ** Sampling distinct products *)

Section SwapFacts.
Import OrderItems.
Context {A : Type}.

Lemma list_assign_last (l : list A) (y x : A) :
  list_assign (l ++ [y]) (List.length l) x = l ++ [x].
Proof. induction l as [|a l IH]; simpl; [reflexivity|]. now rewrite IH. Qed.

Lemma list_assign_front (l : list A) (y x : A) (i : nat) :
  (i < List.length l)%nat ->
  list_assign (l ++ [y]) i x = list_assign l i x ++ [y].
Proof.
  revert i. induction l as [|a l IH]; simpl; intros i Hi; [lia|].
  destruct i as [|i]; simpl; [reflexivity|]. rewrite IH by lia. reflexivity.
Qed.

Lemma list_assign_length (l : list A) (i : nat) (x : A) :
  List.length (list_assign l i x) = List.length l.
Proof.
  revert i. induction l as [|a l IH]; intros [|i]; simpl; auto.
Qed.

Lemma list_assign_perm (l : list A) (i : nat) (x y : A) :
  nth_error l i = Some x ->
  Permutation (y :: l) (x :: list_assign l i y).
Proof.
  revert i. induction l as [|a l IH]; intros [|i]; simpl; try discriminate.
  - intros [= ->]. apply perm_swap.
  - intros Hx. specialize (IH i Hx).
    eapply perm_trans; [apply perm_swap|].
    eapply perm_trans; [apply perm_skip, IH|]. apply perm_swap.
Qed.

(** Swapping the element at [i] with the last one and dropping the last
    one takes the element at [i] out of the list. *)
Lemma swap_pop (l : list A) (i : nat) (x : A) :
  nth_error l i = Some x ->
  exists l',
    swap l i (List.length l - 1) = Ok l' /\
    Permutation l (x :: removelast l').
Proof.
  intros Hx.
  assert (Hne : l <> []) by (destruct l, i; discriminate).
  destruct (exists_last Hne) as [l0 [y ->]].
  assert (Hi : (i < List.length (l0 ++ [y]))%nat)
    by (apply nth_error_Some; congruence).
  rewrite length_app in *. simpl in Hi. simpl List.length.
  replace (List.length l0 + 1 - 1)%nat with (List.length l0) by lia.
  unfold swap. rewrite nth_error_app2, Nat.sub_diag by lia. simpl.
  rewrite Hx.
  destruct (Nat.eq_dec i (List.length l0)) as [->|Hlt].
  - rewrite nth_error_app2, Nat.sub_diag in Hx by lia.
    simpl in Hx. inversion Hx; subst.
    rewrite !list_assign_last. eexists. split; [reflexivity|].
    rewrite removelast_last. apply Permutation_sym, Permutation_cons_append.
  - rewrite nth_error_app1 in Hx by lia.
    rewrite list_assign_front by lia.
    rewrite <- (list_assign_length l0 i y), list_assign_last.
    eexists. split; [reflexivity|]. rewrite removelast_last.
    eapply perm_trans; [apply Permutation_sym, Permutation_cons_append|].
    now apply list_assign_perm.
Qed.

End SwapFacts.

Section SwapMapFacts.
Import OrderItems.
Context {A B : Type} (f : A -> B).

Lemma list_assign_map (l : list A) (i : nat) (x : A) :
  list_assign (map f l) i (f x) = map f (list_assign l i x).
Proof.
  revert i. induction l as [|a l IH]; intros [|i]; simpl; auto.
  now rewrite IH.
Qed.

Lemma swap_map (l : list A) (i j : nat) :
  swap (map f l) i j = bind (swap l i j) (fun l' => Ok (map f l')).
Proof.
  unfold swap. rewrite !nth_error_map.
  destruct (nth_error l j) as [xj|]; simpl; [|reflexivity].
  destruct (nth_error l i) as [xi|]; simpl; [|reflexivity].
  now rewrite !list_assign_map.
Qed.

Lemma removelast_map (l : list A) :
  removelast (map f l) = map f (removelast l).
Proof.
  induction l as [|a l IH]; simpl; [reflexivity|].
  destruct l; simpl in *; [reflexivity|]. now rewrite IH.
Qed.

End SwapMapFacts.

Section SamplingFacts.
Import PyDict PyRandom OrderItems.
Context {R : RandomSource}.
Variable weights_map : dict Z Q.

(** [weights_map.get(pid, 1.0)]. *)
Definition weight_of (pid : Z) : Q :=
  match get weights_map pid with
  | Some w => w
  | None => 1%Q
  end.

Lemma choices_Ok_In {A : Type} (rng rng' : rng_state) (population : list A)
    (weights : list Q) (x : A) :
  choices rng population weights = Ok (x, rng') -> In x population.
Proof.
  unfold choices.
  destruct (negb (List.length (accumulate weights) =? List.length population)%nat);
    [discriminate|].
  destruct (rev (accumulate weights)) as [|total l]; [discriminate|].
  destruct (Qleb total 0); [discriminate|].
  destruct (random rng) as [r rng1].
  destruct (nth_error population _) as [y|] eqn:E; [|discriminate].
  intros [= <- <-]. eapply nth_error_In; eauto.
Qed.

(** What the rounds of the loop return: the products picked are taken
    out of the pool one by one, and fewer than [rounds] are picked only
    when the weights left in the pool sum to [<= 0]. *)
Lemma sample_loop_sound (rounds : nat) :
  forall (rng rng' : rng_state) (pool chosen res : list Z),
    sample_loop rounds rng pool (map weight_of pool) chosen = Ok (res, rng') ->
    exists picked remaining,
      res = chosen ++ picked /\
      Permutation pool (picked ++ remaining) /\
      (List.length picked <= rounds)%nat /\
      (List.length picked = rounds \/
       (remaining <> [] /\ (sum (map weight_of remaining) <= 0)%Q)).
Proof.
  induction rounds as [|rounds IH]; intros rng rng' pool chosen res Hs;
    cbn [sample_loop] in Hs.
  - inversion Hs; subst. exists [], pool. rewrite app_nil_r. simpl.
    repeat split; auto.
  - apply bind_Ok in Hs. destruct Hs as [[idx rng1] [Hc Hs]].
    apply bind_Ok in Hs. destruct Hs as [pid [Hpid Hs]].
    destruct (nth_error pool idx) as [p|] eqn:En; [|discriminate].
    inversion Hpid; subst p. clear Hpid.
    destruct (swap_pop pool idx pid En) as [pool1 [Hswap Hperm]].
    rewrite Hswap in Hs. cbn [bind] in Hs.
    rewrite swap_map, Hswap in Hs. cbn [bind] in Hs.
    rewrite removelast_map in Hs.
    set (pool' := removelast pool1) in *.
    assert (Hrec : forall res0 rng0,
              sample_loop rounds rng1 pool' (map weight_of pool')
                          (chosen ++ [pid]) = Ok (res0, rng0) ->
              exists picked remaining,
                res0 = chosen ++ picked /\
                Permutation pool (picked ++ remaining) /\
                (List.length picked <= S rounds)%nat /\
                (List.length picked = S rounds \/
                 (remaining <> [] /\
                  (sum (map weight_of remaining) <= 0)%Q))).
    { intros res0 rng0 Hr.
      destruct (IH _ _ _ _ _ Hr) as [picked [remaining [-> [Hp [Hl Hd]]]]].
      exists (pid :: picked), remaining. rewrite <- app_assoc. simpl.
      split; [reflexivity|]. split.
      - eapply perm_trans; [exact Hperm|]. now apply perm_skip.
      - split; [lia|]. destruct Hd as [Hd|Hd]; [left; lia|right; exact Hd]. }
    destruct (map weight_of pool') as [|w ws] eqn:Ew.
    + eauto.
    + destruct (Qleb (sum (w :: ws)) 0) eqn:Esum.
      * inversion Hs; subst. exists [pid], pool'. simpl.
        split; [reflexivity|]. split; [exact Hperm|]. split; [lia|].
        right. split.
        -- intros Hnil. rewrite Hnil in Ew. discriminate.
        -- rewrite Ew. now apply Qleb_le.
      * eauto.
Qed.

(** Whenever [sample_unique_products_weighted] returns, it returns
    distinct candidates, at most [min(k, len(candidate_ids))] of them
    (none for [k <= 0]), and fewer only when the weights of the
    candidates left sum to [<= 0]. *)
Lemma sample_unique_products_weighted_sound (rng rng' : rng_state)
    (candidate_ids res : list Z) (k : Z) :
  NoDup candidate_ids ->
  sample_unique_products_weighted rng candidate_ids weights_map k =
    Ok (res, rng') ->
  NoDup res /\
  incl res candidate_ids /\
  Z.of_nat (List.length res) <=
    Z.max 0 (Z.min k (Z.of_nat (List.length candidate_ids))) /\
  (Z.of_nat (List.length res) <
     Z.min k (Z.of_nat (List.length candidate_ids)) ->
   exists remaining,
     Permutation candidate_ids (res ++ remaining) /\
     remaining <> [] /\
     (sum (map weight_of remaining) <= 0)%Q).
Proof.
  intros Hnd Hs. unfold sample_unique_products_weighted in Hs.
  destruct ((k <=? 0) ||
            match candidate_ids with [] => true | _ :: _ => false end)
    eqn:Eguard.
  - inversion Hs; subst. simpl.
    split; [constructor|]. split; [intros x []|]. split; [lia|].
    intros Hlt. exfalso. apply orb_true_iff in Eguard.
    destruct Eguard as [Hk|Hc]; [apply Z.leb_le in Hk; lia|].
    destruct candidate_ids; [simpl in Hlt; lia|discriminate].
  - apply orb_false_iff in Eguard. destruct Eguard as [Hk _].
    apply Z.leb_gt in Hk.
    apply sample_loop_sound in Hs.
    destruct Hs as [picked [remaining [-> [Hperm [Hlen Hd]]]]]. simpl.
    assert (Hnd' : NoDup (picked ++ remaining))
      by (eapply Permutation_NoDup; eauto).
    split; [eapply NoDup_app_remove_r; eauto|].
    split.
    + intros x Hx. eapply Permutation_in; [apply Permutation_sym, Hperm|].
      apply in_or_app. now left.
    + split; [lia|]. intros Hlt.
      destruct Hd as [Hd|Hd]; [lia|]. exists remaining. tauto.
Qed.

End SamplingFacts.

Section SamplingProperties.
Import PyDict PyRandom OrderItems.

(** C8. On two candidates of weight zero with [k = 1] the weight of
    the pool is exhausted before the first draw; the guard that stops
    the loop on a zero total is only reached after a draw, and the
    first [choices] raises [ValueError]: the function raises where the
    specification has it return no element, without an error. *)
Theorem sample_zero_weights_raises :
  forall (R : RandomSource) (rng : rng_state),
    sample_unique_products_weighted rng [1; 2] [(1, 0%Q); (2, 0%Q)] 1 =
      Raise (ValueError "Total of weights must be greater than zero").
Proof. intros R rng. reflexivity. Qed.

End SamplingProperties.

(* ------------------------------------------------------------------ *)
(** ** The simulation returns

    With a valid configuration and tables that hold what the script
    looks up, nothing in the simulation of an order raises: the rows
    are returned as soon as the times of the attempts have been drawn. *)

Lemma sum_nonneg (l : list Q) :
  Forall (fun v => (0 < v)%Q) l -> (0 <= sum l)%Q.
Proof.
  unfold sum. induction 1 as [|v l Hv Hl IH]; simpl.
  - apply Qle_refl.
  - rewrite fold_left_Qplus.
    assert (Hv' : (0 <= 0 + v)%Q) by (rewrite Qplus_0_l; now apply Qlt_le_weak).
    generalize (Qplus_le_compat _ _ _ _ Hv' IH). now rewrite Qplus_0_l.
Qed.

Lemma sum_pos (l : list Q) :
  l <> [] -> Forall (fun v => (0 < v)%Q) l -> (0 < sum l)%Q.
Proof.
  intros Hne Hall. destruct Hall as [|v l Hv Hl]; [congruence|].
  unfold sum. simpl. rewrite fold_left_Qplus.
  assert (Hv' : (0 < 0 + v)%Q) by now rewrite Qplus_0_l.
  generalize (Qplus_lt_le_compat _ _ _ _ Hv' (sum_nonneg l Hl)).
  now rewrite Qplus_0_l.
Qed.

Section ProgressFacts.
Import PyDict PyRandom Payments.
Context {R : RandomSource}.
Variable cfg : Config.
Variable method_id_by_code : dict string Z.
Variable status_id_by_code : dict string Z.
Hypothesis cfg_wf : wf (PAYMENT_METHOD_CONFIG cfg).
Hypothesis weights_pos :
  forall m c,
    get (PAYMENT_METHOD_CONFIG cfg) m = Some c -> (0 < get_weight c)%Q.
Hypothesis has_paid : exists p, get status_id_by_code "paid" = Some p.
Hypothesis has_failed : exists f, get status_id_by_code "failed" = Some f.
Hypothesis has_method : method_id_by_code <> [].

Lemma In_keys_get {V : Type} (d : dict string V) (k : string) :
  In k (keys d) -> exists v, get d k = Some v.
Proof.
  intros Hin. destruct (get d k) as [v|] eqn:E; [eauto|].
  apply get_None_notin in E. contradiction.
Qed.

Lemma get_In_keys {V : Type} (d : dict string V) (k : string) (v : V) :
  get d k = Some v -> In k (keys d).
Proof.
  intros Hg. apply get_In in Hg. change k with (fst (k, v)).
  now apply in_map.
Qed.

Lemma weighted_choice_key_returns {K : Type} (rng : rng_state)
    (weights : dict K Q) :
  weights <> [] ->
  Forall (fun v => (0 < v)%Q) (values weights) ->
  exists k,
    weighted_choice_key rng weights = Ok (k, snd (random rng)) /\
    In k (keys weights).
Proof.
  intros Hne Hpos.
  destruct (weighted_choice_key_cases rng weights)
    as [[[Hnil|Hle] _]|[_ Hk]]; [contradiction| |exact Hk].
  exfalso.
  assert (Hvals : values weights <> [])
    by (destruct weights; [congruence|unfold values; simpl; discriminate]).
  apply (Qlt_not_le _ _ (sum_pos (values weights) Hvals Hpos) Hle).
Qed.

Lemma values_set_pos (d : dict string Q) (k : string) (v : Q) :
  Forall (fun x => (0 < x)%Q) (values d) -> (0 < v)%Q ->
  Forall (fun x => (0 < x)%Q) (values (set d k v)).
Proof.
  rewrite !Forall_forall. intros Hd Hv x Hx.
  apply in_map_iff in Hx. destruct Hx as [[k' v'] [<- Hin]].
  destruct (In_set _ _ _ _ _ Hin) as [Hold|Hnew].
  - apply Hd. change v' with (snd (k', v')). now apply in_map.
  - now inversion Hnew.
Qed.

Lemma set_nonempty {V : Type} (d : dict string V) (k : string) (v : V) :
  set d k v <> [].
Proof.
  destruct d as [|[k' v'] d]; cbn [set]; [discriminate|].
  destruct (key_eqb k' k); discriminate.
Qed.

Lemma weights_of_returns (ms : list string) (acc : dict string Q) :
  (forall m, In m ms -> In m (keys (PAYMENT_METHOD_CONFIG cfg))) ->
  Forall (fun v => (0 < v)%Q) (values acc) ->
  exists w,
    weights_of cfg ms acc = Ok w /\
    Forall (fun v => (0 < v)%Q) (values w) /\
    (ms <> [] \/ acc <> [] -> w <> []).
Proof.
  revert acc. induction ms as [|m ms IH]; simpl; intros acc Hms Hacc.
  - exists acc. repeat split; [assumption|]. intros [Hn|Hn]; congruence.
  - destruct (In_keys_get _ m (Hms m (or_introl eq_refl))) as [c Hc].
    unfold subscript. rewrite Hc. simpl.
    destruct (IH (set acc m (get_weight c))) as [w [Hw [Hpos Hne]]].
    + intros m' Hm'. apply Hms. now right.
    + apply values_set_pos; [assumption|]. eapply weights_pos; eauto.
    + exists w. repeat split; try assumption.
      intros _. apply Hne. right. apply set_nonempty.
Qed.

Lemma alternatives_in_config (method m : string) (counts : dict string Z) :
  In m (alternatives cfg method counts) ->
  In m (keys (PAYMENT_METHOD_CONFIG cfg)).
Proof.
  intros Hin. apply alternatives_available in Hin.
  apply available_below_cap in Hin; [|assumption].
  destruct Hin as [c [Hc _]]. eapply get_In_keys; eauto.
Qed.

(** Another method is found among alternatives that are not empty. *)
Lemma repick_returns (rng : rng_state) (method : string)
    (counts : dict string Z) (a : string) (alt : list string) :
  alternatives cfg method counts = a :: alt ->
  exists m,
    bind (weights_of cfg (a :: alt) [])
         (fun w => weighted_choice_key rng w) = Ok (m, snd (random rng)) /\
    In m (keys (PAYMENT_METHOD_CONFIG cfg)).
Proof.
  intros Halt.
  destruct (weights_of_returns (a :: alt) []) as [w [Hw [Hpos Hne]]].
  - intros m Hm. rewrite <- Halt in Hm. eapply alternatives_in_config; eauto.
  - constructor.
  - rewrite Hw. simpl.
    destruct (weighted_choice_key_returns rng w) as [m [Hm Hin]];
      [apply Hne; left; discriminate|assumption|].
    exists m. split; [assumption|].
    destruct (weights_of_keys _ _ _ _ Hw _ Hin) as [[]|Hm'].
    rewrite <- Halt in Hm'. eapply alternatives_in_config; eauto.
Qed.

Lemma pick_next_method_returns (rng : rng_state) (current : string)
    (counts : dict string Z) :
  In current (keys (PAYMENT_METHOD_CONFIG cfg)) ->
  exists m rng',
    pick_next_method cfg rng current counts = Ok (m, rng') /\
    In m (keys (PAYMENT_METHOD_CONFIG cfg)).
Proof.
  intros Hcur. unfold pick_next_method.
  set (c := match get (PAYMENT_METHOD_CONFIG cfg) current with
            | Some c => c
            | None => empty_cfg
            end).
  destruct (if cap cfg c <=? count_of counts current
            then (false, rng)
            else let '(r, rng') := random rng in
                 (Qleb r (get_stay_with_method_prob c), rng'))
    as [stay rng1].
  destruct stay; [eauto|].
  destruct (alternatives cfg current counts) as [|a alt] eqn:Halt; [eauto|].
  destruct (repick_returns rng1 current counts a alt Halt) as [m [Hm Hin]].
  eauto.
Qed.

End ProgressFacts.

Section ProgressLoop.
Import PyDict PyRandom Payments.
Context {R : RandomSource}.
Variable cfg : Config.
Variable method_id_by_code : dict string Z.
Variable status_id_by_code : dict string Z.
Hypothesis cfg_wf : wf (PAYMENT_METHOD_CONFIG cfg).
Hypothesis weights_pos :
  forall m c,
    get (PAYMENT_METHOD_CONFIG cfg) m = Some c -> (0 < get_weight c)%Q.
Hypothesis has_paid : exists p, get status_id_by_code "paid" = Some p.
Hypothesis has_failed : exists f, get status_id_by_code "failed" = Some f.
Hypothesis has_method : method_id_by_code <> [].

(** The current method is a configured one and every configured method
    has a counter. *)
Definition ready (st : LoopState) : Prop :=
  In (current_method st) (keys (PAYMENT_METHOD_CONFIG cfg)) /\
  forall m,
    In m (keys (PAYMENT_METHOD_CONFIG cfg)) ->
    exists n, get (method_counts st) m = Some n.

Lemma ready_with_current (st : LoopState) (m : string) :
  ready st ->
  In m (keys (PAYMENT_METHOD_CONFIG cfg)) ->
  ready (with_current_method st m).
Proof. intros [_ Hc] Hm. split; assumption. Qed.

Lemma cap_check_returns (rng1 : rng_state) (st1 : LoopState)
    (method : string) :
  ready st1 ->
  In method (keys (PAYMENT_METHOD_CONFIG cfg)) ->
  exists choice st2 rng2,
    bind (subscript (PAYMENT_METHOD_CONFIG cfg) method) (fun c =>
    bind (subscript (method_counts st1) method) (fun n =>
      if cap cfg c <=? n then
        match alternatives cfg method (method_counts st1) with
        | [] => Ok (None, st1, rng1)
        | alt_avail =>
            bind (weights_of cfg alt_avail []) (fun alt_weights =>
            bind (weighted_choice_key rng1 alt_weights) (fun mr =>
              let '(method', rng2) := mr in
              Ok (Some method', with_current_method st1 method', rng2)))
        end
      else Ok (Some method, st1, rng1))) = Ok (choice, st2, rng2) /\
    ready st2 /\
    forall m, choice = Some m -> In m (keys (PAYMENT_METHOD_CONFIG cfg)).
Proof.
  intros Hready Hm.
  destruct (In_keys_get _ method Hm) as [c Hc].
  destruct (proj2 Hready method Hm) as [n Hn].
  unfold subscript. rewrite Hc, Hn. cbn [bind].
  destruct (cap cfg c <=? n).
  - destruct (alternatives cfg method (method_counts st1))
      as [|a alt] eqn:Halt.
    + exists None, st1, rng1. repeat split; try apply Hready. discriminate.
    + destruct (repick_returns cfg cfg_wf weights_pos rng1 method
                  (method_counts st1) a alt Halt) as [m' [Hm' Hin]].
      apply bind_Ok in Hm'. destruct Hm' as [w [Hw Hk]].
      rewrite Hw. cbn [bind]. rewrite Hk. cbn [bind].
      exists (Some m'), (with_current_method st1 m'), (snd (random rng1)).
      split; [reflexivity|]. split; [now apply ready_with_current|].
      now intros m [= <-].
  - exists (Some method), st1, rng1.
    split; [reflexivity|]. split; [assumption|]. now intros m [= <-].
Qed.

Lemma choose_method_returns (rng : rng_state) (st : LoopState) :
  ready st ->
  exists choice st1 rng1,
    choose_method cfg rng st = Ok (choice, st1, rng1) /\
    ready st1 /\
    forall m, choice = Some m -> In m (keys (PAYMENT_METHOD_CONFIG cfg)).
Proof.
  intros Hready. unfold choose_method.
  destruct (attempt_no st =? 0).
  - cbn [bind]. apply cap_check_returns; [assumption|apply Hready].
  - destruct (pick_next_method_returns cfg cfg_wf weights_pos rng
                (current_method st) (method_counts st) (proj1 Hready))
      as [m [rng1 [Hm Hin]]].
    rewrite Hm. cbn [bind].
    apply cap_check_returns; [now apply ready_with_current|assumption].
Qed.

Lemma record_attempt_returns (order : OrderInfo) (t : datetime)
    (rng : rng_state) (st : LoopState) (method : string) :
  ready st ->
  In method (keys (PAYMENT_METHOD_CONFIG cfg)) ->
  exists fl rng',
    record_attempt cfg method_id_by_code status_id_by_code order t rng st
                   method = Ok (fl, rng') /\
    ready (flow_state fl).
Proof.
  intros [Hcur Hcounts] Hm. unfold record_attempt.
  destruct (In_keys_get _ method Hm) as [c Hc].
  unfold subscript at 1. rewrite Hc. cbn [bind].
  assert (Hready' : forall is_paid no rs,
            ready {| current_method := current_method st;
                     method_counts :=
                       set (method_counts st) method
                           (count_of (method_counts st) method + 1);
                     paid := is_paid; attempt_no := no; rows := rs |}).
  { intros is_paid no rs. split; [exact Hcur|]. simpl. intros m Hin.
    destruct (String.eqb method m) eqn:E.
    - apply String.eqb_eq in E. subst. rewrite get_set_same. eauto.
    - apply String.eqb_neq in E. rewrite get_set_other by assumption. auto. }
  destruct (random rng) as [r rng'].
  destruct has_paid as [p Hp], has_failed as [f Hf].
  destruct (get method_id_by_code method) as [method_id|].
  - destruct (Qltb r (get_success_rate c)); unfold subscript;
      rewrite ?Hp, ?Hf; cbn [bind]; eexists; eexists;
      (split; [reflexivity|apply Hready']).
  - eexists. eexists. split; [reflexivity|apply Hready'].
Qed.

Lemma attempt_step_returns (order : OrderInfo) (t : datetime)
    (rng : rng_state) (st : LoopState) :
  ready st ->
  exists fl rng',
    attempt_step cfg method_id_by_code status_id_by_code order t rng st =
      Ok (fl, rng') /\
    ready (flow_state fl).
Proof.
  intros Hready. unfold attempt_step.
  destruct (paid st); [eauto|].
  destruct (choose_method_returns rng st Hready)
    as [choice [st1 [rng1 [Hc [Hready1 Hin]]]]].
  rewrite Hc. cbn [bind].
  destruct choice as [method|]; [|eauto].
  apply record_attempt_returns; auto.
Qed.

Lemma attempt_loop_returns (order : OrderInfo)
    (attempt_times : list datetime) :
  forall (rng : rng_state) (st : LoopState),
    ready st ->
    exists st' rng',
      attempt_loop cfg method_id_by_code status_id_by_code order
                   attempt_times rng st = Ok (st', rng').
Proof.
  induction attempt_times as [|t later IH]; intros rng st Hready; simpl.
  - eauto.
  - destruct (attempt_step_returns order t rng st Hready)
      as [fl [rng1 [Hs Hready1]]].
    rewrite Hs. cbn [bind]. destruct fl as [st1|st1]; [|eauto].
    now apply IH.
Qed.

Lemma forced_resolution_returns (order : OrderInfo)
    (attempt_times : list datetime) (st : LoopState) :
  exists st',
    forced_resolution method_id_by_code status_id_by_code order
                      attempt_times st = Ok st'.
Proof.
  unfold forced_resolution.
  destruct (paid st); [eauto|].
  destruct (negb (order_status order =? 5)); [|eauto].
  destruct has_paid as [p Hp]. unfold subscript. rewrite Hp.
  destruct (get method_id_by_code (current_method st)) as [i|].
  - cbn [bind]. eauto.
  - destruct method_id_by_code as [|[m i] d]; [congruence|].
    simpl. eauto.
Qed.

End ProgressLoop.

Lemma sum_scale (l : list Q) (t : Q) :
  (sum (map (fun v => v / t) l) == sum l / t)%Q.
Proof.
  unfold sum. induction l as [|a l IH]; simpl.
  - unfold Qdiv. ring.
  - rewrite (fold_left_Qplus (map (fun v => v / t) l) (0 + a / t))%Q.
    rewrite (fold_left_Qplus l (0 + a))%Q, IH. unfold Qdiv. ring.
Qed.

Section ProgressRun.
Import PyDict PyRandom Payments.
Context {R : RandomSource}.
Variable cfg : Config.
Variable method_id_by_code : dict string Z.
Variable status_id_by_code : dict string Z.
Variable fuel : nat.
Hypothesis cfg_wf : wf (PAYMENT_METHOD_CONFIG cfg).
Hypothesis has_config : PAYMENT_METHOD_CONFIG cfg <> [].
Hypothesis weights_pos :
  forall m c,
    get (PAYMENT_METHOD_CONFIG cfg) m = Some c -> (0 < get_weight c)%Q.
Hypothesis dist_wf : wf (GLOBAL_ATTEMPT_DIST cfg).
Hypothesis dist_valid : ~ invalid_distribution (GLOBAL_ATTEMPT_DIST cfg).
Hypothesis has_paid : exists p, get status_id_by_code "paid" = Some p.
Hypothesis has_failed : exists f, get status_id_by_code "failed" = Some f.
Hypothesis has_method : method_id_by_code <> [].
Hypothesis times_drawn :
  forall rng base_dt n,
    n <= MAX_GLOBAL_ATTEMPTS cfg ->
    exists res, sorted_attempt_times cfg fuel rng base_dt n = Ok res.

Lemma draw_total_attempts_planned_returns (rng : rng_state) :
  exists n rng',
    draw_total_attempts_planned cfg rng = Ok (n, rng') /\
    n <= MAX_GLOBAL_ATTEMPTS cfg.
Proof.
  unfold draw_total_attempts_planned, GLOBAL_ATTEMPT_WEIGHTS.
  destruct (normalize_distribution_cases (GLOBAL_ATTEMPT_DIST cfg) dist_wf)
    as [[Hinv _]|[_ Hn]]; [contradiction|].
  rewrite Hn. cbn [bind].
  set (total := sum (values (GLOBAL_ATTEMPT_DIST cfg))) in *.
  set (w := map (fun kv => (fst kv, (snd kv / total)%Q))
                (GLOBAL_ATTEMPT_DIST cfg)).
  assert (Htotal : (0 < total)%Q).
  { apply Qnot_le_lt. intros Hle. apply dist_valid. right. now right. }
  assert (Hsum : (0 < sum (values w))%Q).
  { unfold w, values. rewrite map_map. simpl.
    rewrite <- (map_map snd (fun v => (v / total)%Q)), sum_scale.
    apply Qlt_shift_div_l; [assumption|]. now rewrite Qmult_0_l. }
  destruct (weighted_choice_key_cases rng w)
    as [[[Hnil|Hle] _]|[_ [n [Hk _]]]].
  - exfalso. apply dist_valid. left.
    unfold w in Hnil. now apply map_eq_nil in Hnil.
  - exfalso. now apply (Qlt_not_le _ _ Hsum).
  - rewrite Hk. cbn [bind]. eexists. eexists. split; [reflexivity|lia].
Qed.

Lemma build_method_weights_items :
  build_method_weights cfg =
  map (fun mc => (fst mc, get_weight (snd mc))) (PAYMENT_METHOD_CONFIG cfg).
Proof.
  unfold build_method_weights. apply of_items_wf.
  unfold wf, keys in *. now rewrite map_map.
Qed.

Lemma initial_state_ready (current : string) (rows0 : list Row) :
  In current (keys (PAYMENT_METHOD_CONFIG cfg)) ->
  ready cfg (initial_state cfg current rows0).
Proof.
  intros Hcur. split; [exact Hcur|]. simpl. intros m Hm.
  apply In_keys_get, keys_of_items. unfold keys. rewrite map_map. simpl.
  now rewrite map_id.
Qed.

(** An order is simulated to the end as soon as its times are drawn. *)
Lemma simulate_order_returns (rows0 : list Row) (rng : rng_state)
    (order : OrderInfo) :
  exists rows1 rng',
    simulate_order cfg method_id_by_code status_id_by_code fuel
                   (build_method_weights cfg) rows0 rng order =
      Ok (rows1, rng').
Proof.
  unfold simulate_order.
  destruct (draw_total_attempts_planned_returns rng)
    as [n [rng1 [Hn Hle]]].
  rewrite Hn. cbn [bind].
  destruct (times_drawn rng1 (order_date order) n Hle)
    as [[attempt_times rng2] Ht].
  rewrite Ht. cbn [bind].
  destruct (weighted_choice_key_returns rng2 (build_method_weights cfg))
    as [current [Hc Hin]].
  { rewrite build_method_weights_items.
    destruct (PAYMENT_METHOD_CONFIG cfg); [congruence|discriminate]. }
  { rewrite build_method_weights_items. unfold values.
    rewrite map_map. simpl. apply Forall_forall. intros v Hv.
    apply in_map_iff in Hv. destruct Hv as [[m c] [<- Hmc]]. simpl.
    apply (weights_pos m). now apply In_get. }
  rewrite Hc. cbn [bind].
  assert (Hcur : In current (keys (PAYMENT_METHOD_CONFIG cfg))).
  { rewrite build_method_weights_items in Hin. unfold keys in *.
    now rewrite map_map in Hin. }
  destruct (attempt_loop_returns cfg method_id_by_code status_id_by_code
              cfg_wf weights_pos has_paid has_failed order attempt_times
              (snd (random rng2)) _ (initial_state_ready current rows0 Hcur))
    as [st [rng4 Hl]].
  unfold initial_state in Hl. rewrite Hl. cbn [bind].
  destruct (forced_resolution_returns method_id_by_code status_id_by_code
              has_paid has_method order attempt_times st) as [st' Hf].
  rewrite Hf. cbn [bind]. eauto.
Qed.

(** The rows of a run are generated to the end. *)
Lemma generate_rows_returns (orders : list OrderInfo) :
  forall (rows0 : list Row) (rng : rng_state),
    exists rows rng',
      generate_rows cfg method_id_by_code status_id_by_code fuel
                    (build_method_weights cfg) rows0 rng orders =
        Ok (rows, rng').
Proof.
  induction orders as [|order orders IH]; intros rows0 rng; simpl.
  - eauto.
  - destruct (simulate_order_returns rows0 rng order) as [rows1 [rng1 Hs]].
    rewrite Hs. cbn [bind]. apply IH.
Qed.

End ProgressRun.

(* ------------------------------------------------------------------ *)
(** ** The script on the scripted generator *)

Section ScriptedRuns.
Import PyDict PyRandom Payments.
Variable floats : list Q.

Lemma residues_differ (i k M : Z) :
  0 <= i < k -> k - i < M ->
  1 + i mod M <> 1 + k mod M.
Proof.
  intros Hik HM Heq.
  assert (Hmod : (k - i) mod M = 0).
  { rewrite Zminus_mod. replace (k mod M) with (i mod M) by lia.
    rewrite Z.sub_diag. apply Zmod_0_l. }
  rewrite Z.mod_small in Hmod by lia. lia.
Qed.

(** The scripted [randint] walks through the window, so the rejection
    loop of [sorted_attempt_times] accepts every draw. *)
Lemma scripted_fill_chosen (fuel : nat) :
  forall (fs : list Q) (k0 k : nat) (chosen : list Z) (n M : Z),
    (k0 <= k)%nat ->
    List.length chosen = (k - k0)%nat ->
    (forall x, In x chosen ->
       exists i, (k0 <= i < k)%nat /\ x = 1 + Z.of_nat i mod M) ->
    n <= M ->
    n - Z.of_nat (k - k0) <= Z.of_nat fuel ->
    exists res,
      fill_chosen (R := scripted floats) fuel (fs, k) chosen n M = Ok res.
Proof.
  induction fuel as [|fuel IH]; intros fs k0 k chosen n M Hk Hlen Hin HM Hfuel;
    cbn [fill_chosen]; rewrite Hlen;
    destruct (Z.of_nat (k - k0) <? n) eqn:E; eauto.
  - apply Z.ltb_lt in E. lia.
  - apply Z.ltb_lt in E. cbn [randint scripted fst snd].
    replace (M - 1 + 1) with M by lia.
    assert (Hnew : existsb (Z.eqb (1 + Z.of_nat k mod M)) chosen = false).
    { apply not_true_is_false. intros Hex.
      apply existsb_exists in Hex. destruct Hex as [x [Hx Heq]].
      apply Z.eqb_eq in Heq. destruct (Hin x Hx) as [i [Hi ->]].
      symmetry in Heq. revert Heq. apply residues_differ; lia. }
    unfold set_add. rewrite Hnew.
    apply (IH fs k0 (S k)); try lia.
    + cbn [List.length]. rewrite Hlen. lia.
    + intros x [<-|Hx].
      * exists k. split; [lia|reflexivity].
      * destruct (Hin x Hx) as [i [Hi ->]]. exists i. split; [lia|reflexivity].
Qed.

Lemma scripted_times_drawn (rng : rng_state (RandomSource := scripted floats))
    (base_dt : datetime) (n : Z) :
  n <= MAX_GLOBAL_ATTEMPTS script_config ->
  exists res,
    sorted_attempt_times (R := scripted floats) script_config 4 rng base_dt n
      = Ok res.
Proof.
  intros Hn. unfold sorted_attempt_times.
  destruct (n <=? 0) eqn:E0; [eauto|]. apply Z.leb_gt in E0.
  change (MAX_GLOBAL_ATTEMPTS script_config) with 4 in Hn.
  change (Z.max 1 (PAYMENT_WINDOW_SECONDS script_config - 2)) with 172798.
  destruct rng as [fs k].
  assert (H1 : List.length (@nil Z) = (k - k)%nat)
    by now rewrite Nat.sub_diag.
  assert (H2 : forall x, In x (@nil Z) ->
            exists i, (k <= i < k)%nat /\ x = 1 + Z.of_nat i mod 172798)
    by (intros x []).
  assert (H3 : Z.min n 172798 <= 172798) by lia.
  assert (H4 : Z.min n 172798 - Z.of_nat (k - k) <= Z.of_nat 4)
    by (rewrite Nat.sub_diag; simpl; lia).
  destruct (scripted_fill_chosen 4 fs k k [] (Z.min n 172798) 172798
              (le_n k) H1 H2 H3 H4) as [[chosen rng'] Hres].
  rewrite Hres. cbn [bind]. eauto.
Qed.

Lemma script_weights_pos (m : string) (c : MethodCfg) :
  get (PAYMENT_METHOD_CONFIG script_config) m = Some c ->
  (0 < get_weight c)%Q.
Proof.
  intros Hm. apply get_In in Hm. vm_compute in Hm.
  destruct Hm as [Hm|[Hm|[Hm|[Hm|[]]]]]; inversion Hm; subst; reflexivity.
Qed.

Lemma script_dist_valid :
  ~ invalid_distribution (GLOBAL_ATTEMPT_DIST script_config).
Proof.
  intros [Hnil|[[v [Hin Hv]]|Hle]].
  - discriminate.
  - vm_compute in Hin.
    destruct Hin as [<-|[<-|[<-|[<-|[]]]]]; discriminate.
  - revert Hle. vm_compute. intros Hle. now apply Hle.
Qed.

(** On the sample tables the script generates the rows of any orders,
    whatever the floats of the generator. *)
Lemma scripted_generate_rows_returns (orders : list OrderInfo)
    (rows0 : list Row) (rng : rng_state (RandomSource := scripted floats)) :
  exists rows rng',
    generate_rows (R := scripted floats) script_config
      (Sample.method_ids Sample.db) (Sample.status_ids Sample.db) 4
      (build_method_weights script_config) rows0 rng orders =
    Ok (rows, rng').
Proof.
  apply generate_rows_returns.
  - apply wf_of_items.
  - discriminate.
  - exact script_weights_pos.
  - apply wf_of_items.
  - exact script_dist_valid.
  - eexists. reflexivity.
  - eexists. reflexivity.
  - discriminate.
  - intros rng1 base_dt n. apply scripted_times_drawn.
Qed.

End ScriptedRuns.

(* ------------------------------------------------------------------ *)
(** * Further properties of the scripts *)

(** ** Normalized distributions *)

Lemma sum_cons (v : Q) (l : list Q) : (sum (v :: l) == v + sum l)%Q.
Proof.
  unfold sum. simpl. rewrite fold_left_Qplus. ring.
Qed.

Lemma sum_nonneg_le (l : list Q) :
  Forall (fun v => (0 <= v)%Q) l -> (0 <= sum l)%Q.
Proof.
  induction 1 as [|v l Hv Hl IH].
  - apply Qle_refl.
  - rewrite sum_cons. rewrite <- (Qplus_0_l 0).
    now apply Qplus_le_compat.
Qed.

Lemma sum_bounds_member (l : list Q) (v : Q) :
  Forall (fun x => (0 <= x)%Q) l -> In v l -> (v <= sum l)%Q.
Proof.
  induction 1 as [|x l Hx Hl IH]; intros Hin; [destruct Hin|].
  rewrite sum_cons. destruct Hin as [->|Hin].
  - rewrite <- (Qplus_0_r v) at 1.
    apply Qplus_le_compat; [apply Qle_refl|now apply sum_nonneg_le].
  - rewrite <- (Qplus_0_l v).
    apply Qplus_le_compat; [assumption|now apply IH].
Qed.

Section NormalizedFacts.
Import PyDict Payments.

Lemma valid_distribution_nonneg {K : Type} (dist : dict K Q) :
  ~ invalid_distribution dist ->
  Forall (fun v => (0 <= v)%Q) (values dist) /\ (0 < sum (values dist))%Q.
Proof.
  intros Hvalid. split.
  - apply Forall_forall. intros v Hv. apply Qnot_lt_le. intros Hneg.
    apply Hvalid. right. left. eauto.
  - apply Qnot_le_lt. intros Hle. apply Hvalid. right. now right.
Qed.

Lemma get_map_values {K : Type} {HK : Key K} (f : Q -> Q) (d : dict K Q)
    (k : K) :
  get (map (fun kv => (fst kv, f (snd kv))) d) k =
  match get d k with Some v => Some (f v) | None => None end.
Proof.
  induction d as [|[k' v'] d IH]; simpl; [reflexivity|].
  destruct (key_eqb k' k); [reflexivity|exact IH].
Qed.

(** X1. What [normalize_distribution] returns keeps the keys of its
    argument, in their sequence, gives every key a value in [[0, 1]],
    and keeps the order of the weights: a key with the smaller weight
    has the smaller value. *)
Theorem normalize_distribution_keeps_order :
  forall (K : Type) (HK : Key K) (dist w : dict K Q),
    wf dist ->
    normalize_distribution dist = Ok w ->
    keys w = keys dist /\
    Forall (fun v => (0 <= v <= 1)%Q) (values w) /\
    (forall k1 k2 v1 v2 n1 n2,
       get dist k1 = Some v1 -> get dist k2 = Some v2 ->
       get w k1 = Some n1 -> get w k2 = Some n2 ->
       (v1 <= v2)%Q -> (n1 <= n2)%Q).
Proof.
  intros K HK dist w Hwf Hn.
  destruct (normalize_distribution_cases dist Hwf) as [[_ [msg He]]|[Hvalid He]];
    [congruence|].
  rewrite He in Hn. inversion Hn; subst w. clear Hn He.
  destruct (valid_distribution_nonneg dist Hvalid) as [Hnonneg Hpos].
  set (total := sum (values dist)) in *.
  assert (Hvals : values (map (fun kv => (fst kv, (snd kv / total)%Q)) dist) =
                  map (fun v => (v / total)%Q) (values dist)).
  { unfold values. now rewrite !map_map. }
  split; [unfold keys; now rewrite map_map|].
  split.
  - rewrite Hvals. apply Forall_forall. intros q Hq. apply in_map_iff in Hq.
    destruct Hq as [v [<- Hv]]. split.
    + apply Qle_shift_div_l; [assumption|]. rewrite Qmult_0_l.
      rewrite Forall_forall in Hnonneg. now apply Hnonneg.
    + apply Qle_shift_div_r; [assumption|]. rewrite Qmult_1_l.
      now apply sum_bounds_member.
  - intros k1 k2 v1 v2 n1 n2 H1 H2 G1 G2 Hle.
    rewrite (get_map_values (fun v => (v / total)%Q)) in G1, G2.
    rewrite H1 in G1. rewrite H2 in G2.
    inversion G1; inversion G2; subst. unfold Qdiv.
    apply Qmult_le_compat_r; [assumption|].
    apply Qinv_le_0_compat. now apply Qlt_le_weak.
Qed.

Lemma normalize_distribution_keeps_order_witness :
  keys (K := Z) (V := Q)
       [(1%Z, 0.45%Q); (2%Z, 0.32%Q); (3%Z, 0.18%Q); (4%Z, 0.05%Q)] =
    keys (GLOBAL_ATTEMPT_DIST script_config) /\
  Forall (fun v => (0 <= v <= 1)%Q)
    (values (K := Z)
            [(1%Z, 0.45%Q); (2%Z, 0.32%Q); (3%Z, 0.18%Q); (4%Z, 0.05%Q)]) /\
  (forall k1 k2 v1 v2 n1 n2,
     get (GLOBAL_ATTEMPT_DIST script_config) k1 = Some v1 ->
     get (GLOBAL_ATTEMPT_DIST script_config) k2 = Some v2 ->
     get [(1%Z, 0.45%Q); (2%Z, 0.32%Q); (3%Z, 0.18%Q); (4%Z, 0.05%Q)] k1 =
       Some n1 ->
     get [(1%Z, 0.45%Q); (2%Z, 0.32%Q); (3%Z, 0.18%Q); (4%Z, 0.05%Q)] k2 =
       Some n2 ->
     (v1 <= v2)%Q -> (n1 <= n2)%Q).
Proof.
  apply (normalize_distribution_keeps_order Z _
           (GLOBAL_ATTEMPT_DIST script_config)).
  - apply wf_of_items.
  - vm_compute. reflexivity.
Defined.

End NormalizedFacts.

(* ------------------------------------------------------------------ *)
(** ** The weighted draw follows the weights *)

Section DrawFacts.
Import PyDict PyRandom Payments.











Context {R : RandomSource}.



End DrawFacts.


(* ------------------------------------------------------------------ *)
(** ** The batch buffer at its edges *)

Section BufferEdges.
Import Payments.

Lemma fold_buffer_unbatched (rows : list Row) :
  forall s bu t ba,
    fold_left (buffer_step 0) rows
      {| sent := s; buf := bu; total := t; batches := ba |} =
    {| sent := s; buf := bu ++ rows; total := t; batches := ba |}.
Proof.
  induction rows as [|r rows IH]; intros s bu t ba; simpl.
  - now rewrite app_nil_r.
  - unfold buffer_step, append. simpl. rewrite IH, <- app_assoc. reflexivity.
Qed.

Lemma buffer_step_negative (batch_size : Z) (r : Row) :
  batch_size < 0 ->
  forall s t ba,
    buffer_step batch_size
      {| sent := s; buf := []; total := t; batches := ba |} r =
    {| sent := s ++ [InsertPayments [r]; Commit]; buf := [];
       total := t + 1; batches := ba + 1 |}.
Proof.
  intros Hneg s t ba. unfold buffer_step, append. simpl.
  destruct (batch_size =? 0) eqn:E0; [apply Z.eqb_eq in E0; lia|].
  destruct (batch_size <=? 1) eqn:E1; [|apply Z.leb_gt in E1; lia].
  reflexivity.
Qed.

Lemma fold_buffer_negative (batch_size : Z) (rows : list Row) :
  batch_size < 0 ->
  forall s t ba,
    fold_left (buffer_step batch_size) rows
      {| sent := s; buf := []; total := t; batches := ba |} =
    {| sent := s ++ flushes (map (fun r => [r]) rows); buf := [];
       total := t + Z.of_nat (List.length rows);
       batches := ba + Z.of_nat (List.length rows) |}.
Proof.
  intros Hneg. induction rows as [|r rows IH]; intros s t ba.
  - simpl. rewrite app_nil_r, !Z.add_0_r. reflexivity.
  - cbn [fold_left]. rewrite (buffer_step_negative batch_size r Hneg), IH.
    cbn [map List.length]. unfold flushes. cbn [flat_map].
    rewrite <- app_assoc. f_equal; try lia; reflexivity.
Qed.

(** X3. The batch size at its edges. Without rows nothing is sent and
    [(0, 0)] is returned. A batch size of zero switches batching off:
    all rows are sent and committed as one chunk. A negative batch size
    is not refused: every row is sent and committed on its own. *)
Theorem insert_payments_in_batches_edge_sizes :
  forall (conn : list statement) (rows : list Row) (batch_size : Z),
    insert_payments_in_batches conn [] batch_size = (conn, (0, 0)) /\
    (rows <> [] ->
     insert_payments_in_batches conn rows 0 =
       (conn ++ [InsertPayments rows; Commit],
        (Z.of_nat (List.length rows), 1))) /\
    (batch_size < 0 ->
     insert_payments_in_batches conn rows batch_size =
       (conn ++ flushes (map (fun r => [r]) rows),
        (Z.of_nat (List.length rows), Z.of_nat (List.length rows)))).
Proof.
  intros conn rows batch_size. split; [reflexivity|]. split.
  - intros Hne. unfold insert_payments_in_batches.
    destruct rows as [|r rows]; [congruence|].
    rewrite fold_buffer_unbatched. reflexivity.
  - intros Hneg. unfold insert_payments_in_batches.
    destruct rows as [|r rows].
    + simpl. now rewrite app_nil_r.
    + rewrite (fold_buffer_negative batch_size (r :: rows) Hneg).
      reflexivity.
Qed.

End BufferEdges.

(* ------------------------------------------------------------------ *)
(** ** The lookup tables *)

Section LookupTables.
Import PyDict Payments.

Lemma inverted_lookup (g : string -> string) (d : dict Z string)
    (s : string) (i : Z) :
  wf d ->
  get (of_items (map (fun ic => (g (snd ic), fst ic)) d)) s = Some i ->
  exists c, get d i = Some c /\ g c = s.
Proof.
  intros Hwf Hg.
  apply get_In, In_of_items, in_map_iff in Hg.
  destruct Hg as [[i' c] [E Hin]]. simpl in E. inversion E; subst.
  exists c. split; [now apply In_get|reflexivity].
Qed.

Lemma inverted_total (g : string -> string) (d : dict Z string)
    (c : string) (i : Z) :
  get d i = Some c ->
  exists i', get (of_items (map (fun ic => (g (snd ic), fst ic)) d)) (g c)
             = Some i'.
Proof.
  intros Hg. apply In_keys_get, keys_of_items.
  apply get_In in Hg. unfold keys. rewrite map_map. simpl.
  change (g c) with ((fun x : Z * string => g (snd x)) (i, c)).
  now apply in_map.
Qed.

(** X4. The two dictionaries that [fetch_payment_methods] and
    [fetch_payment_statuses] return belong together. An id found under
    a code leads back to that code (for the statuses: to a code that is
    this one in lower case); every entry of the id table is a row of the
    database table; and every code of the id table has an id, the
    statuses under their lower-case form. *)
Theorem fetched_tables_round_trip :
  forall (db : Database) (by_id m_id_to_code : dict Z string)
         (method_id_by_code status_id_by_code : dict string Z),
    fetch_payment_methods db = Ok (m_id_to_code, method_id_by_code) ->
    fetch_payment_statuses db = Ok (by_id, status_id_by_code) ->
    (forall m i, get method_id_by_code m = Some i ->
                 get m_id_to_code i = Some m /\ In (i, m) (payment_methods db)) /\
    (forall s i, get status_id_by_code s = Some i ->
                 exists c, get by_id i = Some c /\ lower c = s /\
                           In (i, c) (payment_status db)) /\
    (forall i m, get m_id_to_code i = Some m ->
                 exists i', get method_id_by_code m = Some i') /\
    (forall i c, get by_id i = Some c ->
                 exists i', get status_id_by_code (lower c) = Some i').
Proof.
  intros db by_id m_id_to_code method_id_by_code status_id_by_code.
  unfold fetch_payment_methods, fetch_payment_statuses.
  destruct (payment_methods db) as [|mrow mrows]; [discriminate|].
  destruct (payment_status db) as [|srow srows]; [discriminate|].
  intros [= <- <-] [= <- <-]. unfold swap_items.
  split; [|split; [|split]].
  - intros m i Hg.
    destruct (inverted_lookup (fun c => c) _ m i (wf_of_items _) Hg)
      as [c [Hc ->]].
    split; [assumption|]. now apply In_of_items, get_In.
  - intros s i Hg.
    destruct (inverted_lookup lower _ s i (wf_of_items _) Hg) as [c [Hc Hs]].
    exists c. split; [assumption|]. split; [assumption|].
    now apply In_of_items, get_In.
  - intros i m Hg. exact (inverted_total (fun c => c) _ m i Hg).
  - intros i c Hg. exact (inverted_total lower _ c i Hg).
Qed.

Lemma fetched_tables_round_trip_witness :
  get (Sample.method_ids Sample.db) "mbway" = Some 3 /\
  (forall m i, get (Sample.method_ids Sample.db) m = Some i ->
     get (of_items (payment_methods Sample.db)) i = Some m /\
     In (i, m) (payment_methods Sample.db)).
Proof.
  split; [reflexivity|].
  exact (proj1 (fetched_tables_round_trip Sample.db
                  (of_items (payment_status Sample.db))
                  (of_items (payment_methods Sample.db))
                  (Sample.method_ids Sample.db)
                  (Sample.status_ids Sample.db)
                  eq_refl eq_refl)).
Defined.

End LookupTables.

(* ------------------------------------------------------------------ *)
(** ** The attempt times *)

Section SortFacts.
Import Payments.

Lemma insert_sorted_perm (s : Z) (l : list Z) :
  Permutation (insert_sorted s l) (s :: l).
Proof.
  induction l as [|x l IH]; cbn [insert_sorted]; [reflexivity|].
  destruct (s <=? x); [reflexivity|].
  rewrite IH. apply perm_swap.
Qed.

Lemma sorted_perm (l : list Z) : Permutation (sorted l) l.
Proof.
  induction l as [|x l IH]; [reflexivity|].
  unfold sorted in *. cbn [fold_right].
  rewrite insert_sorted_perm. now constructor.
Qed.

Lemma insert_sorted_lt (s : Z) (l : list Z) :
  StronglySorted Z.lt l -> ~ In s l ->
  StronglySorted Z.lt (insert_sorted s l).
Proof.
  induction l as [|x l IH]; cbn [insert_sorted]; intros Hs Hnot.
  - repeat constructor.
  - inversion Hs as [|? ? Hl Hall]; subst.
    assert (Hsx : s <> x) by (intros ->; apply Hnot; now left).
    destruct (s <=? x) eqn:E.
    + apply Z.leb_le in E. constructor; [assumption|].
      constructor; [lia|].
      eapply Forall_impl; [|exact Hall]. intros y Hy. simpl in Hy. lia.
    + apply Z.leb_gt in E. constructor.
      * apply IH; [assumption|]. intros Hin. apply Hnot. now right.
      * apply Forall_forall. intros y Hy.
        apply (Permutation_in _ (insert_sorted_perm s l)) in Hy.
        destruct Hy as [<-|Hy]; [assumption|].
        exact (proj1 (Forall_forall _ _) Hall y Hy).
Qed.

Lemma sorted_lt (l : list Z) : NoDup l -> StronglySorted Z.lt (sorted l).
Proof.
  induction 1 as [|x l Hnot Hnd IH]; [constructor|].
  unfold sorted in *. cbn [fold_right]. apply insert_sorted_lt; [assumption|].
  intros Hin. apply Hnot.
  exact (Permutation_in _ (sorted_perm l) Hin).
Qed.

Lemma shifted_lt (base : Z) (l : list Z) :
  StronglySorted Z.lt l -> StronglySorted Z.lt (map (fun s => base + s) l).
Proof.
  induction 1 as [|x l Hs IH Hall]; cbn [map]; constructor; [assumption|].
  apply Forall_forall. intros y Hy. apply in_map_iff in Hy.
  destruct Hy as [z [<- Hz]].
  pose proof (proj1 (Forall_forall _ _) Hall z Hz). simpl in *. lia.
Qed.

Lemma set_add_NoDup (s : Z) (chosen : list Z) :
  NoDup chosen -> NoDup (set_add s chosen).
Proof.
  intros Hnd. unfold set_add.
  destruct (existsb (Z.eqb s) chosen) eqn:E; [assumption|].
  constructor; [|assumption]. intros Hin.
  assert (existsb (Z.eqb s) chosen = true); [|congruence].
  apply existsb_exists. exists s. split; [assumption|apply Z.eqb_refl].
Qed.

Lemma set_add_length (s : Z) (chosen : list Z) :
  (List.length chosen <= List.length (set_add s chosen) <=
   S (List.length chosen))%nat.
Proof.
  unfold set_add. destruct (existsb (Z.eqb s) chosen); simpl; lia.
Qed.

Lemma set_add_In (s x : Z) (chosen : list Z) :
  In x (set_add s chosen) -> x = s \/ In x chosen.
Proof.
  unfold set_add. destruct (existsb (Z.eqb s) chosen); simpl; intuition.
Qed.

End SortFacts.

Section TimesFacts.
Import Payments.
Context {R : RandomSource}.
Variable cfg : Config.

(** What the loop of [sorted_attempt_times] keeps true of [chosen], for
    any property [P] that every draw has. *)
Lemma fill_chosen_inv (P : Z -> Prop) (n_attempts max_seconds : Z) :
  (forall rng, P (fst (randint 1 max_seconds rng))) ->
  forall (fuel : nat) (rng rng' : rng_state) (chosen res : list Z),
    NoDup chosen -> Forall P chosen ->
    Z.of_nat (List.length chosen) <= n_attempts ->
    fill_chosen fuel rng chosen n_attempts max_seconds = Ok (res, rng') ->
    NoDup res /\ Forall P res /\ Z.of_nat (List.length res) = n_attempts.
Proof.
  intros HP. induction fuel as [|fuel IH];
    intros rng rng' chosen res Hnd Hall Hlen; cbn [fill_chosen];
    destruct (Z.of_nat (List.length chosen) <? n_attempts) eqn:E.
  - discriminate.
  - intros [= <- <-]. apply Z.ltb_ge in E. repeat split; try assumption. lia.
  - pose proof (HP rng) as Hdraw.
    destruct (randint 1 max_seconds rng) as [s rng1]. simpl in Hdraw.
    apply Z.ltb_lt in E. apply IH.
    + now apply set_add_NoDup.
    + apply Forall_forall. intros x Hx.
      destruct (set_add_In _ _ _ Hx) as [->|Hin]; [assumption|].
      exact (proj1 (Forall_forall _ _) Hall x Hin).
    + pose proof (set_add_length s chosen). lia.
  - intros [= <- <-]. apply Z.ltb_ge in E. repeat split; try assumption. lia.
Qed.

(** The times that [sorted_attempt_times] returns, for any property [P]
    that every draw of an offset has. *)
Lemma sorted_attempt_times_facts (P : Z -> Prop) (fuel : nat)
    (rng rng' : rng_state) (base_dt : datetime) (n_attempts : Z)
    (times : list datetime) :
  (forall s, P (fst (randint 1 (Z.max 1 (PAYMENT_WINDOW_SECONDS cfg - 2)) s))) ->
  sorted_attempt_times cfg fuel rng base_dt n_attempts = Ok (times, rng') ->
  StronglySorted Z.lt times /\
  List.length times =
    Z.to_nat (Z.min n_attempts (Z.max 1 (PAYMENT_WINDOW_SECONDS cfg - 2))) /\
  Forall (fun t => P (t - base_dt)) times.
Proof.
  intros HP. unfold sorted_attempt_times.
  destruct (n_attempts <=? 0) eqn:E.
  - intros [= <- <-]. apply Z.leb_le in E.
    split; [constructor|]. split; [simpl; lia|constructor].
  - apply Z.leb_gt in E.
    set (max_seconds := Z.max 1 (PAYMENT_WINDOW_SECONDS cfg - 2)) in *.
    destruct (fill_chosen fuel rng [] (Z.min n_attempts max_seconds)
                max_seconds) as [[chosen rng1]| |] eqn:Hf;
      cbn [bind]; try discriminate.
    intros [= <- <-].
    assert (Hroom : Z.of_nat (@List.length Z []) <=
                    Z.min n_attempts max_seconds)
      by (subst max_seconds; simpl; lia).
    destruct (fill_chosen_inv P _ _ HP fuel rng rng1 [] chosen
                (NoDup_nil _) (Forall_nil _) Hroom Hf) as [Hnd [Hall Hlen]].
    split; [apply shifted_lt, sorted_lt, Hnd|]. split.
    + rewrite length_map, (Permutation_length (sorted_perm chosen)). lia.
    + apply Forall_forall. intros t Ht. apply in_map_iff in Ht.
      destruct Ht as [x [<- Hx]].
      apply (Permutation_in _ (sorted_perm chosen)) in Hx.
      replace (base_dt + x - base_dt) with x by lia.
      exact (proj1 (Forall_forall _ _) Hall x Hx).
Qed.

(** X5. The times that [sorted_attempt_times] returns grow strictly, and
    there are as many as were asked for, after the request is cut down
    to the [max(1, PAYMENT_WINDOW_SECONDS - 2)] seconds that can be
    told apart (none for a request of zero or less). *)
Theorem sorted_attempt_times_strictly_increasing :
  forall (fuel : nat) (rng rng' : rng_state) (base_dt : datetime)
         (n_attempts : Z) (times : list datetime),
    sorted_attempt_times cfg fuel rng base_dt n_attempts = Ok (times, rng') ->
    StronglySorted Z.lt times /\
    List.length times =
      Z.to_nat (Z.min n_attempts (Z.max 1 (PAYMENT_WINDOW_SECONDS cfg - 2))).
Proof.
  intros fuel rng rng' base_dt n_attempts times Ht.
  destruct (sorted_attempt_times_facts (fun _ => True) fuel rng rng' base_dt
              n_attempts times (fun _ => I) Ht) as [Hs [Hlen _]].
  split; assumption.
Qed.

(** X6. With a generator whose [randint(a, b)] lies in [[a, b]], every
    attempt time falls after the order date, at most
    [max(1, PAYMENT_WINDOW_SECONDS - 2)] seconds later. *)
Theorem sorted_attempt_times_in_window :
  forall (fuel : nat) (rng rng' : rng_state) (base_dt : datetime)
         (n_attempts : Z) (times : list datetime),
    (forall a b s, a <= b -> a <= fst (randint a b s) <= b) ->
    sorted_attempt_times cfg fuel rng base_dt n_attempts = Ok (times, rng') ->
    Forall (fun t => base_dt < t <=
                     base_dt + Z.max 1 (PAYMENT_WINDOW_SECONDS cfg - 2))
           times.
Proof.
  intros fuel rng rng' base_dt n_attempts times Hlaw Ht.
  set (max_seconds := Z.max 1 (PAYMENT_WINDOW_SECONDS cfg - 2)).
  assert (Hdraw : forall s, 1 <= fst (randint 1 max_seconds s) <= max_seconds)
    by (intros s; apply Hlaw; subst max_seconds; lia).
  destruct (sorted_attempt_times_facts (fun x => 1 <= x <= max_seconds)
              fuel rng rng' base_dt n_attempts times Hdraw Ht)
    as [_ [_ Hall]].
  eapply Forall_impl; [|exact Hall]. intros t Hr. simpl in Hr. lia.
Qed.

End TimesFacts.

Lemma scripted_randint_range (floats : list Q) :
  forall a b s, a <= b ->
    a <= fst (randint (RandomSource := scripted floats) a b s) <= b.
Proof.
  intros a b s Hab. cbn [randint scripted fst].
  pose proof (Z.mod_pos_bound (Z.of_nat (snd s)) (b - a + 1)). lia.
Qed.

Lemma sorted_attempt_times_strictly_increasing_witness :
  Payments.sorted_attempt_times (R := scripted []) Payments.script_config
    5 ([], 7%nat) 1000 3 = Ok ([1008; 1009; 1010], ([], 10%nat)) /\
  StronglySorted Z.lt [1008; 1009; 1010] /\
  List.length [1008; 1009; 1010] =
    Z.to_nat (Z.min 3 (Z.max 1
      (Payments.PAYMENT_WINDOW_SECONDS Payments.script_config - 2))).
Proof.
  split; [reflexivity|].
  exact (sorted_attempt_times_strictly_increasing (R := scripted [])
           Payments.script_config 5 ([], 7%nat) ([], 10%nat) 1000 3
           [1008; 1009; 1010] eq_refl).
Defined.

Lemma sorted_attempt_times_in_window_witness :
  Forall (fun t => 1000 < t <=
            1000 + Z.max 1
              (Payments.PAYMENT_WINDOW_SECONDS Payments.script_config - 2))
         [1008; 1009; 1010].
Proof.
  exact (sorted_attempt_times_in_window (R := scripted [])
           Payments.script_config 5 ([], 7%nat) ([], 10%nat) 1000 3
           [1008; 1009; 1010] (scripted_randint_range []) eq_refl).
Defined.

(* ------------------------------------------------------------------ *)
(** ** Keeping or changing the method *)

Section SwitchFacts.
Import PyDict PyRandom Payments.
Context {R : RandomSource}.
Variable cfg : Config.

Lemma NoDup_keys_filter {V : Type} (f : string * V -> bool)
    (l : list (string * V)) :
  NoDup (map fst l) -> NoDup (map fst (filter f l)).
Proof.
  induction l as [|[k v] l IH]; cbn [map filter fst]; intros Hnd;
    [constructor|].
  inversion Hnd as [|? ? Hnot Hnd']; subst.
  destruct (f (k, v)); [|auto].
  cbn [map fst]. constructor; [|auto].
  intros Hin. apply Hnot. apply in_map_iff in Hin.
  destruct Hin as [[k' v'] [Hk Hin]]. simpl in Hk. subst k'.
  apply filter_In in Hin. destruct Hin as [Hin _].
  change k with (fst (k, v')). now apply in_map.
Qed.

Lemma list_remove_excludes (x : string) (l : list string) :
  NoDup l -> ~ In x (list_remove x l).
Proof.
  induction l as [|y l IH]; cbn [list_remove]; intros Hnd; [tauto|].
  inversion Hnd as [|? ? Hnot Hnd']; subst.
  destruct (String.eqb y x) eqn:E.
  - apply String.eqb_eq in E. now subst.
  - apply String.eqb_neq in E. intros [Hyx|Hin]; [congruence|].
    now apply IH.
Qed.

Lemma list_mem_false (x : string) (l : list string) :
  list_mem x l = false -> ~ In x l.
Proof.
  unfold list_mem. intros Hm Hin.
  assert (existsb (String.eqb x) l = true); [|congruence].
  apply existsb_exists. exists x. split; [assumption|apply String.eqb_refl].
Qed.

Lemma alternatives_exclude (method : string) (counts : dict string Z) :
  wf (PAYMENT_METHOD_CONFIG cfg) ->
  ~ In method (alternatives cfg method counts).
Proof.
  intros Hwf. unfold alternatives.
  destruct (list_mem method (available_methods_by_cap cfg counts)) eqn:E.
  - apply list_remove_excludes. unfold available_methods_by_cap.
    apply NoDup_keys_filter. exact Hwf.
  - now apply list_mem_false.
Qed.

(** X7. What [pick_next_method] returns. A method other than the
    current one is one of the alternatives: it is configured and has
    not reached its cap. The current method comes back only when it is
    itself below its cap, or when no other method is. *)
Theorem pick_next_method_keeps_or_switches :
  forall (rng rng' : rng_state) (current m : string)
         (method_counts : dict string Z),
    wf (PAYMENT_METHOD_CONFIG cfg) ->
    pick_next_method cfg rng current method_counts = Ok (m, rng') ->
    (m <> current ->
     In m (alternatives cfg current method_counts) /\
     exists c, get (PAYMENT_METHOD_CONFIG cfg) m = Some c /\
               count_of method_counts m < cap cfg c) /\
    (m = current ->
     count_of method_counts current <
       cap cfg (match get (PAYMENT_METHOD_CONFIG cfg) current with
                | Some c => c
                | None => empty_cfg
                end) \/
     alternatives cfg current method_counts = []).
Proof.
  intros rng rng' current m method_counts Hwf. unfold pick_next_method.
  set (c := match get (PAYMENT_METHOD_CONFIG cfg) current with
            | Some c => c
            | None => empty_cfg
            end).
  assert (Hswitch : forall r,
    match alternatives cfg current method_counts with
    | [] => Ok (current, r)
    | a :: alt =>
        bind (weights_of cfg (a :: alt) [])
             (fun weights => weighted_choice_key r weights)
    end = Ok (m, rng') ->
    (m <> current ->
     In m (alternatives cfg current method_counts) /\
     exists c0, get (PAYMENT_METHOD_CONFIG cfg) m = Some c0 /\
                count_of method_counts m < cap cfg c0) /\
    (m = current -> alternatives cfg current method_counts = [])).
  { intros r Hm.
    destruct (alternatives cfg current method_counts) as [|a alt] eqn:Halt.
    - inversion Hm; subst. split; [congruence|reflexivity].
    - apply bind_Ok in Hm. destruct Hm as [w [Hw Hk]].
      pose proof Hk as Hin. apply weighted_choice_key_In in Hin.
      destruct Hin as [Hin _].
      destruct (weights_of_keys cfg _ _ _ Hw _ Hin) as [[]|Hmem].
      split.
      + intros _. split; [assumption|].
        exact (repick_below_cap cfg (a :: alt) current method_counts r rng'
                 w m Hwf (eq_sym Halt) Hw Hk).
      + intros ->. exfalso.
        apply (alternatives_exclude current method_counts Hwf).
        now rewrite Halt. }
  destruct (cap cfg c <=? count_of method_counts current) eqn:E.
  - intros Hm. destruct (Hswitch rng Hm) as [H1 H2]. split; [exact H1|].
    intros Heq. right. auto.
  - apply Z.leb_gt in E. destruct (random rng) as [r rng1].
    destruct (Qleb r (get_stay_with_method_prob c)).
    + intros [= <- <-]. split; [congruence|]. intros _. now left.
    + intros Hm. destruct (Hswitch rng1 Hm) as [H1 _]. split; [exact H1|].
      intros _. now left.
Qed.

End SwitchFacts.

Lemma pick_next_method_keeps_or_switches_witness :
  In "mbway" (Payments.alternatives Payments.script_config "card"
                [("card", 3)]) /\
  exists c,
    PyDict.get (Payments.PAYMENT_METHOD_CONFIG Payments.script_config)
      "mbway" = Some c /\
    Payments.count_of [("card", 3)] "mbway" <
      Payments.cap Payments.script_config c.
Proof.
  apply (proj1 (pick_next_method_keeps_or_switches (R := scripted [0.5%Q])
                  Payments.script_config ([0.5%Q], 0%nat) ([], 0%nat)
                  "card" "mbway" [("card", 3)]
                  (wf_of_items _) eq_refl)).
  discriminate.
Defined.

(* ------------------------------------------------------------------ *)
(** ** The payment dates of an order *)

(** [subseq l1 l2]: [l1] is [l2] with some of its members left out. *)
Inductive subseq {A : Type} : list A -> list A -> Prop :=
| subseq_nil : subseq [] []
| subseq_skip (x : A) (l1 l2 : list A) :
    subseq l1 l2 -> subseq l1 (x :: l2)
| subseq_take (x : A) (l1 l2 : list A) :
    subseq l1 l2 -> subseq (x :: l1) (x :: l2).

Section SubseqFacts.
Context {A : Type}.

Lemma subseq_nil_l (l : list A) : subseq [] l.
Proof. induction l; constructor; assumption. Qed.

Lemma subseq_app (a b c d : list A) :
  subseq a b -> subseq c d -> subseq (a ++ c) (b ++ d).
Proof.
  induction 1 as [|x l1 l2 H IH|x l1 l2 H IH]; simpl; intros Hcd;
    [assumption|apply subseq_skip; auto|apply subseq_take; auto].
Qed.

Lemma subseq_widen (a b rest : list A) :
  subseq a b -> subseq a (b ++ rest).
Proof.
  intros Hab. rewrite <- (app_nil_r a).
  apply subseq_app; [assumption|apply subseq_nil_l].
Qed.

Lemma subseq_length (l1 l2 : list A) :
  subseq l1 l2 -> (List.length l1 <= List.length l2)%nat.
Proof. induction 1; simpl; lia. Qed.

Lemma subseq_In (l1 l2 : list A) (x : A) :
  subseq l1 l2 -> In x l1 -> In x l2.
Proof.
  induction 1 as [|y l1 l2 H IH|y l1 l2 H IH]; simpl; intros Hin;
    [assumption|right; auto|destruct Hin; [left|right]; auto].
Qed.

Lemma subseq_sorted (lt : A -> A -> Prop) (l1 l2 : list A) :
  subseq l1 l2 -> StronglySorted lt l2 -> StronglySorted lt l1.
Proof.
  induction 1 as [|y l1 l2 H IH|y l1 l2 H IH]; intros Hs.
  - constructor.
  - inversion Hs; subst. auto.
  - inversion Hs as [|? ? Hl Hall]; subst. constructor; [auto|].
    apply Forall_forall. intros z Hz.
    apply (proj1 (Forall_forall _ _) Hall). eapply subseq_In; eauto.
Qed.

End SubseqFacts.

Lemma last_lower (x : Z) (l : list Z) :
  forall d, Forall (Z.lt x) l -> x <= d -> x <= List.last l d.
Proof.
  induction l as [|y l IH]; intros d Hall Hd; [assumption|].
  rewrite last_cons. inversion Hall; subst. apply IH; [assumption|lia].
Qed.

Lemma last_default_or_In {A : Type} (l : list A) :
  forall d, List.last l d = d \/ In (List.last l d) l.
Proof.
  induction l as [|y l IH]; intros d; [now left|].
  rewrite last_cons. right. destruct (IH y) as [->|Hin]; [now left|now right].
Qed.

(** Strictly growing times stay so with one second after the last. *)
Lemma sorted_then_after_last (l : list Z) :
  StronglySorted Z.lt l ->
  forall d, StronglySorted Z.lt (l ++ [List.last l d + 1]).
Proof.
  induction 1 as [|x l Hs IH Hall]; intros d.
  - repeat constructor.
  - rewrite last_cons. cbn [app]. constructor; [apply IH|].
    apply Forall_app. split; [assumption|].
    constructor; [|constructor].
    pose proof (last_lower x l x Hall (Z.le_refl x)). lia.
Qed.

(** The time of the forced payment. *)
Lemma forced_time (attempt_times : list Z) (d : Z) :
  match rev attempt_times with
  | last :: _ => last + 1
  | [] => d + 1
  end = List.last attempt_times d + 1.
Proof.
  destruct attempt_times as [|t l] using rev_ind; [reflexivity|].
  rewrite rev_app_distr, last_last. reflexivity.
Qed.

Section DateFacts.
Import PyDict PyRandom Payments.
Context {R : RandomSource}.
Variable cfg : Config.
Variable method_id_by_code : dict string Z.
Variable status_id_by_code : dict string Z.
Variable order : OrderInfo.
Hypothesis cfg_wf : wf (PAYMENT_METHOD_CONFIG cfg).

(** After the rounds at the times [seen], the payment dates of the rows
    appended so far are some of [seen], in the same sequence. *)
Definition dated_inv (rows0 : list Row) (seen : list datetime)
    (st : LoopState) : Prop :=
  exists new,
    rows st = rows0 ++ new /\ subseq (map row_payment_date new) seen.

Lemma dated_inv_step (rows0 : list Row) (seen : list datetime)
    (t : datetime) (st : LoopState) (fl : flow) :
  dated_inv rows0 seen st ->
  attempt_outcome cfg method_id_by_code status_id_by_code order t st fl ->
  dated_inv rows0 (seen ++ [t]) (flow_state fl).
Proof.
  intros [new [Hrows Hsub]] Hout.
  pose proof (subseq_widen _ _ [t] Hsub) as Hskip.
  assert (Htake : forall r, row_payment_date r = t ->
            subseq (map row_payment_date (new ++ [r])) (seen ++ [t])).
  { intros r <-. rewrite map_app. apply subseq_app; [assumption|].
    apply subseq_take, subseq_nil. }
  outcome_cases Hout; unfold dated_inv; simpl.
  - exists new. tauto.
  - exists new. rewrite Hr. tauto.
  - exists new. rewrite app_nil_r, Hr. tauto.
  - eexists. rewrite Hr, Hrows, <- app_assoc. split; [reflexivity|].
    now apply Htake.
  - eexists. rewrite Hr, Hrows, <- app_assoc. split; [reflexivity|].
    now apply Htake.
Qed.

Lemma attempt_loop_dated (rows0 : list Row) :
  forall (attempt_times seen : list datetime) (rng rng' : rng_state)
         (st st' : LoopState),
    dated_inv rows0 seen st ->
    attempt_loop cfg method_id_by_code status_id_by_code order attempt_times
                 rng st = Ok (st', rng') ->
    dated_inv rows0 (seen ++ attempt_times) st'.
Proof.
  induction attempt_times as [|t later IH]; simpl;
    intros seen rng rng' st st' Hinv Hl.
  - inversion Hl; subst. now rewrite app_nil_r.
  - apply bind_Ok in Hl. destruct Hl as [[fl rng1] [Hs Hl]].
    apply attempt_step_outcome in Hs; [|assumption].
    pose proof (dated_inv_step rows0 seen t st fl Hinv Hs) as Hstep.
    destruct fl as [st1|st1]; simpl in Hstep.
    + pose proof (IH _ _ _ _ _ Hstep Hl) as Hend.
      now rewrite <- app_assoc in Hend.
    + inversion Hl; subst. destruct Hstep as [new [Hrows Hsub]].
      exists new. split; [assumption|].
      change (t :: later) with ([t] ++ later). rewrite app_assoc.
      now apply subseq_widen.
Qed.

(** The rows of an order are the rows of its attempts, dated at some of
    the attempt times in their sequence, and then the forced payment if
    there is one, dated one second after the last attempt time. *)
Lemma simulate_order_attempts (fuel : nat) (method_weights : dict string Q)
    (rows0 rows1 : list Row) (rng rng' : rng_state) :
  simulate_order cfg method_id_by_code status_id_by_code fuel method_weights
                 rows0 rng order = Ok (rows1, rng') ->
  exists attempts forced planned attempt_times rng1 rng2,
    rows1 = rows0 ++ attempts ++ forced /\
    planned <= MAX_GLOBAL_ATTEMPTS cfg /\
    sorted_attempt_times cfg fuel rng1 (order_date order) planned =
      Ok (attempt_times, rng2) /\
    subseq (map row_payment_date attempts) attempt_times /\
    (forced = [] \/
     exists r,
       forced = [r] /\ order_status order <> 5 /\
       paid_row status_id_by_code order r /\
       row_payment_date r =
         List.last attempt_times (order_date order) + 1).
Proof.
  unfold simulate_order. intros Hs.
  apply bind_Ok in Hs. destruct Hs as [[planned rng1] [Hdraw Hs]].
  apply bind_Ok in Hs. destruct Hs as [[attempt_times rng2] [Htimes Hs]].
  apply bind_Ok in Hs. destruct Hs as [[current rng3] [_ Hs]].
  apply bind_Ok in Hs. destruct Hs as [[st rng4] [Hloop Hs]].
  apply bind_Ok in Hs. destruct Hs as [st' [Hforce Hs]].
  inversion Hs; subst.
  assert (Hplanned : planned <= MAX_GLOBAL_ATTEMPTS cfg).
  { unfold draw_total_attempts_planned in Hdraw.
    apply bind_Ok in Hdraw. destruct Hdraw as [w [_ Hdraw]].
    apply bind_Ok in Hdraw. destruct Hdraw as [[n r] [_ Hdraw]].
    inversion Hdraw; subst. lia. }
  apply (attempt_loop_dated rows0 attempt_times []) in Hloop;
    [|exists []; simpl; rewrite app_nil_r; split; [reflexivity|constructor]].
  destruct Hloop as [new [Hrows Hsub]]. simpl in Hsub.
  apply forced_resolution_cases in Hforce.
  destruct Hforce as [[-> _]|[_ [H5 [mid [status [Hst [_ [Hr _]]]]]]]].
  - exists new, [], planned, attempt_times, rng1, rng2.
    rewrite app_nil_r. repeat split; try assumption. now left.
  - eexists new, [_], planned, attempt_times, rng1, rng2.
    rewrite Hr, Hrows, <- app_assoc.
    repeat split; try assumption.
    right. eexists. split; [reflexivity|]. split; [assumption|].
    split; [|simpl; apply forced_time].
    unfold paid_row. simpl. tauto.
Qed.

(** The payment dates of the rows of an order are some of its attempt
    times, with or without the second after the last one, at which a
    forced payment is dated. *)
Lemma simulate_order_dates (fuel : nat) (method_weights : dict string Q)
    (rows0 rows1 : list Row) (rng rng' : rng_state) :
  simulate_order cfg method_id_by_code status_id_by_code fuel method_weights
                 rows0 rng order = Ok (rows1, rng') ->
  exists emitted planned attempt_times rng1 rng2,
    rows1 = rows0 ++ emitted /\
    planned <= MAX_GLOBAL_ATTEMPTS cfg /\
    sorted_attempt_times cfg fuel rng1 (order_date order) planned =
      Ok (attempt_times, rng2) /\
    subseq (map row_payment_date emitted)
           (attempt_times ++
            [List.last attempt_times (order_date order) + 1]).
Proof.
  intros Hs.
  destruct (simulate_order_attempts _ _ _ _ _ _ Hs)
    as [attempts [forced [planned [times [rng1 [rng2
         [-> [Hp [Ht [Hsub Hforced]]]]]]]]]].
  exists (attempts ++ forced), planned, times, rng1, rng2.
  repeat split; try assumption.
  rewrite map_app. apply subseq_app; [assumption|].
  destruct Hforced as [->|[r [-> [_ [_ Hdate]]]]].
  - apply subseq_nil_l.
  - simpl. rewrite Hdate. apply subseq_take, subseq_nil.
Qed.

End DateFacts.

(** A run in which the first order fails twice with [card] and is paid
    with [mbway] at the third attempt, and the second order is paid at
    once. *)
Definition retry_tape : list Q := [0.9; 0.1; 0.99; 0.1; 0.99; 0.9; 0.5; 0.1]%Q.

Definition retry_rows : list Payments.Row :=
  let row := Payments.Build_Row in
  [row 101 1 1001 0%Q 1 3; row 101 2 1002 0%Q 1 3; row 101 3 1003 100%Q 3 2;
   row 102 1 5004 50%Q 1 2].

Lemma retry_run :
  Payments.generate_rows (R := scripted retry_tape) Payments.script_config
    (Sample.method_ids Sample.db) (Sample.status_ids Sample.db) 10
    (Payments.build_method_weights Payments.script_config) []
    (@Random (scripted retry_tape) 42) [Sample.delivered; Sample.cancelled] =
  Ok (retry_rows, ([], 4%nat)).
Proof. vm_compute. reflexivity. Qed.

(** A run over four orders: the first fails twice and gets a forced
    payment, the second is cancelled and fails once, the third is paid
    at its first attempt, the fourth is cancelled and is paid at its
    second attempt. *)
Definition shipped : Payments.OrderInfo :=
  {| Payments.order_id := 103; Payments.order_date := 9000;
     Payments.order_status := 3; Payments.order_total := 20%Q |}.

Definition cancelled_late : Payments.OrderInfo :=
  {| Payments.order_id := 104; Payments.order_date := 12000;
     Payments.order_status := 5; Payments.order_total := 30%Q |}.

Definition mixed_orders : list Payments.OrderInfo :=
  [Sample.delivered; Sample.cancelled; shipped; cancelled_late].

Definition mixed_tape : list Q :=
  [0.5; 0.1; 0.99; 0.1; 0.99; 0.1; 0.1; 0.99; 0.1; 0.7; 0.1;
   0.5; 0.1; 0.99; 0.1; 0.1]%Q.

Definition mixed_rows : list Payments.Row :=
  let row := Payments.Build_Row in
  [row 101 1 1001 0%Q 1 3; row 101 2 1002 0%Q 1 3; row 101 3 1003 100%Q 1 2;
   row 102 1 5003 0%Q 1 3;
   row 103 1 9004 20%Q 2 2;
   row 104 1 12005 0%Q 1 3; row 104 2 12006 30%Q 1 2].

Lemma mixed_run :
  Payments.generate_rows (R := scripted mixed_tape) Payments.script_config
    (Sample.method_ids Sample.db) (Sample.status_ids Sample.db) 4
    (Payments.build_method_weights Payments.script_config) []
    (@Random (scripted mixed_tape) 42) mixed_orders =
  Ok (mixed_rows, ([], 6%nat)).
Proof. vm_compute. reflexivity. Qed.

Lemma mixed_orders_distinct : NoDup (map Payments.order_id mixed_orders).
Proof. repeat constructor; simpl; intuition discriminate. Qed.

(** In strictly growing times every time is at most the last. *)
Lemma sorted_upto_last (l : list Z) :
  StronglySorted Z.lt l -> forall d, Forall (fun t => t <= List.last l d) l.
Proof.
  induction 1 as [|x l Hs IH Hall]; intros d; [constructor|].
  rewrite last_cons. constructor.
  - exact (last_lower x l x Hall (Z.le_refl x)).
  - apply IH.
Qed.

Section DateProperties.
Import PyDict PyRandom Payments.

(** X8. In a run, the payment dates of the rows of each order grow
    strictly, in the sequence in which the rows are written. The rows
    of an order, which all carry its id, are the rows of its attempts,
    dated at some of the attempt times drawn for the order, followed by
    at most one forced payment, of an order that is not cancelled,
    dated one second after the last attempt time and so after every
    attempt. With distinct order ids the rows of an order are the rows
    of the run with its id. *)
Theorem payment_dates_strictly_increase :
  forall (R : RandomSource) (cfg : Config)
         (method_id_by_code status_id_by_code : dict string Z)
         (fuel : nat) (method_weights : dict string Q)
         (rows0 rows : list Row) (rng rng' : rng_state)
         (orders : list OrderInfo),
    wf (PAYMENT_METHOD_CONFIG cfg) ->
    generate_rows cfg method_id_by_code status_id_by_code fuel method_weights
                  rows0 rng orders = Ok (rows, rng') ->
    exists per_order,
      rows = rows0 ++ List.concat per_order /\
      Forall2
        (fun (order : OrderInfo) emitted =>
           Forall (fun r => row_order_id r = order_id order) emitted /\
           (StronglySorted Z.lt (map row_payment_date emitted) /\
            exists attempts forced planned attempt_times rng1 rng2,
              emitted = attempts ++ forced /\
              sorted_attempt_times cfg fuel rng1 (order_date order) planned =
                Ok (attempt_times, rng2) /\
              subseq (map row_payment_date attempts) attempt_times /\
              (forced = [] \/
               exists r,
                 forced = [r] /\ order_status order <> 5 /\
                 paid_row status_id_by_code order r /\
                 row_payment_date r =
                   List.last attempt_times (order_date order) + 1 /\
                 Forall (fun t => t < row_payment_date r) attempt_times)))
        orders per_order /\
      (NoDup (map order_id orders) ->
       Forall2
         (fun order emitted =>
            emitted = rows_of_order order (List.concat per_order))
         orders per_order).
Proof.
  intros R cfg method_id_by_code status_id_by_code fuel method_weights
         rows0 rows rng rng' orders Hwf Hgen.
  apply (generate_rows_by_order cfg method_id_by_code status_id_by_code Hwf
           _ fuel method_weights) with (2 := Hgen).
  clear - Hwf. intros rows0 rows1 rng rng' order Hs.
  destruct (simulate_order_attempts cfg _ _ order Hwf _ _ _ _ _ _ Hs)
    as [attempts [forced [planned [times [rng1 [rng2
         [-> [_ [Ht [Hsub Hforced]]]]]]]]]].
  exists (attempts ++ forced). split; [reflexivity|].
  destruct (sorted_attempt_times_facts cfg (fun _ => True) _ _ _ _ _ _
              (fun _ => I) Ht) as [Hsorted _].
  split.
  - apply (subseq_sorted Z.lt _
             (times ++ [List.last times (order_date order) + 1])).
    + rewrite map_app. apply subseq_app; [assumption|].
      destruct Hforced as [->|[r [-> [_ [_ Hdate]]]]].
      * apply subseq_nil_l.
      * simpl. rewrite Hdate. apply subseq_take, subseq_nil.
    + now apply sorted_then_after_last.
  - exists attempts, forced, planned, times, rng1, rng2.
    split; [reflexivity|]. split; [exact Ht|]. split; [exact Hsub|].
    destruct Hforced as [->|[r [-> [H5 [Hpaid Hdate]]]]]; [now left|].
    right. exists r. repeat split; try assumption; try apply Hpaid.
    eapply Forall_impl;
      [|exact (sorted_upto_last times Hsorted (order_date order))].
    intros t Hle. simpl in Hle. rewrite Hdate. unfold datetime in *. lia.
Qed.

(** X9. With a generator whose [randint(a, b)] lies in [[a, b]], every
    payment of an order, a row with the id of the order, is dated
    after the order, and no later than
    [max(1, PAYMENT_WINDOW_SECONDS - 2) + 1] seconds after it: inside
    the payment window when the window has three seconds or more. *)
Theorem payment_dates_in_window :
  forall (R : RandomSource) (cfg : Config)
         (method_id_by_code status_id_by_code : dict string Z)
         (fuel : nat) (method_weights : dict string Q)
         (rows0 rows : list Row) (rng rng' : rng_state)
         (orders : list OrderInfo),
    (forall a b s, a <= b -> a <= fst (randint a b s) <= b) ->
    wf (PAYMENT_METHOD_CONFIG cfg) ->
    generate_rows cfg method_id_by_code status_id_by_code fuel method_weights
                  rows0 rng orders = Ok (rows, rng') ->
    exists per_order,
      rows = rows0 ++ List.concat per_order /\
      Forall2
        (fun (order : OrderInfo) emitted =>
           Forall (fun r => row_order_id r = order_id order) emitted /\
           Forall (fun r =>
                     order_date order < row_payment_date r <=
                     order_date order +
                       Z.max 1 (PAYMENT_WINDOW_SECONDS cfg - 2) + 1)
                  emitted)
        orders per_order /\
      (NoDup (map order_id orders) ->
       Forall2
         (fun order emitted =>
            emitted = rows_of_order order (List.concat per_order))
         orders per_order).
Proof.
  intros R cfg method_id_by_code status_id_by_code fuel method_weights
         rows0 rows rng rng' orders Hlaw Hwf Hgen.
  apply (generate_rows_by_order cfg method_id_by_code status_id_by_code Hwf
           _ fuel method_weights) with (2 := Hgen).
  clear - Hlaw Hwf. intros rows0 rows1 rng rng' order Hs.
  apply (simulate_order_dates cfg _ _ order Hwf) in Hs.
  destruct Hs as [emitted [planned [times [rng1 [rng2 [-> [_ [Ht Hsub]]]]]]]].
  exists emitted. split; [reflexivity|].
  set (max_seconds := Z.max 1 (PAYMENT_WINDOW_SECONDS cfg - 2)) in *.
  assert (Hdraw : forall s, 1 <= fst (randint 1 max_seconds s) <= max_seconds)
    by (intros s; apply Hlaw; subst max_seconds; lia).
  destruct (sorted_attempt_times_facts cfg (fun x => 1 <= x <= max_seconds)
              _ _ _ _ _ _ Hdraw Ht) as [_ [_ Hall]].
  apply Forall_forall. intros r Hr.
  assert (Hin : In (row_payment_date r)
                   (times ++ [List.last times (order_date order) + 1])).
  { eapply subseq_In; [exact Hsub|]. now apply in_map. }
  apply in_app_or in Hin. destruct Hin as [Hin|[Hlast|[]]].
  - pose proof (proj1 (Forall_forall _ _) Hall _ Hin) as Hb.
    simpl in Hb. lia.
  - rewrite <- Hlast.
    destruct (last_default_or_In times (order_date order)) as [->|Hin];
      [lia|].
    pose proof (proj1 (Forall_forall _ _) Hall _ Hin) as Hb.
    simpl in Hb. lia.
Qed.

(** X10. An order never has more than [MAX_GLOBAL_ATTEMPTS + 1] rows,
    the rows with its id: one for each attempt time at most, and one
    for a forced payment. *)
Theorem rows_per_order_bounded :
  forall (R : RandomSource) (cfg : Config)
         (method_id_by_code status_id_by_code : dict string Z)
         (fuel : nat) (method_weights : dict string Q)
         (rows0 rows : list Row) (rng rng' : rng_state)
         (orders : list OrderInfo),
    wf (PAYMENT_METHOD_CONFIG cfg) ->
    generate_rows cfg method_id_by_code status_id_by_code fuel method_weights
                  rows0 rng orders = Ok (rows, rng') ->
    exists per_order,
      rows = rows0 ++ List.concat per_order /\
      Forall2
        (fun (order : OrderInfo) emitted =>
           Forall (fun r => row_order_id r = order_id order) emitted /\
           Z.of_nat (List.length emitted) <=
           Z.max 0 (MAX_GLOBAL_ATTEMPTS cfg) + 1)
        orders per_order /\
      (NoDup (map order_id orders) ->
       Forall2
         (fun order emitted =>
            emitted = rows_of_order order (List.concat per_order))
         orders per_order).
Proof.
  intros R cfg method_id_by_code status_id_by_code fuel method_weights
         rows0 rows rng rng' orders Hwf Hgen.
  apply (generate_rows_by_order cfg method_id_by_code status_id_by_code Hwf
           _ fuel method_weights) with (2 := Hgen).
  clear - Hwf. intros rows0 rows1 rng rng' order Hs.
  apply (simulate_order_dates cfg _ _ order Hwf) in Hs.
  destruct Hs as [emitted [planned [times [rng1 [rng2 [-> [Hp [Ht Hsub]]]]]]]].
  exists emitted. split; [reflexivity|].
  destruct (sorted_attempt_times_facts cfg (fun _ => True) _ _ _ _ _ _
              (fun _ => I) Ht) as [_ [Hlen _]].
  apply subseq_length in Hsub.
  rewrite length_map, length_app, Hlen in Hsub. simpl in Hsub. lia.
Qed.

Lemma payment_dates_strictly_increase_witness :
  exists per_order,
    mixed_rows = [] ++ List.concat per_order /\
    Forall2
      (fun (order : OrderInfo) emitted =>
         Forall (fun r => row_order_id r = order_id order) emitted /\
         (StronglySorted Z.lt (map row_payment_date emitted) /\
          exists attempts forced planned attempt_times rng1 rng2,
            emitted = attempts ++ forced /\
            sorted_attempt_times (R := scripted mixed_tape) script_config 4
              rng1 (order_date order) planned = Ok (attempt_times, rng2) /\
            subseq (map row_payment_date attempts) attempt_times /\
            (forced = [] \/
             exists r,
               forced = [r] /\ order_status order <> 5 /\
               paid_row (Sample.status_ids Sample.db) order r /\
               row_payment_date r =
                 List.last attempt_times (order_date order) + 1 /\
               Forall (fun t => t < row_payment_date r) attempt_times)))
      mixed_orders per_order /\
    (NoDup (map order_id mixed_orders) ->
     Forall2
       (fun order emitted =>
          emitted = rows_of_order order (List.concat per_order))
       mixed_orders per_order).
Proof.
  exact (payment_dates_strictly_increase (scripted mixed_tape) script_config
           (Sample.method_ids Sample.db) (Sample.status_ids Sample.db)
           4%nat (build_method_weights script_config) [] mixed_rows
           (@Random (scripted mixed_tape) 42) ([], 6%nat) mixed_orders
           (wf_of_items _) mixed_run).
Defined.

Lemma payment_dates_in_window_witness :
  exists per_order,
    mixed_rows = [] ++ List.concat per_order /\
    Forall2
      (fun (order : OrderInfo) emitted =>
         Forall (fun r => row_order_id r = order_id order) emitted /\
         Forall (fun r =>
                   order_date order < row_payment_date r <=
                   order_date order +
                     Z.max 1 (PAYMENT_WINDOW_SECONDS script_config - 2) + 1)
                emitted)
      mixed_orders per_order /\
    (NoDup (map order_id mixed_orders) ->
     Forall2
       (fun order emitted =>
          emitted = rows_of_order order (List.concat per_order))
       mixed_orders per_order).
Proof.
  exact (payment_dates_in_window (scripted mixed_tape) script_config
           (Sample.method_ids Sample.db) (Sample.status_ids Sample.db)
           4%nat (build_method_weights script_config) [] mixed_rows
           (@Random (scripted mixed_tape) 42) ([], 6%nat) mixed_orders
           (scripted_randint_range mixed_tape) (wf_of_items _) mixed_run).
Defined.

Lemma rows_per_order_bounded_witness :
  exists per_order,
    mixed_rows = [] ++ List.concat per_order /\
    Forall2
      (fun (order : OrderInfo) emitted =>
         Forall (fun r => row_order_id r = order_id order) emitted /\
         Z.of_nat (List.length emitted) <=
         Z.max 0 (MAX_GLOBAL_ATTEMPTS script_config) + 1)
      mixed_orders per_order /\
    (NoDup (map order_id mixed_orders) ->
     Forall2
       (fun order emitted =>
          emitted = rows_of_order order (List.concat per_order))
       mixed_orders per_order).
Proof.
  exact (rows_per_order_bounded (scripted mixed_tape) script_config
           (Sample.method_ids Sample.db) (Sample.status_ids Sample.db)
           4%nat (build_method_weights script_config) [] mixed_rows
           (@Random (scripted mixed_tape) 42) ([], 6%nat) mixed_orders
           (wf_of_items _) mixed_run).
Defined.

End DateProperties.

(* ------------------------------------------------------------------ *)
(** ** The ids written in the rows *)

Section ReferenceFacts.
Import PyDict PyRandom Payments.
Context {R : RandomSource}.
Variable cfg : Config.
Variable method_id_by_code : dict string Z.
Variable status_id_by_code : dict string Z.
Hypothesis cfg_wf : wf (PAYMENT_METHOD_CONFIG cfg).

(** The method id of the row is the id of some method, its status id
    that of [paid] or of [failed]. *)
Definition known_ids (r : Row) : Prop :=
  In (row_payment_method_id r) (values method_id_by_code) /\
  (get status_id_by_code "paid" = Some (row_payment_status_id r) \/
   get status_id_by_code "failed" = Some (row_payment_status_id r)).

Definition known_inv (rows0 : list Row) (st : LoopState) : Prop :=
  exists new, rows st = rows0 ++ new /\ Forall known_ids new.

Lemma get_In_values {V : Type} (d : dict string V) (k : string) (v : V) :
  get d k = Some v -> In v (values d).
Proof.
  intros Hg. apply get_In in Hg. change v with (snd (k, v)).
  now apply in_map.
Qed.

Lemma known_inv_step (order : OrderInfo) (rows0 : list Row) (t : datetime)
    (st : LoopState) (fl : flow) :
  known_inv rows0 st ->
  attempt_outcome cfg method_id_by_code status_id_by_code order t st fl ->
  known_inv rows0 (flow_state fl).
Proof.
  intros [new [Hrows Hall]] Hout.
  outcome_cases Hout; unfold known_inv; simpl.
  - exists new. tauto.
  - exists new. rewrite Hr. tauto.
  - exists new. rewrite app_nil_r, Hr. tauto.
  - eexists. rewrite Hr, Hrows, <- app_assoc. split; [reflexivity|].
    apply Forall_app. split; [assumption|]. constructor; [|constructor].
    split; simpl; [eapply get_In_values; eauto|now left].
  - eexists. rewrite Hr, Hrows, <- app_assoc. split; [reflexivity|].
    apply Forall_app. split; [assumption|]. constructor; [|constructor].
    split; simpl; [eapply get_In_values; eauto|now right].
Qed.

Lemma forced_resolution_known (order : OrderInfo)
    (attempt_times : list datetime) (rows0 : list Row)
    (st st' : LoopState) :
  known_inv rows0 st ->
  forced_resolution method_id_by_code status_id_by_code order
                    attempt_times st = Ok st' ->
  known_inv rows0 st'.
Proof.
  intros [new [Hrows Hall]]. unfold forced_resolution.
  destruct (paid st); [intros [= <-]; exists new; tauto|].
  destruct (negb (order_status order =? 5));
    [|intros [= <-]; exists new; tauto].
  intros Hf.
  apply bind_Ok in Hf. destruct Hf as [method_id [Hid Hf]].
  apply bind_Ok in Hf. destruct Hf as [status [Hs Hf]].
  apply subscript_Ok in Hs. inversion Hf; subst. simpl.
  eexists. rewrite Hrows, <- app_assoc. split; [reflexivity|].
  apply Forall_app. split; [assumption|]. constructor; [|constructor].
  split; simpl; [|now left].
  destruct (get method_id_by_code (current_method st)) as [i|] eqn:E.
  - inversion Hid; subst. eapply get_In_values; eauto.
  - destruct (values method_id_by_code) as [|i l]; [discriminate|].
    inversion Hid; subst. now left.
Qed.

Lemma simulate_order_known (fuel : nat) (method_weights : dict string Q)
    (rows0 rows1 : list Row) (rng rng' : rng_state) (order : OrderInfo) :
  simulate_order cfg method_id_by_code status_id_by_code fuel method_weights
                 rows0 rng order = Ok (rows1, rng') ->
  exists emitted, rows1 = rows0 ++ emitted /\ Forall known_ids emitted.
Proof.
  intros Hs. apply simulate_order_stages in Hs.
  destruct Hs as [attempt_times [current [rng3 [st [st' [Hl [Hf ->]]]]]]].
  assert (Hinit : known_inv rows0 (initial_state cfg current rows0))
    by (exists []; simpl; rewrite app_nil_r; split; [reflexivity|constructor]).
  pose proof (attempt_loop_invariant cfg method_id_by_code status_id_by_code
                order cfg_wf (known_inv rows0)
                (fun t s fl => known_inv_step order rows0 t s fl)
                _ _ _ _ _ Hinit Hl) as Hinv.
  exact (forced_resolution_known order attempt_times rows0 st st' Hinv Hf).
Qed.

End ReferenceFacts.

Section ReferenceProperties.
Import PyDict PyRandom Payments.

Lemma inverted_values (g : string -> string) (d : list (Z * string))
    (i : Z) :
  In i (values (of_items (map (fun ic => (g (snd ic), fst ic))
                              (of_items d)))) ->
  In i (map fst d).
Proof.
  intros Hin. unfold values in Hin. apply in_map_iff in Hin.
  destruct Hin as [[s i'] [Hi Hin]]. simpl in Hi. subst i'.
  apply In_of_items, in_map_iff in Hin.
  destruct Hin as [[i' c] [E Hin]]. simpl in E. inversion E; subst.
  apply In_of_items in Hin. change i with (fst (i, c)). now apply in_map.
Qed.

(** X11. The rows of a run refer to the tables that were read: the
    method id of every row is the id of a row of [payment_methods], and
    its status id is the id of a row of [payment_status], the one
    registered for [paid] or for [failed]. *)
Theorem rows_reference_fetched_tables :
  forall (R : RandomSource) (cfg : Config) (db : Database)
         (m_id_to_code s_id_to_code : dict Z string)
         (method_id_by_code status_id_by_code : dict string Z)
         (fuel : nat) (method_weights : dict string Q)
         (rows : list Row) (rng rng' : rng_state) (orders : list OrderInfo),
    wf (PAYMENT_METHOD_CONFIG cfg) ->
    fetch_payment_methods db = Ok (m_id_to_code, method_id_by_code) ->
    fetch_payment_statuses db = Ok (s_id_to_code, status_id_by_code) ->
    generate_rows cfg method_id_by_code status_id_by_code fuel method_weights
                  [] rng orders = Ok (rows, rng') ->
    Forall (fun r =>
              In (row_payment_method_id r) (map fst (payment_methods db)) /\
              In (row_payment_status_id r) (map fst (payment_status db)) /\
              (get status_id_by_code "paid" = Some (row_payment_status_id r) \/
               get status_id_by_code "failed" = Some (row_payment_status_id r)))
           rows.
Proof.
  intros R cfg db m_id_to_code s_id_to_code method_id_by_code
         status_id_by_code fuel method_weights rows rng rng' orders
         Hwf Hm Hs Hgen.
  destruct (generate_rows_per_order cfg method_id_by_code status_id_by_code
              (fun _ emitted =>
                 Forall (known_ids method_id_by_code status_id_by_code)
                        emitted)
              fuel method_weights
              (simulate_order_known cfg method_id_by_code status_id_by_code
                 Hwf fuel method_weights)
              orders [] rows rng rng' Hgen) as [per_order [-> Hall]].
  cbn [app]. clear Hgen.
  unfold fetch_payment_methods in Hm. unfold fetch_payment_statuses in Hs.
  destruct (payment_methods db) as [|mrow mrows] eqn:Em; [discriminate|].
  destruct (payment_status db) as [|srow srows] eqn:Es; [discriminate|].
  inversion Hm; subst. inversion Hs; subst. clear Hm Hs.
  induction Hall as [|order emitted orders' per_order' Hone Hall IH];
    [constructor|].
  cbn [List.concat]. apply Forall_app. split; [|exact IH].
  eapply Forall_impl; [|exact Hone].
  intros r [Hmid Hsid]. split; [|split; [|exact Hsid]].
  - exact (inverted_values (fun c => c) (mrow :: mrows) _ Hmid).
  - apply (inverted_values lower (srow :: srows)).
    destruct Hsid as [Hg|Hg]; eapply get_In_values; eauto.
Qed.

Lemma rows_reference_fetched_tables_witness :
  Forall (fun r =>
            In (row_payment_method_id r)
               (map fst (payment_methods Sample.db)) /\
            In (row_payment_status_id r)
               (map fst (payment_status Sample.db)) /\
            (get (Sample.status_ids Sample.db) "paid" =
               Some (row_payment_status_id r) \/
             get (Sample.status_ids Sample.db) "failed" =
               Some (row_payment_status_id r)))
         retry_rows.
Proof.
  exact (rows_reference_fetched_tables (scripted retry_tape) script_config
           Sample.db (of_items (payment_methods Sample.db))
           (of_items (payment_status Sample.db))
           (Sample.method_ids Sample.db) (Sample.status_ids Sample.db)
           10%nat (build_method_weights script_config) retry_rows
           (@Random (scripted retry_tape) 42) ([], 4%nat)
           [Sample.delivered; Sample.cancelled]
           (wf_of_items _) eq_refl eq_refl retry_run).
Defined.

End ReferenceProperties.

(* ------------------------------------------------------------------ *)
(** ** A whole run *)

Section BatchFacts.
Import Payments.

(** The loop invariant of [insert_payments_in_batches] for any batch
    size: the chunks sent so far and [buf] make up the rows met. *)
Definition sent_inv (conn : list statement) (done : list Row)
    (chunks : list (list Row)) (b : Buffer) : Prop :=
  sent b = conn ++ flushes chunks /\
  List.concat chunks ++ buf b = done /\
  total b = Z.of_nat (List.length (List.concat chunks)) /\
  batches b = Z.of_nat (List.length chunks).

Lemma buffer_step_sent (conn : list statement) (batch_size : Z)
    (done : list Row) (chunks : list (list Row)) (b : Buffer) (rec : Row) :
  sent_inv conn done chunks b ->
  exists chunks',
    sent_inv conn (done ++ [rec]) chunks' (buffer_step batch_size b rec).
Proof.
  intros [Hsent [Hrows [Htotal Hbatches]]]. unfold buffer_step.
  destruct (negb (batch_size =? 0) &&
            (batch_size <=? Z.of_nat (List.length (buf (append b rec))))).
  - exists (chunks ++ [buf b ++ [rec]]). unfold sent_inv. simpl.
    rewrite flushes_app, concat_app, Hsent, Htotal, Hbatches, <- Hrows.
    simpl. rewrite !app_nil_r, !length_app, <- !app_assoc. simpl.
    repeat split; lia.
  - exists chunks. unfold sent_inv. simpl.
    rewrite <- Hrows, <- app_assoc. tauto.
Qed.

Lemma buffer_fold_sent (conn : list statement) (batch_size : Z)
    (rows : list Row) :
  forall (done : list Row) (chunks : list (list Row)) (b : Buffer),
    sent_inv conn done chunks b ->
    exists chunks',
      sent_inv conn (done ++ rows) chunks'
               (fold_left (buffer_step batch_size) rows b).
Proof.
  induction rows as [|rec rows IH]; intros done chunks b Hinv; simpl.
  - exists chunks. now rewrite app_nil_r.
  - destruct (buffer_step_sent conn batch_size done chunks b rec Hinv)
      as [chunks1 Hstep].
    destruct (IH _ _ _ Hstep) as [chunks' Hend].
    exists chunks'. now rewrite <- app_assoc in Hend.
Qed.

(** Whatever the batch size, all rows are sent, in their sequence. *)
Lemma insert_payments_in_batches_all (conn : list statement)
    (rows : list Row) (batch_size : Z) :
  exists chunks,
    insert_payments_in_batches conn rows batch_size =
      (conn ++ flushes chunks,
       (Z.of_nat (List.length rows), Z.of_nat (List.length chunks))) /\
    List.concat chunks = rows.
Proof.
  unfold insert_payments_in_batches.
  destruct rows as [|r rows'] eqn:Erows.
  - exists []. simpl. now rewrite app_nil_r.
  - rewrite <- Erows. clear Erows r rows'.
    destruct (buffer_fold_sent conn batch_size rows [] []
                {| sent := conn; buf := []; total := 0; batches := 0 |})
      as [chunks [Hsent [Hrows [Htotal Hbatches]]]].
    { unfold sent_inv. simpl. now rewrite app_nil_r. }
    simpl in Hrows.
    set (b := fold_left (buffer_step batch_size) rows _) in *.
    destruct (buf b) as [|r0 rest] eqn:Ebuf.
    + exists chunks. rewrite app_nil_r in Hrows.
      rewrite Hsent, Htotal, Hbatches, Hrows. tauto.
    + exists (chunks ++ [r0 :: rest]). unfold flush. cbn [sent total batches].
      rewrite Ebuf, flushes_app, concat_app, Hsent, Htotal, Hbatches, <- Hrows.
      simpl. rewrite !app_nil_r, !length_app, <- !app_assoc. simpl.
      split; [|reflexivity]. repeat f_equal; lia.
Qed.

End BatchFacts.

Section RunFacts2.
Import PyDict PyRandom Payments.

Lemma of_items_nonempty {K V : Type} {HK : Key K} (l : list (K * V)) :
  l <> [] -> of_items l <> [].
Proof.
  destruct l as [|[k v] l]; [congruence|]. intros _ Hnil.
  assert (Hin : In k (keys (of_items ((k, v) :: l))))
    by (apply keys_of_items; now left).
  rewrite Hnil in Hin. exact Hin.
Qed.

Lemma fetched_methods_nonempty (db : Database) (id_to_code : dict Z string)
    (method_id_by_code : dict string Z) :
  fetch_payment_methods db = Ok (id_to_code, method_id_by_code) ->
  method_id_by_code <> [].
Proof.
  unfold fetch_payment_methods.
  destruct (payment_methods db) as [|row rows_]; [discriminate|].
  intros [= <- <-]. apply of_items_nonempty. unfold swap_items.
  intros Hnil. apply map_eq_nil in Hnil. revert Hnil.
  apply of_items_nonempty. discriminate.
Qed.

End RunFacts2.

Section RunProperties.
Import PyDict PyRandom Payments.

(** X12. A run on tables that can be used goes through. With a
    configuration whose methods are distinct and have positive weights,
    an attempt distribution that is valid, the three tables not empty,
    the statuses [paid] and [failed] registered, and attempt times that
    are drawn within the fuel, [run] raises nothing: it sends the
    DELETE (when [CLEAR_EXISTING_PAYMENTS]) and its commit, then the
    generated rows, all of them and in their sequence, in committed
    batches, then closes the connection, and it prints the number of
    rows, of orders and of batches. *)
Theorem run_completes :
  forall (R : RandomSource) (cfg : Config) (db : Database) (fuel : nat)
         (w : World) (seed : Z) (m_id_to_code s_id_to_code : dict Z string)
         (method_id_by_code status_id_by_code : dict string Z)
         (orders : list OrderInfo) (p f : Z),
    wf (PAYMENT_METHOD_CONFIG cfg) ->
    PAYMENT_METHOD_CONFIG cfg <> [] ->
    (forall m c, get (PAYMENT_METHOD_CONFIG cfg) m = Some c ->
                 (0 < get_weight c)%Q) ->
    wf (GLOBAL_ATTEMPT_DIST cfg) ->
    ~ invalid_distribution (GLOBAL_ATTEMPT_DIST cfg) ->
    (forall rng base_dt n,
       n <= MAX_GLOBAL_ATTEMPTS cfg ->
       exists res, sorted_attempt_times cfg fuel rng base_dt n = Ok res) ->
    fetch_payment_methods db = Ok (m_id_to_code, method_id_by_code) ->
    fetch_payment_statuses db = Ok (s_id_to_code, status_id_by_code) ->
    fetch_orders_with_totals db = Ok orders ->
    get status_id_by_code "paid" = Some p ->
    get status_id_by_code "failed" = Some f ->
    exists out rows rng' chunks,
      generate_rows cfg method_id_by_code status_id_by_code fuel
                    (build_method_weights cfg) [] (Random seed) orders =
        Ok (rows, rng') /\
      run cfg fuel w db seed = Ok out /\
      connection out =
        (if CLEAR_EXISTING_PAYMENTS cfg then [DeletePayments; Commit] else [])
        ++ flushes chunks ++ [Close] /\
      List.concat chunks = rows /\
      In (Inserted (Z.of_nat (List.length rows))
                   (Z.of_nat (List.length orders))
                   (Z.of_nat (List.length chunks)))
         (console out).
Proof.
  intros R cfg db fuel w seed m_id_to_code s_id_to_code method_id_by_code
         status_id_by_code orders p f Hwf Hcfg Hpos Hdwf Hvalid Htimes
         Hm Hs Ho Hp Hf.
  destruct (generate_rows_returns cfg method_id_by_code status_id_by_code
              fuel Hwf Hcfg Hpos Hdwf Hvalid
              (ex_intro _ p Hp) (ex_intro _ f Hf)
              (fetched_methods_nonempty db _ _ Hm) Htimes
              orders [] (Random seed)) as [rows [rng' Hgen]].
  destruct (insert_payments_in_batches_all
              (if CLEAR_EXISTING_PAYMENTS cfg
               then [DeletePayments; Commit] else [])
              rows (BATCH_SIZE cfg)) as [chunks [Hins Hchunks]].
  destruct (normalize_distribution_cases (GLOBAL_ATTEMPT_DIST cfg) Hdwf)
    as [[Hinv _]|[_ Hn]]; [contradiction|].
  eexists. exists rows, rng', chunks.
  split; [exact Hgen|].
  unfold run, GLOBAL_ATTEMPT_WEIGHTS, run_body.
  rewrite Hn, Hm, Hs, Ho. cbn [bind]. rewrite Hgen. cbn [bind].
  rewrite Hins.
  split; [reflexivity|]. cbn [connection console].
  split; [now rewrite <- app_assoc|].
  split; [assumption|]. right. now left.
Qed.

Lemma run_completes_witness :
  exists out rows rng' chunks,
    generate_rows (R := scripted retry_tape) script_config
      (Sample.method_ids Sample.db) (Sample.status_ids Sample.db) 4
      (build_method_weights script_config) []
      (@Random (scripted retry_tape) 42)
      [Sample.delivered; Sample.cancelled] = Ok (rows, rng') /\
    run (R := scripted retry_tape) script_config 4 Sample.world Sample.db 42
      = Ok out /\
    connection out =
      (if CLEAR_EXISTING_PAYMENTS script_config
       then [DeletePayments; Commit] else [])
      ++ flushes chunks ++ [Close] /\
    List.concat chunks = rows /\
    In (Inserted (Z.of_nat (List.length rows)) 2
                 (Z.of_nat (List.length chunks)))
       (console out).
Proof.
  exact (run_completes (scripted retry_tape) script_config Sample.db 4
           Sample.world 42
           (of_items (payment_methods Sample.db))
           (of_items (payment_status Sample.db))
           (Sample.method_ids Sample.db) (Sample.status_ids Sample.db)
           [Sample.delivered; Sample.cancelled] 2 3
           (wf_of_items _) ltac:(discriminate) script_weights_pos
           (wf_of_items _) script_dist_valid
           (scripted_times_drawn retry_tape)
           eq_refl eq_refl eq_refl eq_refl eq_refl).
Defined.

End RunProperties.

Section RollbackProperties.
Import PyDict PyRandom Payments.

(** X13. A run that finds one of its three tables empty changes
    nothing: the fetchers come before the DELETE, so the only statements
    on the connection are the rollback and the close, and the failure is
    printed instead of being raised. *)
Theorem run_empty_table_rolls_back :
  forall (R : RandomSource) (cfg : Config) (db : Database) (fuel : nat)
         (w : World) (seed : Z) (weights : dict Z Q),
    GLOBAL_ATTEMPT_WEIGHTS cfg = Ok weights ->
    payment_methods db = [] \/ payment_status db = [] \/
      orders_with_totals db = [] ->
    exists out msg,
      run cfg fuel w db seed = Ok out /\
      connection out = [Rollback; Close] /\
      List.last (console out) (RuntimeFailure "") = RuntimeFailure msg /\
      ~ In DeletePayments (connection out).
Proof.
  intros R cfg db fuel w seed weights Hw Hempty.
  assert (Hbody : exists msg,
            run_body cfg fuel w db (Random seed) = Raise (RuntimeError msg)).
  { unfold run_body, fetch_payment_methods, fetch_payment_statuses,
      fetch_orders_with_totals.
    destruct (payment_methods db) as [|mrow mrows]; [eexists; reflexivity|].
    destruct (payment_status db) as [|srow srows]; [eexists; reflexivity|].
    destruct (orders_with_totals db) as [|orow orows]; [eexists; reflexivity|].
    destruct Hempty as [H|[H|H]]; discriminate. }
  destruct Hbody as [msg Hbody].
  eexists. exists msg. unfold run. rewrite Hw. cbn [bind]. rewrite Hbody.
  split; [reflexivity|]. cbn [connection console List.last].
  split; [reflexivity|]. split; [reflexivity|].
  intros [H|[H|[]]]; discriminate.
Qed.

Lemma run_empty_table_rolls_back_witness :
  exists out msg,
    run (R := scripted []) script_config 4 Sample.world
        {| payment_methods := payment_methods Sample.db;
           payment_status := payment_status Sample.db;
           orders_with_totals := [] |} 42 = Ok out /\
    connection out = [Rollback; Close] /\
    List.last (console out) (RuntimeFailure "") = RuntimeFailure msg /\
    ~ In DeletePayments (connection out).
Proof.
  apply (run_empty_table_rolls_back (scripted []) script_config
           {| payment_methods := payment_methods Sample.db;
              payment_status := payment_status Sample.db;
              orders_with_totals := [] |} 4 Sample.world 42
           (map (fun kv => (fst kv, (snd kv / 100)%Q))
                (GLOBAL_ATTEMPT_DIST script_config))).
  - reflexivity.
  - right. right. reflexivity.
Defined.

End RollbackProperties.

(* ------------------------------------------------------------------ *)
(** * insert_order_items.py: the items of the orders *)

(** ** Dictionaries filled in a loop *)

Section FilledDicts.
Import PyDict.
Context {K V A : Type} {HK : Key K}.
Variable key : A -> K.
Variable val : A -> V.

(** [for a in l: d[key(a)] = val(a)]. *)
Definition filled (l : list A) (acc : dict K V) : dict K V :=
  fold_left (fun d a => set d (key a) (val a)) l acc.

Lemma get_set_cases (d : dict K V) (k k' : K) (v : V) :
  get (set d k v) k' = if key_eqb k k' then Some v else get d k'.
Proof.
  destruct (key_eqb k k') eqn:E.
  - apply key_eqb_eq in E. subst. apply get_set_same.
  - apply get_set_other. intros ->. rewrite key_eqb_refl in E. discriminate.
Qed.

Lemma filled_get (P : K -> V -> Prop) (l : list A) :
  (forall a, In a l -> P (key a) (val a)) ->
  forall acc,
    (forall k v, get acc k = Some v -> P k v) ->
    forall k v, get (filled l acc) k = Some v -> P k v.
Proof.
  unfold filled. induction l as [|a l IH]; simpl; intros Hl acc Hacc; [exact Hacc|].
  apply IH; [auto|]. intros k v. rewrite get_set_cases.
  destruct (key_eqb (key a) k) eqn:E; [|apply Hacc].
  intros [= <-]. apply key_eqb_eq in E. subst. auto.
Qed.

Lemma filled_keeps (l : list A) :
  forall acc k, get acc k <> None -> get (filled l acc) k <> None.
Proof.
  unfold filled. induction l as [|a l IH]; simpl; intros acc k Hk; [exact Hk|].
  apply IH. rewrite get_set_cases.
  destruct (key_eqb (key a) k); [discriminate|exact Hk].
Qed.

Lemma filled_has (l : list A) (a : A) :
  In a l -> forall acc, get (filled l acc) (key a) <> None.
Proof.
  induction l as [|b l IH]; intros Hin acc; [destruct Hin|].
  destruct Hin as [->|Hin].
  - apply (filled_keeps l). rewrite get_set_same. discriminate.
  - apply (IH Hin).
Qed.

Lemma filled_wf (l : list A) (acc : dict K V) : wf acc -> wf (filled l acc).
Proof.
  unfold filled. revert acc. induction l as [|a l IH]; simpl; intros acc Hacc.
  - assumption.
  - apply IH. now apply wf_set.
Qed.

End FilledDicts.

(** ** The products and their weights *)

Section CatalogFacts.
Import PyDict PyRandom OrderItems.

Definition product_of (row : Z * Decimal * Z * string) : Product :=
  match row with
  | (pid, price, cat_id, _) =>
      {| product_id := pid; price := price; category_id := cat_id |}
  end.

Definition row_pid (row : Z * Decimal * Z * string) : Z :=
  match row with (pid, _, _, _) => pid end.

Lemma fst_fold_products (rows : list (Z * Decimal * Z * string)) :
  forall acc : dict Z Product * dict Z string,
    fst (fold_left
           (fun acc row =>
              match row with
              | (pid, price, cat_id, cat_name) =>
                  (set (fst acc) pid
                       {| product_id := pid; price := price;
                          category_id := cat_id |},
                   set (snd acc) cat_id cat_name)
              end)
           rows acc) =
    filled row_pid product_of rows (fst acc).
Proof.
  induction rows as [|[[[pid pr] cat] name] rows IH]; intros acc;
    [reflexivity|].
  cbn [fold_left]. rewrite IH. reflexivity.
Qed.

(** The first dictionary of [fetch_products] on its own. *)
Lemma fetch_products_filled (db : Database) (products : dict Z Product)
    (category_names : dict Z string) :
  fetch_products db = Ok (products, category_names) ->
  products_with_category db <> [] /\
  products = filled row_pid product_of (products_with_category db) [].
Proof.
  unfold fetch_products.
  destruct (products_with_category db) as [|row rows] eqn:Erows;
    [discriminate|].
  intros [= Hp]. split; [discriminate|].
  apply (f_equal fst) in Hp. cbn [fst] in Hp. rewrite <- Hp.
  exact (fst_fold_products (row :: rows) ([], [])).
Qed.

(** What [fetch_products] returns as [products]: a product is kept
    under its own id, with the price and the category of a row of the
    result set, and there is at least one. *)
Lemma fetch_products_catalog (db : Database) (products : dict Z Product)
    (category_names : dict Z string) :
  fetch_products db = Ok (products, category_names) ->
  wf products /\ products <> [] /\
  forall pid p,
    get products pid = Some p ->
    product_id p = pid /\
    exists name,
      In (pid, price p, category_id p, name) (products_with_category db).
Proof.
  intros Hf. apply fetch_products_filled in Hf. destruct Hf as [Hne ->].
  split; [apply filled_wf; constructor|]. split.
  - destruct (products_with_category db) as [|row rows]; [congruence|].
    intros Hnil.
    apply (filled_has row_pid product_of (row :: rows) row (or_introl eq_refl) []).
    now rewrite Hnil.
  - apply (filled_get row_pid product_of
             (fun pid p => product_id p = pid /\
                exists name,
                  In (pid, price p, category_id p, name)
                     (products_with_category db))).
    + intros [[[pid pr] cat] name] Hin. simpl. split; [reflexivity|eauto].
    + intros k v. discriminate.
Qed.

Variable cfg : Config.

(** The weight that [product_weights] gives to a product. *)
Definition category_weight (category_names : dict Z string)
    (default_weight : Q) (p : Product) : Q :=
  match get category_names (category_id p) with
  | Some name =>
      match get (CATEGORY_WEIGHTS cfg) name with
      | Some w => w
      | None => default_weight
      end
  | None => default_weight
  end.

Lemma product_weights_filled (products : dict Z Product)
    (category_names : dict Z string) (default_weight : Q) :
  product_weights cfg products category_names default_weight =
  filled product_id (category_weight category_names default_weight)
         (values products) [].
Proof. reflexivity. Qed.

Lemma category_weight_pos (category_names : dict Z string)
    (default_weight : Q) (p : Product) :
  Forall (fun v => (0 < v)%Q) (values (CATEGORY_WEIGHTS cfg)) ->
  (0 < default_weight)%Q ->
  (0 < category_weight category_names default_weight p)%Q.
Proof.
  intros Hpos Hd. unfold category_weight.
  destruct (get category_names (category_id p)) as [name|]; [|assumption].
  destruct (get (CATEGORY_WEIGHTS cfg) name) as [w|] eqn:E; [|assumption].
  apply get_In in E.
  apply (proj1 (Forall_forall _ _) Hpos).
  change w with (snd (name, w)). now apply in_map.
Qed.

End CatalogFacts.

Section CatalogProperties.
Import PyDict PyRandom OrderItems.

(** X14. The weights of the products. When the weights of the
    categories and the default weight are positive, [product_weights]
    gives every product of the catalogue a positive weight, and it
    weighs nothing else: its keys are the ids of the products. For the
    products that [fetch_products] returns these are the keys of the
    catalogue. *)
Theorem product_weights_positive :
  forall (cfg : Config) (db : Database) (products : dict Z Product)
         (category_names : dict Z string) (default_weight : Q),
    Forall (fun v => (0 < v)%Q) (values (CATEGORY_WEIGHTS cfg)) ->
    (0 < default_weight)%Q ->
    fetch_products db = Ok (products, category_names) ->
    forall pid,
      (In pid (keys products) <->
       In pid (keys (product_weights cfg products category_names
                                     default_weight))) /\
      (forall w,
         get (product_weights cfg products category_names default_weight)
             pid = Some w ->
         (0 < w)%Q).
Proof.
  intros cfg db products category_names default_weight Hpos Hd Hf pid.
  destruct (fetch_products_catalog db products category_names Hf)
    as [Hwf [_ Hcat]].
  rewrite product_weights_filled. split; [split|].
  - intros Hin.
    destruct (get products pid) as [p|] eqn:Ep;
      [|apply get_None_notin in Ep; contradiction].
    destruct (Hcat pid p Ep) as [Hid _].
    assert (Hp : In p (values products)).
    { apply get_In in Ep. change p with (snd (pid, p)). now apply in_map. }
    pose proof (filled_has product_id
                  (category_weight cfg category_names default_weight)
                  (values products) p Hp []) as Hhas.
    rewrite Hid in Hhas.
    destruct (get (filled _ _ (values products) []) pid) as [w|] eqn:Ew;
      [|congruence].
    apply get_In in Ew. change pid with (fst (pid, w)). now apply in_map.
  - intros Hin.
    destruct (get (filled product_id
                     (category_weight cfg category_names default_weight)
                     (values products) []) pid) as [w|] eqn:Ew;
      [|apply get_None_notin in Ew; contradiction].
    revert Ew.
    apply (filled_get product_id
             (category_weight cfg category_names default_weight)
             (fun k _ => In k (keys products))).
    + intros p Hp. unfold values in Hp. apply in_map_iff in Hp.
      destruct Hp as [[k p'] [Hk Hp]]. simpl in Hk. subst p'.
      destruct (Hcat k p (In_get _ _ _ Hwf Hp)) as [-> _].
      change k with (fst (k, p)). now apply in_map.
    + intros k v. discriminate.
  - intros w.
    apply (filled_get product_id
             (category_weight cfg category_names default_weight)
             (fun _ v => (0 < v)%Q)).
    + intros p _. now apply category_weight_pos.
    + intros k v. discriminate.
Qed.

End CatalogProperties.

(** ** Sampling from products of positive weight *)

Section SamplingProgress.
Import PyDict PyRandom OrderItems.
Context {R : RandomSource}.
Variable weights_map : dict Z Q.

(** With positive weights every round of the loop picks a product. *)
Lemma sample_loop_returns (rounds : nat) :
  forall (rng : rng_state) (pool chosen : list Z),
    (rounds <= List.length pool)%nat ->
    Forall (fun pid => (0 < weight_of weights_map pid)%Q) pool ->
    exists res rng',
      sample_loop rounds rng pool (map (weight_of weights_map) pool) chosen =
        Ok (res, rng').
Proof.
  induction rounds as [|rounds IH]; intros rng pool chosen Hlen Hpos;
    cbn [sample_loop]; [eauto|].
  assert (Hne : pool <> []) by (destruct pool; [simpl in Hlen; lia|discriminate]).
  assert (Hsum : (0 < sum (map (weight_of weights_map) pool))%Q).
  { apply sum_pos; [destruct pool; [congruence|discriminate]|].
    apply Forall_forall. intros v Hv. apply in_map_iff in Hv.
    destruct Hv as [pid [<- Hpid]].
    exact (proj1 (Forall_forall _ _) Hpos pid Hpid). }
  destruct (choices_cases rng (seq 0 (List.length pool))
              (map (weight_of weights_map) pool))
    as [[Hle _]|[_ [idx [Hc Hidx]]]].
  - now rewrite length_map, length_seq.
  - destruct pool; [congruence|discriminate].
  - exfalso. exact (Qlt_not_le _ _ Hsum Hle).
  - rewrite Hc. cbn [bind]. apply in_seq in Hidx.
    destruct (nth_error pool idx) as [pid|] eqn:En;
      [|apply nth_error_None in En; lia].
    cbn [bind].
    destruct (swap_pop pool idx pid En) as [pool1 [Hswap Hperm]].
    rewrite Hswap. cbn [bind]. rewrite swap_map, Hswap. cbn [bind].
    rewrite removelast_map.
    set (pool' := removelast pool1) in *.
    assert (Hpos' : Forall (fun p => (0 < weight_of weights_map p)%Q) pool').
    { apply (Permutation_Forall Hperm) in Hpos. now inversion Hpos. }
    assert (Hlen' : (rounds <= List.length pool')%nat).
    { apply Permutation_length in Hperm. simpl in Hperm. lia. }
    destruct (IH (snd (random rng)) pool' (chosen ++ [pid]) Hlen' Hpos')
      as [res [rng' Hres]].
    destruct (map (weight_of weights_map) pool') as [|w ws] eqn:Ew;
      [eauto|].
    assert (Hsum' : (0 < sum (w :: ws))%Q).
    { rewrite <- Ew. apply sum_pos.
      - destruct pool'; [discriminate|discriminate].
      - apply Forall_forall. intros v Hv. apply in_map_iff in Hv.
        destruct Hv as [p [<- Hp]].
        exact (proj1 (Forall_forall _ _) Hpos' p Hp). }
    apply Qleb_gt in Hsum'. rewrite Hsum'. eauto.
Qed.

End SamplingProgress.

Section SamplingExact.
Import PyDict PyRandom OrderItems.
Context {R : RandomSource}.
Variable weights_map : dict Z Q.

Lemma sample_unique_products_weighted_returns (rng : rng_state)
    (candidate_ids : list Z) (k : Z) :
  Forall (fun pid => (0 < weight_of weights_map pid)%Q) candidate_ids ->
  exists res rng',
    sample_unique_products_weighted rng candidate_ids weights_map k =
      Ok (res, rng').
Proof.
  intros Hpos. unfold sample_unique_products_weighted.
  destruct ((k <=? 0) ||
            match candidate_ids with [] => true | _ :: _ => false end);
    [eauto|].
  apply sample_loop_returns; [lia|assumption].
Qed.

(** With positive weights the guard on the weights left never stops the
    loop early. *)
Lemma sample_unique_products_weighted_exact (rng rng' : rng_state)
    (candidate_ids res : list Z) (k : Z) :
  NoDup candidate_ids ->
  Forall (fun pid => (0 < weight_of weights_map pid)%Q) candidate_ids ->
  sample_unique_products_weighted rng candidate_ids weights_map k =
    Ok (res, rng') ->
  Z.of_nat (List.length res) =
    Z.max 0 (Z.min k (Z.of_nat (List.length candidate_ids))).
Proof.
  intros Hnd Hpos Hs.
  destruct (sample_unique_products_weighted_sound weights_map rng rng'
              candidate_ids res k Hnd Hs) as [_ [_ [Hle Hfew]]].
  destruct (Z_lt_ge_dec (Z.of_nat (List.length res))
              (Z.min k (Z.of_nat (List.length candidate_ids))))
    as [Hlt|Hge]; [|lia].
  exfalso. destruct (Hfew Hlt) as [remaining [Hperm [Hne Hsum]]].
  assert (Hrem : (0 < sum (map (weight_of weights_map) remaining))%Q).
  { apply sum_pos; [destruct remaining; [congruence|discriminate]|].
    apply Forall_forall. intros v Hv. apply in_map_iff in Hv.
    destruct Hv as [pid [<- Hpid]].
    apply (proj1 (Forall_forall _ _) Hpos).
    eapply Permutation_in; [apply Permutation_sym, Hperm|].
    apply in_or_app. now right. }
  exact (Qlt_not_le _ _ Hrem Hsum).
Qed.

End SamplingExact.

Section SamplingComplete.
Import PyDict PyRandom OrderItems.

(** X15. Sampling from products of positive weight. When every
    candidate has a positive weight and the candidates are distinct,
    [sample_unique_products_weighted] raises nothing and returns
    exactly [min(k, len(candidate_ids))] distinct candidates (none for
    [k <= 0]). *)
Theorem sample_unique_products_weighted_complete :
  forall (R : RandomSource) (weights_map : dict Z Q) (rng : rng_state)
         (candidate_ids : list Z) (k : Z),
    NoDup candidate_ids ->
    Forall (fun pid => (0 < weight_of weights_map pid)%Q) candidate_ids ->
    exists res rng',
      sample_unique_products_weighted rng candidate_ids weights_map k =
        Ok (res, rng') /\
      NoDup res /\ incl res candidate_ids /\
      Z.of_nat (List.length res) =
        Z.max 0 (Z.min k (Z.of_nat (List.length candidate_ids))).
Proof.
  intros R weights_map rng candidate_ids k Hnd Hpos.
  destruct (sample_unique_products_weighted_returns weights_map rng
              candidate_ids k Hpos) as [res [rng' Hs]].
  exists res, rng'. split; [exact Hs|].
  destruct (sample_unique_products_weighted_sound weights_map rng rng'
              candidate_ids res k Hnd Hs) as [Hnd' [Hincl _]].
  split; [assumption|]. split; [assumption|].
  exact (sample_unique_products_weighted_exact weights_map rng rng'
           candidate_ids res k Hnd Hpos Hs).
Qed.

Lemma sample_unique_products_weighted_complete_witness :
  exists res rng',
    sample_unique_products_weighted (R := scripted [0.5%Q; 0.9%Q])
      ([0.5%Q; 0.9%Q], 0%nat) [1; 2; 3] [(1, 0.9%Q); (2, 1.25%Q)] 2 =
      Ok (res, rng') /\
    NoDup res /\ incl res [1; 2; 3] /\
    Z.of_nat (List.length res) = Z.max 0 (Z.min 2 (Z.of_nat 3)).
Proof.
  apply (sample_unique_products_weighted_complete
           (scripted [0.5%Q; 0.9%Q]) [(1, 0.9%Q); (2, 1.25%Q)]
           ([0.5%Q; 0.9%Q], 0%nat) [1; 2; 3] 2).
  - repeat constructor; simpl; intuition discriminate.
  - repeat constructor.
Defined.

End SamplingComplete.

(** ** The items written by a run *)

(** [r] is not a [RuntimeError]. *)
Definition no_runtime_error {A : Type} (r : result A) : Prop :=
  forall msg, r <> Raise (RuntimeError msg).

Lemma no_runtime_error_bind {A B : Type} (c : result A) (k : A -> result B) :
  no_runtime_error c -> (forall a, no_runtime_error (k a)) ->
  no_runtime_error (bind c k).
Proof.
  intros Hc Hk msg. destruct c as [a|e|]; simpl.
  - apply Hk.
  - intros Heq. inversion Heq; subst. exact (Hc msg eq_refl).
  - discriminate.
Qed.

Section ItemFacts.
Import PyDict PyRandom OrderItems.
Context {R : RandomSource}.
Variable cfg : Config.

(** The rows sent with [executemany], in the sequence of the calls. *)
Definition items_of (conn : list statement) : list Item :=
  flat_map (fun st => match st with InsertItems batch => batch | _ => [] end)
           conn.

(** The rows generated so far: those sent and those in the buffer. *)
Definition written (s : RunState) : list Item :=
  items_of (sent s) ++ buffer s.

(** A row of the order [order_id]: the quantity is a key of [QTY_DIST],
    raised to one, and the price is that of the product in the
    catalogue. *)
Definition line_ok (products : dict Z Product) (order_id : Z) (it : Item)
    : Prop :=
  item_order_id it = order_id /\
  (exists q, In q (keys (QTY_DIST cfg)) /\ quantity it = Z.max 1 q) /\
  exists p,
    get products (item_product_id it) = Some p /\ unit_price it = price p.

(** The rows of one order: distinct products among the candidates, no
    more than the cart size drawn, and exactly
    [min(cart_size, len(product_ids))] when every candidate has a
    positive weight. *)
Definition order_ok (products : dict Z Product) (product_ids : list Z)
    (weights_map : dict Z Q) (order_id : Z) (lines : list Item) : Prop :=
  Forall (line_ok products order_id) lines /\
  NoDup (map item_product_id lines) /\
  incl (map item_product_id lines) product_ids /\
  exists cart_size,
    In cart_size (keys (CART_SIZE_DIST cfg)) /\
    Z.of_nat (List.length lines) <=
      Z.max 0 (Z.min cart_size (Z.of_nat (List.length product_ids))) /\
    (Forall (fun pid => (0 < weight_of weights_map pid)%Q) product_ids ->
     Z.of_nat (List.length lines) =
       Z.max 0 (Z.min cart_size (Z.of_nat (List.length product_ids)))).

Lemma items_of_app (a b : list statement) :
  items_of (a ++ b) = items_of a ++ items_of b.
Proof. unfold items_of. apply flat_map_app. Qed.

Lemma normalize_distribution_keys {K : Type} {HK : Key K}
    (dist w : dict K Q) (k : K) :
  normalize_distribution dist = Ok w -> In k (keys w) -> In k (keys dist).
Proof.
  unfold normalize_distribution, Payments.normalize_distribution.
  destruct dist as [|kv dist']; [discriminate|].
  remember (kv :: dist') as d eqn:Ed. clear Ed.
  destruct (existsb _ _); [discriminate|].
  destruct (Qleb _ _); [discriminate|].
  intros [= <-] Hin. apply (proj1 (keys_of_items _ _)) in Hin.
  unfold keys in *. rewrite map_map in Hin. exact Hin.
Qed.

Lemma choose_weighted_key_In (rng rng' : rng_state) (weights : dict Z Q)
    (k : Z) :
  choose_weighted_key rng weights = Ok (k, rng') -> In k (keys weights).
Proof.
  intros Hk. exact (proj1 (weighted_choice_key_In rng rng' weights k Hk)).
Qed.

Lemma add_line_written (products : dict Z Product) (order_id pid : Z)
    (s s' : RunState) (rng rng' : rng_state) :
  add_line cfg products order_id (s, rng) pid = Ok (s', rng') ->
  exists it,
    written s' = written s ++ [it] /\
    item_product_id it = pid /\ line_ok products order_id it.
Proof.
  unfold add_line. intros Ha.
  apply bind_Ok in Ha. destruct Ha as [weights [Hw Ha]].
  apply bind_Ok in Ha. destruct Ha as [[q rng1] [Hq Ha]].
  destruct (get products pid) as [p|] eqn:Ep; [|discriminate].
  cbn [bind] in Ha.
  set (it := {| item_order_id := order_id; item_product_id := pid;
                quantity := Z.max 1 q; unit_price := price p |}) in *.
  exists it. split; [|split; [reflexivity|]].
  - destruct (negb (BATCH_SIZE cfg =? 0) &&
              (BATCH_SIZE cfg <=? Z.of_nat (List.length (buffer (append s it)))));
      inversion Ha; subst; unfold written; simpl.
    + rewrite items_of_app. simpl. now rewrite !app_nil_r, app_assoc.
    + now rewrite app_assoc.
  - split; [reflexivity|]. split.
    + exists q. split; [|reflexivity].
      apply choose_weighted_key_In in Hq.
      eapply normalize_distribution_keys; eauto.
    + exists p. split; [exact Ep|reflexivity].
Qed.

Lemma lines_written (products : dict Z Product) (order_id : Z)
    (chosen : list Z) :
  forall (s s' : RunState) (rng rng' : rng_state),
    for_each (add_line cfg products order_id) chosen (s, rng) = Ok (s', rng') ->
    exists lines,
      written s' = written s ++ lines /\
      map item_product_id lines = chosen /\
      Forall (line_ok products order_id) lines.
Proof.
  induction chosen as [|pid chosen IH]; intros s s' rng rng' Hf;
    cbn [for_each] in Hf.
  - inversion Hf; subst. exists []. rewrite app_nil_r.
    split; [reflexivity|]. split; [reflexivity|constructor].
  - apply bind_Ok in Hf. destruct Hf as [[s1 rng1] [Ha Hf]].
    destruct (add_line_written _ _ _ _ _ _ _ Ha) as [it [Hw [Hpid Hok]]].
    destruct (IH _ _ _ _ Hf) as [lines [Hw' [Hmap Hall]]].
    exists (it :: lines). rewrite Hw', Hw, <- app_assoc.
    split; [reflexivity|]. split; [simpl; congruence|now constructor].
Qed.

Lemma order_step_written (products : dict Z Product) (product_ids : list Z)
    (weights_map : dict Z Q) (order_id : Z) (s s' : RunState)
    (rng rng' : rng_state) :
  NoDup product_ids ->
  order_step cfg products product_ids weights_map (s, rng) order_id =
    Ok (s', rng') ->
  exists lines,
    written s' = written s ++ lines /\
    order_ok products product_ids weights_map order_id lines.
Proof.
  intros Hnd. unfold order_step. intros Ho.
  apply bind_Ok in Ho. destruct Ho as [weights [Hw Ho]].
  apply bind_Ok in Ho. destruct Ho as [[cart_size rng1] [Hc Ho]].
  apply bind_Ok in Ho. destruct Ho as [[chosen rng2] [Hs Ho]].
  destruct (lines_written _ _ _ _ _ _ _ Ho) as [lines [Hwr [Hmap Hall]]].
  exists lines. split; [exact Hwr|].
  destruct (sample_unique_products_weighted_sound weights_map rng1 rng2
              product_ids chosen cart_size Hnd Hs) as [Hnd' [Hincl [Hle _]]].
  assert (Hlen : List.length lines = List.length chosen)
    by (rewrite <- Hmap; now rewrite length_map).
  split; [exact Hall|]. rewrite Hmap.
  split; [exact Hnd'|]. split; [exact Hincl|].
  exists cart_size. split.
  - apply choose_weighted_key_In in Hc.
    eapply normalize_distribution_keys; eauto.
  - rewrite Hlen. split; [exact Hle|]. intros Hpos.
    exact (sample_unique_products_weighted_exact weights_map rng1 rng2
             product_ids chosen cart_size Hnd Hpos Hs).
Qed.

Lemma orders_written (products : dict Z Product) (product_ids : list Z)
    (weights_map : dict Z Q) (order_ids : list Z) :
  NoDup product_ids ->
  forall (s s' : RunState) (rng rng' : rng_state),
    for_each (order_step cfg products product_ids weights_map) order_ids
             (s, rng) = Ok (s', rng') ->
    exists per_order,
      written s' = written s ++ List.concat per_order /\
      Forall2 (order_ok products product_ids weights_map)
              order_ids per_order.
Proof.
  intros Hnd.
  induction order_ids as [|oid order_ids IH]; intros s s' rng rng' Hf;
    cbn [for_each] in Hf.
  - inversion Hf; subst. exists []. simpl. rewrite app_nil_r.
    split; [reflexivity|constructor].
  - apply bind_Ok in Hf. destruct Hf as [[s1 rng1] [Ho Hf]].
    destruct (order_step_written _ _ _ _ _ _ _ _ Hnd Ho) as [lines [Hw Hok]].
    destruct (IH _ _ _ _ Hf) as [per_order [Hw' Hall]].
    exists (lines :: per_order). simpl. rewrite Hw', Hw, <- app_assoc.
    split; [reflexivity|now constructor].
Qed.

(** *** The statements sent are never taken back *)

Lemma for_each_related {A S : Type} (body : S -> A -> result S)
    (rel : S -> S -> Prop) (xs : list A) :
  (forall s, rel s s) ->
  (forall s1 s2 s3, rel s1 s2 -> rel s2 s3 -> rel s1 s3) ->
  (forall s x s', body s x = Ok s' -> rel s s') ->
  forall s s', for_each body xs s = Ok s' -> rel s s'.
Proof.
  intros Hrefl Htrans Hbody.
  induction xs as [|x xs IH]; intros s s' Hf; cbn [for_each] in Hf.
  - inversion Hf; subst. apply Hrefl.
  - apply bind_Ok in Hf. destruct Hf as [s1 [Hb Hf]].
    eapply Htrans; [eapply Hbody; eauto|eauto].
Qed.

(** [b] has sent what [a] has sent and then maybe more, but no
    rollback. *)
Definition extends (a b : RunState * rng_state) : Prop :=
  exists tail,
    sent (fst b) = sent (fst a) ++ tail /\
    Forall (fun st => st <> Rollback) tail.

Lemma extends_refl (a : RunState * rng_state) : extends a a.
Proof. exists []. rewrite app_nil_r. split; [reflexivity|constructor]. Qed.

Lemma extends_trans (a b c : RunState * rng_state) :
  extends a b -> extends b c -> extends a c.
Proof.
  intros [t1 [H1 F1]] [t2 [H2 F2]]. exists (t1 ++ t2).
  rewrite H2, H1, app_assoc. split; [reflexivity|].
  apply Forall_app. now split.
Qed.

Lemma add_line_extends (products : dict Z Product) (order_id pid : Z)
    (a b : RunState * rng_state) :
  add_line cfg products order_id a pid = Ok b -> extends a b.
Proof.
  destruct a as [s rng]. unfold add_line. intros Ha.
  apply bind_Ok in Ha. destruct Ha as [weights [_ Ha]].
  apply bind_Ok in Ha. destruct Ha as [[q rng1] [_ Ha]].
  destruct (get products pid) as [p|]; [|discriminate].
  cbn [bind] in Ha.
  destruct (negb _ && _); inversion Ha; subst; unfold extends; simpl.
  - eexists. split; [reflexivity|]. repeat constructor; discriminate.
  - exists []. rewrite app_nil_r. split; [reflexivity|constructor].
Qed.

Lemma order_step_extends (products : dict Z Product) (product_ids : list Z)
    (weights_map : dict Z Q) (order_id : Z) (a b : RunState * rng_state) :
  order_step cfg products product_ids weights_map a order_id = Ok b ->
  extends a b.
Proof.
  destruct a as [s rng]. unfold order_step. intros Ho.
  apply bind_Ok in Ho. destruct Ho as [weights [_ Ho]].
  apply bind_Ok in Ho. destruct Ho as [[cart_size rng1] [_ Ho]].
  apply bind_Ok in Ho. destruct Ho as [[chosen rng2] [_ Ho]].
  apply (for_each_related _ extends _ extends_refl extends_trans
           (fun a x b => add_line_extends products order_id x a b)) in Ho.
  exact Ho.
Qed.

Lemma sent_grows (products : dict Z Product) (product_ids : list Z)
    (weights_map : dict Z Q) (order_ids : list Z) (s s' : RunState)
    (rng rng' : rng_state) :
  for_each (order_step cfg products product_ids weights_map) order_ids
           (s, rng) = Ok (s', rng') ->
  exists tail,
    sent s' = sent s ++ tail /\ Forall (fun st => st <> Rollback) tail.
Proof.
  intros Hf.
  exact (for_each_related _ extends _ extends_refl extends_trans
           (fun a x b => order_step_extends products product_ids
                           weights_map x a b) _ _ Hf).
Qed.

(** *** No [RuntimeError] after the fetchers *)

Lemma choices_no_runtime_error {A : Type} (rng : rng_state)
    (population : list A) (weights : list Q) :
  no_runtime_error (choices rng population weights).
Proof.
  intros msg. unfold choices.
  destruct (negb _); [discriminate|].
  destruct (rev _) as [|total l]; [discriminate|].
  destruct (Qleb total 0); [discriminate|].
  destruct (random rng) as [r rng'].
  destruct (nth_error _ _); discriminate.
Qed.

Lemma normalize_distribution_no_runtime_error (dist : dict Z Q) :
  no_runtime_error (normalize_distribution dist).
Proof.
  intros msg. unfold normalize_distribution, Payments.normalize_distribution.
  destruct dist as [|kv dist']; [discriminate|].
  destruct (existsb _ _); [discriminate|].
  destruct (Qleb _ _); discriminate.
Qed.

Lemma choose_weighted_key_no_runtime_error (rng : rng_state)
    (weights : dict Z Q) :
  no_runtime_error (choose_weighted_key rng weights).
Proof.
  unfold choose_weighted_key. destruct weights as [|kv ws].
  - intros msg. discriminate.
  - apply choices_no_runtime_error.
Qed.

Lemma swap_no_runtime_error {A : Type} (l : list A) (i j : nat) :
  no_runtime_error (swap l i j).
Proof.
  intros msg. unfold swap.
  destruct (nth_error l j), (nth_error l i); discriminate.
Qed.

Lemma sample_loop_no_runtime_error (rounds : nat) :
  forall (rng : rng_state) (pool : list Z) (weights : list Q)
         (chosen : list Z),
    no_runtime_error (sample_loop rounds rng pool weights chosen).
Proof.
  induction rounds as [|rounds IH]; intros rng pool weights chosen;
    cbn [sample_loop]; [intros msg; discriminate|].
  apply no_runtime_error_bind; [apply choices_no_runtime_error|].
  intros [idx rng'].
  apply no_runtime_error_bind;
    [destruct (nth_error pool idx); intros msg; discriminate|].
  intros picked.
  apply no_runtime_error_bind; [apply swap_no_runtime_error|]. intros pool1.
  apply no_runtime_error_bind; [apply swap_no_runtime_error|]. intros weights1.
  destruct (removelast weights1) as [|w ws]; [apply IH|].
  destruct (Qleb (sum (w :: ws)) 0); [intros msg; discriminate|apply IH].
Qed.

Lemma for_each_no_runtime_error {A S : Type} (body : S -> A -> result S)
    (xs : list A) :
  (forall s x, no_runtime_error (body s x)) ->
  forall s, no_runtime_error (for_each body xs s).
Proof.
  intros Hbody. induction xs as [|x xs IH]; intros s; cbn [for_each].
  - intros msg. discriminate.
  - apply no_runtime_error_bind; [apply Hbody|exact IH].
Qed.

Lemma add_line_no_runtime_error (products : dict Z Product) (order_id : Z)
    (acc : RunState * rng_state) (pid : Z) :
  no_runtime_error (add_line cfg products order_id acc pid).
Proof.
  destruct acc as [s rng]. unfold add_line.
  apply no_runtime_error_bind;
    [apply normalize_distribution_no_runtime_error|].
  intros weights.
  apply no_runtime_error_bind;
    [apply choose_weighted_key_no_runtime_error|].
  intros [q rng'].
  apply no_runtime_error_bind;
    [destruct (get products pid); intros msg; discriminate|].
  intros p msg. discriminate.
Qed.

Lemma order_step_no_runtime_error (products : dict Z Product)
    (product_ids : list Z) (weights_map : dict Z Q)
    (acc : RunState * rng_state) (order_id : Z) :
  no_runtime_error
    (order_step cfg products product_ids weights_map acc order_id).
Proof.
  destruct acc as [s rng]. unfold order_step.
  apply no_runtime_error_bind;
    [apply normalize_distribution_no_runtime_error|].
  intros weights.
  apply no_runtime_error_bind;
    [apply choose_weighted_key_no_runtime_error|].
  intros [cart_size rng1].
  apply no_runtime_error_bind.
  - unfold sample_unique_products_weighted.
    destruct (_ || _); [intros msg; discriminate|].
    apply sample_loop_no_runtime_error.
  - intros [chosen rng2].
    apply for_each_no_runtime_error. apply add_line_no_runtime_error.
Qed.

(** The [try] block after the fetchers: the generation and the last
    flush. *)
Definition after_fetch (w : Payments.World) (order_ids : list Z)
    (products : dict Z Product) (category_names : dict Z string)
    (rng : rng_state) : result (list message * list statement) :=
  bind (for_each
          (order_step cfg products (keys products)
             (product_weights cfg products category_names 1))
          order_ids
          ({| sent := if CLEAR_EXISTING_ORDER_ITEMS cfg
                      then [DeleteOrderItems; Commit] else [];
              buffer := []; total_items := 0; batches := 0 |}, rng))
       (fun sr =>
          let s' := match buffer (fst sr) with
                    | [] => fst sr
                    | _ => flush (fst sr)
                    end in
          let elapsed :=
            (Payments.perf_counter w 1%nat - Payments.perf_counter w 0%nat)%Q in
          Ok ([Inserted (total_items s') (Z.of_nat (List.length order_ids))
                        (batches s');
               Average
                 match order_ids with
                 | [] => 0%Q
                 | _ => (inject_Z (total_items s') /
                         inject_Z (Z.of_nat (List.length order_ids)))%Q
                 end] ++
              (if Qltb 0 elapsed
               then [InsertTime elapsed
                       (inject_Z (total_items s') / elapsed)%Q]
               else []),
              sent s')).

Lemma run_body_after_fetch (w : Payments.World) (db : Database)
    (rng : rng_state) (order_ids : list Z) (products : dict Z Product)
    (category_names : dict Z string) :
  fetch_orders db = Ok order_ids ->
  fetch_products db = Ok (products, category_names) ->
  run_body cfg w db rng = after_fetch w order_ids products category_names rng.
Proof.
  intros Ho Hp. unfold run_body, after_fetch. rewrite Ho, Hp. cbn [bind].
  destruct (for_each _ order_ids _) as [[s r]| |]; reflexivity.
Qed.

Lemma after_fetch_no_runtime_error (w : Payments.World) (order_ids : list Z)
    (products : dict Z Product) (category_names : dict Z string)
    (rng : rng_state) :
  no_runtime_error (after_fetch w order_ids products category_names rng).
Proof.
  unfold after_fetch. apply no_runtime_error_bind.
  - apply for_each_no_runtime_error. intros s x.
    apply order_step_no_runtime_error.
  - intros sr msg. discriminate.
Qed.

Lemma after_fetch_items (w : Payments.World) (order_ids : list Z)
    (products : dict Z Product) (category_names : dict Z string)
    (rng : rng_state) (printed : list message) (conn : list statement) :
  wf products ->
  after_fetch w order_ids products category_names rng = Ok (printed, conn) ->
  exists per_order,
    items_of conn = List.concat per_order /\
    Forall2 (order_ok products (keys products)
               (product_weights cfg products category_names 1))
            order_ids per_order.
Proof.
  intros Hwf. unfold after_fetch. intros Ha.
  apply bind_Ok in Ha. destruct Ha as [[s rng'] [Hf Ha]].
  destruct (orders_written _ _ _ _ Hwf _ _ _ _ Hf) as [per_order [Hw Hall]].
  exists per_order. split; [|exact Hall].
  cbn [fst] in Ha. unfold written in Hw. cbn [sent buffer] in Hw.
  assert (Hclear : items_of (if CLEAR_EXISTING_ORDER_ITEMS cfg
                             then [DeleteOrderItems; Commit] else []) = [])
    by (destruct (CLEAR_EXISTING_ORDER_ITEMS cfg); reflexivity).
  rewrite Hclear in Hw. cbn [app] in Hw. rewrite <- Hw.
  destruct (buffer s) as [|it rest] eqn:Eb; inversion Ha; subst.
  - now rewrite app_nil_r.
  - unfold flush. cbn [sent]. rewrite items_of_app, Eb. simpl.
    now rewrite app_nil_r.
Qed.

End ItemFacts.

(** ** The run goes through *)

Section ItemProgress.
Import PyDict PyRandom OrderItems.
Context {R : RandomSource}.
Variable cfg : Config.

(** A valid distribution is normalized, and a key is drawn from it. *)
Lemma normalized_draw_returns (dist : dict Z Q) :
  wf dist -> ~ invalid_distribution dist ->
  exists w,
    normalize_distribution dist = Ok w /\
    forall rng, exists k,
      choose_weighted_key rng w = Ok (k, snd (random rng)).
Proof.
  intros Hwf Hvalid. unfold normalize_distribution.
  destruct (normalize_distribution_cases dist Hwf)
    as [[Hinv _]|[_ Hn]]; [contradiction|].
  rewrite Hn. eexists. split; [reflexivity|]. intros rng.
  set (total := sum (values dist)) in *.
  set (w := map (fun kv => (fst kv, (snd kv / total)%Q)) dist).
  assert (Htotal : (0 < total)%Q).
  { apply Qnot_le_lt. intros Hle. apply Hvalid. right. now right. }
  assert (Hsum : (0 < sum (values w))%Q).
  { unfold w, values. rewrite map_map. simpl.
    rewrite <- (map_map snd (fun v => (v / total)%Q)), sum_scale.
    apply Qlt_shift_div_l; [assumption|]. now rewrite Qmult_0_l. }
  destruct (weighted_choice_key_cases rng w)
    as [[[Hnil|Hle] _]|[_ [k [Hk _]]]].
  - exfalso. apply Hvalid. left.
    unfold w in Hnil. now apply map_eq_nil in Hnil.
  - exfalso. exact (Qlt_not_le _ _ Hsum Hle).
  - exists k. exact Hk.
Qed.

Hypothesis cart_wf : wf (CART_SIZE_DIST cfg).
Hypothesis cart_valid : ~ invalid_distribution (CART_SIZE_DIST cfg).
Hypothesis qty_wf : wf (QTY_DIST cfg).
Hypothesis qty_valid : ~ invalid_distribution (QTY_DIST cfg).
Hypothesis category_pos :
  Forall (fun v => (0 < v)%Q) (values (CATEGORY_WEIGHTS cfg)).

Lemma product_weights_pos (products : dict Z Product)
    (category_names : dict Z string) (pid : Z) :
  (0 < weight_of (product_weights cfg products category_names 1) pid)%Q.
Proof.
  unfold weight_of.
  destruct (get (product_weights cfg products category_names 1) pid)
    as [w|] eqn:Ew; [|reflexivity].
  revert Ew. rewrite product_weights_filled.
  apply (filled_get product_id (category_weight cfg category_names 1)
           (fun _ v => (0 < v)%Q)).
  - intros p _. apply category_weight_pos; [assumption|reflexivity].
  - intros k v. discriminate.
Qed.

Lemma add_line_returns (products : dict Z Product) (order_id pid : Z)
    (s : RunState) (rng : rng_state) :
  In pid (keys products) ->
  exists s' rng',
    add_line cfg products order_id (s, rng) pid = Ok (s', rng').
Proof.
  intros Hpid. unfold add_line, QTY_WEIGHTS.
  destruct (normalized_draw_returns (QTY_DIST cfg) qty_wf qty_valid)
    as [weights [Hw Hdraw]].
  rewrite Hw. cbn [bind]. destruct (Hdraw rng) as [q Hq].
  rewrite Hq. cbn [bind].
  destruct (get products pid) as [p|] eqn:Ep;
    [|apply get_None_notin in Ep; contradiction].
  cbn [bind]. eauto.
Qed.

Lemma lines_return (products : dict Z Product) (order_id : Z)
    (chosen : list Z) :
  incl chosen (keys products) ->
  forall (s : RunState) (rng : rng_state),
    exists s' rng',
      for_each (add_line cfg products order_id) chosen (s, rng) =
        Ok (s', rng').
Proof.
  induction chosen as [|pid chosen IH]; intros Hincl s rng; cbn [for_each];
    [eauto|].
  destruct (add_line_returns products order_id pid s rng)
    as [s1 [rng1 Ha]]; [apply Hincl; now left|].
  rewrite Ha. cbn [bind]. apply IH.
  intros x Hx. apply Hincl. now right.
Qed.

Lemma order_step_returns (products : dict Z Product)
    (category_names : dict Z string) (order_id : Z) (s : RunState)
    (rng : rng_state) :
  wf products ->
  exists s' rng',
    order_step cfg products (keys products)
      (product_weights cfg products category_names 1) (s, rng) order_id =
      Ok (s', rng').
Proof.
  intros Hwf. unfold order_step, CART_SIZE_WEIGHTS.
  destruct (normalized_draw_returns (CART_SIZE_DIST cfg) cart_wf cart_valid)
    as [weights [Hw Hdraw]].
  rewrite Hw. cbn [bind]. destruct (Hdraw rng) as [cart_size Hc].
  rewrite Hc. cbn [bind].
  assert (Hpos : Forall
            (fun pid =>
               (0 < weight_of (product_weights cfg products category_names 1)
                              pid)%Q)
            (keys products))
    by (apply Forall_forall; intros pid _; apply product_weights_pos).
  destruct (sample_unique_products_weighted_returns
              (product_weights cfg products category_names 1)
              (snd (random rng)) (keys products) cart_size Hpos)
    as [chosen [rng2 Hs]].
  rewrite Hs. cbn [bind]. apply lines_return.
  exact (proj1 (proj2 (sample_unique_products_weighted_sound _ _ _ _ _ _
                         Hwf Hs))).
Qed.

Lemma orders_return (products : dict Z Product)
    (category_names : dict Z string) (order_ids : list Z) :
  wf products ->
  forall (s : RunState) (rng : rng_state),
    exists s' rng',
      for_each
        (order_step cfg products (keys products)
           (product_weights cfg products category_names 1))
        order_ids (s, rng) = Ok (s', rng').
Proof.
  intros Hwf. induction order_ids as [|oid order_ids IH]; intros s rng;
    cbn [for_each]; [eauto|].
  destruct (order_step_returns products category_names oid s rng Hwf)
    as [s1 [rng1 Ho]].
  rewrite Ho. cbn [bind]. apply IH.
Qed.

Lemma after_fetch_returns (w : Payments.World) (order_ids : list Z)
    (products : dict Z Product) (category_names : dict Z string)
    (rng : rng_state) :
  wf products ->
  exists printed conn,
    after_fetch cfg w order_ids products category_names rng =
      Ok (printed, conn).
Proof.
  intros Hwf. unfold after_fetch.
  destruct (orders_return products category_names order_ids Hwf
              {| sent := if CLEAR_EXISTING_ORDER_ITEMS cfg
                         then [DeleteOrderItems; Commit] else [];
                 buffer := []; total_items := 0; batches := 0 |} rng)
    as [s [rng' Hf]].
  rewrite Hf. cbn [bind]. eauto.
Qed.

End ItemProgress.

Section ItemProperties.
Import PyDict PyRandom OrderItems.

(** X16. The rows that a run of [insert_order_items.py] sends. They
    are the rows of the orders, order after order in the sequence of
    [fetch_orders]. In the rows of an order the products are distinct
    products of the catalogue, no more of them than a cart size of
    [CART_SIZE_DIST]; every row carries the id of the order, a quantity
    that is a key of [QTY_DIST] raised to one at least, and the price
    of its product in the catalogue. *)
Theorem run_items_per_order :
  forall (R : RandomSource) (cfg : Config) (w : Payments.World)
         (db : Database) (seed : Z) (out : Outcome) (order_ids : list Z)
         (products : dict Z Product) (category_names : dict Z string),
    fetch_orders db = Ok order_ids ->
    fetch_products db = Ok (products, category_names) ->
    run cfg w db seed = Ok out ->
    exists per_order,
      items_of (connection out) = List.concat per_order /\
      Forall2
        (order_ok cfg products (keys products)
           (product_weights cfg products category_names 1))
        order_ids per_order.
Proof.
  intros R cfg w db seed out order_ids products category_names Ho Hp Hrun.
  destruct (fetch_products_catalog db products category_names Hp)
    as [Hwf _].
  unfold run in Hrun.
  apply bind_Ok in Hrun. destruct Hrun as [cw [_ Hrun]].
  apply bind_Ok in Hrun. destruct Hrun as [qw [_ Hrun]].
  rewrite (run_body_after_fetch cfg w db (Random seed) order_ids products
             category_names Ho Hp) in Hrun.
  pose proof (after_fetch_no_runtime_error cfg w order_ids products
                category_names (Random seed)) as Hquiet.
  destruct (after_fetch cfg w order_ids products category_names (Random seed))
    as [[printed conn]|e|] eqn:Ha.
  - inversion Hrun; subst. cbn [connection].
    rewrite items_of_app. simpl. rewrite app_nil_r.
    exact (after_fetch_items cfg w order_ids products category_names
             (Random seed) printed conn Hwf Ha).
  - destruct e; try discriminate. exfalso. exact (Hquiet msg eq_refl).
  - discriminate.
Qed.

(** X17. A run on a catalogue goes through. With valid distributions
    of the cart sizes and of the quantities, positive category weights,
    and the two tables not empty, [run] raises nothing and rolls nothing
    back: it returns with the rows of all orders sent. When no cart
    size is below one, every order has at least one row. *)
Theorem run_items_completes :
  forall (R : RandomSource) (cfg : Config) (w : Payments.World)
         (db : Database) (seed : Z) (order_ids : list Z)
         (products : dict Z Product) (category_names : dict Z string),
    wf (CART_SIZE_DIST cfg) ->
    ~ invalid_distribution (CART_SIZE_DIST cfg) ->
    wf (QTY_DIST cfg) ->
    ~ invalid_distribution (QTY_DIST cfg) ->
    Forall (fun v => (0 < v)%Q) (values (CATEGORY_WEIGHTS cfg)) ->
    fetch_orders db = Ok order_ids ->
    fetch_products db = Ok (products, category_names) ->
    exists out conn per_order,
      run cfg w db seed = Ok out /\
      connection out =
        (if CLEAR_EXISTING_ORDER_ITEMS cfg
         then [DeleteOrderItems; Commit] else []) ++ conn ++ [Close] /\
      items_of conn = List.concat per_order /\
      Forall2
        (fun order_id lines =>
           order_ok cfg products (keys products)
             (product_weights cfg products category_names 1)
             order_id lines /\
           (Forall (fun c => 1 <= c) (keys (CART_SIZE_DIST cfg)) ->
            lines <> []))
        order_ids per_order.
Proof.
  intros R cfg w db seed order_ids products category_names
         Hcwf Hcvalid Hqwf Hqvalid Hcat Ho Hp.
  destruct (fetch_products_catalog db products category_names Hp)
    as [Hwf [Hne _]].
  destruct (normalized_draw_returns (CART_SIZE_DIST cfg) Hcwf Hcvalid)
    as [cw [Hcw _]].
  destruct (normalized_draw_returns (QTY_DIST cfg) Hqwf Hqvalid)
    as [qw [Hqw _]].
  assert (Hpos : Forall
            (fun pid =>
               (0 < weight_of (product_weights cfg products category_names 1)
                              pid)%Q)
            (keys products))
    by (apply Forall_forall; intros pid _; now apply product_weights_pos).
  unfold after_fetch.
  destruct (orders_return cfg Hcwf Hcvalid Hqwf Hqvalid Hcat products
              category_names order_ids Hwf
              {| sent := if CLEAR_EXISTING_ORDER_ITEMS cfg
                         then [DeleteOrderItems; Commit] else [];
                 buffer := []; total_items := 0; batches := 0 |}
              (Random seed)) as [s [rng' Hf]].
  destruct (orders_written cfg products (keys products)
              (product_weights cfg products category_names 1) order_ids
              Hwf _ _ _ _ Hf) as [per_order [Hw Hall]].
  destruct (sent_grows cfg products (keys products)
              (product_weights cfg products category_names 1) order_ids
              _ _ _ _ Hf) as [tail [Htail _]].
  cbn [sent] in Htail.
  set (s' := match buffer s with [] => s | _ => flush s end).
  assert (Hs' : exists tail', sent s' =
            (if CLEAR_EXISTING_ORDER_ITEMS cfg
             then [DeleteOrderItems; Commit] else []) ++ tail' /\
            items_of tail' = List.concat per_order).
  { unfold written in Hw. cbn [sent buffer] in Hw.
    rewrite Htail, items_of_app in Hw.
    assert (Hclear : items_of (if CLEAR_EXISTING_ORDER_ITEMS cfg
                               then [DeleteOrderItems; Commit] else []) = [])
      by (destruct (CLEAR_EXISTING_ORDER_ITEMS cfg); reflexivity).
    rewrite Hclear in Hw. cbn [app] in Hw.
    subst s'. destruct (buffer s) as [|it rest] eqn:Eb.
    - exists tail. split; [exact Htail|]. now rewrite app_nil_r in Hw.
    - exists (tail ++ [InsertItems (it :: rest); Commit]).
      unfold flush. cbn [sent]. rewrite Htail, Eb, <- app_assoc.
      split; [reflexivity|]. rewrite items_of_app. simpl.
      rewrite app_nil_r. exact Hw. }
  destruct Hs' as [tail' [Hsent Hitems]].
  eexists. exists tail', per_order.
  split.
  - unfold run, CART_SIZE_WEIGHTS, QTY_WEIGHTS. rewrite Hcw, Hqw. cbn [bind].
    unfold run_body. rewrite Ho, Hp. cbn [bind]. rewrite Hf. cbn [bind].
    reflexivity.
  - cbn [connection]. fold s'. rewrite Hsent, <- app_assoc.
    split; [reflexivity|]. split; [exact Hitems|].
    eapply Forall2_impl; [|exact Hall].
    intros oid lines Hok. split; [exact Hok|]. intros Hcart Hnil.
    destruct Hok as [_ [_ [_ [cart_size [Hin [_ Hexact]]]]]].
    specialize (Hexact Hpos). subst lines. simpl in Hexact.
    pose proof (proj1 (Forall_forall _ _) Hcart cart_size Hin) as Hone.
    assert (Hk : keys products <> [])
      by (destruct products; [congruence|discriminate]).
    simpl in Hone.
    destruct (keys products) as [|pid0 pids]; [congruence|].
    cbn [List.length] in Hexact. rewrite Nat2Z.inj_succ in Hexact. lia.
Qed.

End ItemProperties.

(** ** The script on a small catalogue *)

(** Two orders and three products; the category of the third product
    has no entry in [CATEGORY_WEIGHTS]. *)
Definition catalogue_db : OrderItems.Database := {|
  OrderItems.orders := [101; 102];
  OrderItems.products_with_category :=
    [(1, 9.99%Q, 10, "Books"); (2, 120%Q, 20, "Electronics");
     (3, 15.5%Q, 30, "Stationery")]
|}.

Definition catalogue_products : PyDict.dict Z OrderItems.Product :=
  match OrderItems.fetch_products catalogue_db with
  | Ok (products, _) => products
  | _ => []
  end.

Definition catalogue_categories : PyDict.dict Z string :=
  match OrderItems.fetch_products catalogue_db with
  | Ok (_, category_names) => category_names
  | _ => []
  end.

Definition catalogue_tape : list Q := [0.5; 0.3; 0.8; 0.2; 0.95; 0.1; 0.6]%Q.

Definition catalogue_out : OrderItems.Outcome :=
  match OrderItems.run (R := scripted catalogue_tape)
          OrderItems.script_config Sample.world catalogue_db 42 with
  | Ok out => out
  | _ => {| OrderItems.console := []; OrderItems.connection := [] |}
  end.

Section CatalogueRuns.
Import PyDict PyRandom OrderItems.

Lemma script_categories_pos :
  Forall (fun v => (0 < v)%Q) (values (CATEGORY_WEIGHTS script_config)).
Proof. repeat constructor. Qed.

Lemma script_cart_valid :
  ~ invalid_distribution (CART_SIZE_DIST script_config).
Proof.
  intros [Hnil|[[v [Hin Hv]]|Hle]].
  - discriminate.
  - vm_compute in Hin.
    repeat (destruct Hin as [<-|Hin]; [discriminate|]). destruct Hin.
  - revert Hle. vm_compute. intros Hle. now apply Hle.
Qed.

Lemma script_qty_valid :
  ~ invalid_distribution (QTY_DIST script_config).
Proof.
  intros [Hnil|[[v [Hin Hv]]|Hle]].
  - discriminate.
  - vm_compute in Hin.
    repeat (destruct Hin as [<-|Hin]; [discriminate|]). destruct Hin.
  - revert Hle. vm_compute. intros Hle. now apply Hle.
Qed.

Lemma catalogue_run :
  run (R := scripted catalogue_tape) script_config Sample.world
      catalogue_db 42 = Ok catalogue_out.
Proof. vm_compute. reflexivity. Qed.

Lemma product_weights_positive_witness :
  (In 3 (keys catalogue_products) <->
   In 3 (keys (product_weights script_config catalogue_products
                               catalogue_categories 1))) /\
  (forall w,
     get (product_weights script_config catalogue_products
                          catalogue_categories 1) 3 = Some w ->
     (0 < w)%Q).
Proof.
  exact (product_weights_positive script_config catalogue_db
           catalogue_products catalogue_categories 1
           script_categories_pos eq_refl eq_refl 3).
Defined.

Lemma run_items_per_order_witness :
  exists per_order,
    items_of (connection catalogue_out) = List.concat per_order /\
    Forall2
      (order_ok script_config catalogue_products (keys catalogue_products)
         (product_weights script_config catalogue_products
                          catalogue_categories 1))
      [101; 102] per_order.
Proof.
  exact (run_items_per_order (scripted catalogue_tape) script_config
           Sample.world catalogue_db 42 catalogue_out [101; 102]
           catalogue_products catalogue_categories
           eq_refl eq_refl catalogue_run).
Defined.

Lemma run_items_completes_witness :
  exists out conn per_order,
    run (R := scripted catalogue_tape) script_config Sample.world
        catalogue_db 42 = Ok out /\
    connection out =
      (if CLEAR_EXISTING_ORDER_ITEMS script_config
       then [DeleteOrderItems; Commit] else []) ++ conn ++ [Close] /\
    items_of conn = List.concat per_order /\
    Forall2
      (fun order_id lines =>
         order_ok script_config catalogue_products (keys catalogue_products)
           (product_weights script_config catalogue_products
                            catalogue_categories 1)
           order_id lines /\
         (Forall (fun c => 1 <= c) (keys (CART_SIZE_DIST script_config)) ->
          lines <> []))
      [101; 102] per_order.
Proof.
  exact (run_items_completes (scripted catalogue_tape) script_config
           Sample.world catalogue_db 42 [101; 102]
           catalogue_products catalogue_categories
           (wf_of_items _) script_cart_valid
           (wf_of_items _) script_qty_valid
           script_categories_pos eq_refl eq_refl).
Defined.

End CatalogueRuns.

(** ** Rolling back and batching *)

Section TraceFacts.
Import PyDict PyRandom OrderItems.
Context {R : RandomSource}.
Variable cfg : Config.

(** [flushes chunks]: the statements that send and commit each chunk. *)
Definition item_flushes (chunks : list (list Item)) : list statement :=
  flat_map (fun chunk => [InsertItems chunk; Commit]) chunks.

Lemma item_flushes_app (c1 c2 : list (list Item)) :
  item_flushes (c1 ++ c2) = item_flushes c1 ++ item_flushes c2.
Proof. unfold item_flushes. now rewrite flat_map_app. Qed.

(** The invariant of the two nested loops of [run] for a positive
    [BATCH_SIZE]: full chunks have been sent, and the buffer is not
    full. *)
Definition batched (conn : list statement) (a : RunState * rng_state)
    : Prop :=
  exists chunks,
    sent (fst a) = conn ++ item_flushes chunks /\
    Forall (fun c => Z.of_nat (List.length c) = BATCH_SIZE cfg) chunks /\
    Z.of_nat (List.length (buffer (fst a))) < BATCH_SIZE cfg /\
    total_items (fst a) = Z.of_nat (List.length (List.concat chunks)) /\
    batches (fst a) = Z.of_nat (List.length chunks).

Definition keeps_batched (conn : list statement)
    (a b : RunState * rng_state) : Prop :=
  batched conn a -> batched conn b.

Lemma add_line_batched (conn : list statement) (products : dict Z Product)
    (order_id pid : Z) (a b : RunState * rng_state) :
  0 < BATCH_SIZE cfg ->
  add_line cfg products order_id a pid = Ok b -> keeps_batched conn a b.
Proof.
  intros HB. destruct a as [s rng]. unfold add_line. intros Ha.
  apply bind_Ok in Ha. destruct Ha as [weights [_ Ha]].
  apply bind_Ok in Ha. destruct Ha as [[q rng1] [_ Ha]].
  destruct (get products pid) as [p|]; [|discriminate].
  cbn [bind] in Ha.
  set (it := {| item_order_id := order_id; item_product_id := pid;
                quantity := Z.max 1 q; unit_price := price p |}) in *.
  intros [chunks [Hsent [Hfull [Hroom [Htotal Hbatches]]]]].
  cbn [fst] in *.
  assert (Hzero : (BATCH_SIZE cfg =? 0) = false) by (apply Z.eqb_neq; lia).
  rewrite Hzero in Ha. cbn [negb andb] in Ha.
  unfold append in Ha. cbn [buffer] in Ha.
  rewrite length_app in Ha. cbn [List.length] in Ha.
  destruct (BATCH_SIZE cfg <=? Z.of_nat (List.length (buffer s) + 1)) eqn:E;
    inversion Ha; subst; unfold batched; cbn [fst].
  - apply Z.leb_le in E. exists (chunks ++ [buffer s ++ [it]]).
    unfold flush, clear. cbn [sent buffer total_items batches].
    rewrite item_flushes_app, concat_app, Hsent, Htotal, Hbatches.
    simpl. rewrite !app_nil_r, !length_app, <- !app_assoc. simpl.
    split; [reflexivity|]. split.
    + apply Forall_app. split; [assumption|].
      constructor; [|constructor]. rewrite length_app. simpl. lia.
    + repeat split; lia.
  - apply Z.leb_gt in E. exists chunks. cbn [sent buffer total_items batches].
    rewrite length_app. simpl. repeat split; try assumption; lia.
Qed.

Lemma order_step_batched (conn : list statement) (products : dict Z Product)
    (product_ids : list Z) (weights_map : dict Z Q) (order_id : Z)
    (a b : RunState * rng_state) :
  0 < BATCH_SIZE cfg ->
  order_step cfg products product_ids weights_map a order_id = Ok b ->
  keeps_batched conn a b.
Proof.
  intros HB. destruct a as [s rng]. unfold order_step. intros Ho.
  apply bind_Ok in Ho. destruct Ho as [weights [_ Ho]].
  apply bind_Ok in Ho. destruct Ho as [[cart_size rng1] [_ Ho]].
  apply bind_Ok in Ho. destruct Ho as [[chosen rng2] [_ Ho]].
  intros Hinv.
  refine (for_each_related _ (keeps_batched conn) _ _ _ _ _ _ Ho _).
  - intros x Hx. exact Hx.
  - intros x y z Hxy Hyz Hx. exact (Hyz (Hxy Hx)).
  - intros x pid y Hadd. exact (add_line_batched conn _ _ _ _ _ HB Hadd).
  - exact Hinv.
Qed.

Lemma orders_batched (conn : list statement) (products : dict Z Product)
    (product_ids : list Z) (weights_map : dict Z Q) (order_ids : list Z)
    (a b : RunState * rng_state) :
  0 < BATCH_SIZE cfg ->
  for_each (order_step cfg products product_ids weights_map) order_ids a =
    Ok b ->
  keeps_batched conn a b.
Proof.
  intros HB Hf.
  refine (for_each_related _ (keeps_batched conn) _ _ _ _ _ _ Hf).
  - intros x Hx. exact Hx.
  - intros x y z Hxy Hyz Hx. exact (Hyz (Hxy Hx)).
  - intros x oid y Ho.
    exact (order_step_batched conn _ _ _ _ _ _ HB Ho).
Qed.

End TraceFacts.

Section TraceProperties.
Import PyDict PyRandom OrderItems.

(** X18. The batches of a run of [insert_order_items.py], for a
    positive [BATCH_SIZE]. After the DELETE and its commit (when
    [CLEAR_EXISTING_ORDER_ITEMS]) the connection carries the rows in
    committed chunks: every chunk but the last one has exactly
    [BATCH_SIZE] rows, the last one, sent by the final flush, has
    fewer and is not empty; then the connection is closed. The numbers
    printed are the number of rows sent and the number of chunks. *)
Theorem run_items_batches :
  forall (R : RandomSource) (cfg : Config) (w : Payments.World)
         (db : Database) (seed : Z) (out : Outcome) (order_ids : list Z)
         (products : dict Z Product) (category_names : dict Z string),
    0 < BATCH_SIZE cfg ->
    fetch_orders db = Ok order_ids ->
    fetch_products db = Ok (products, category_names) ->
    run cfg w db seed = Ok out ->
    exists full rest,
      connection out =
        (if CLEAR_EXISTING_ORDER_ITEMS cfg
         then [DeleteOrderItems; Commit] else []) ++
        item_flushes (full ++ rest) ++ [Close] /\
      Forall (fun c => Z.of_nat (List.length c) = BATCH_SIZE cfg) full /\
      (rest = [] \/
       exists c, rest = [c] /\
                 0 < Z.of_nat (List.length c) < BATCH_SIZE cfg) /\
      In (Inserted (Z.of_nat (List.length (List.concat (full ++ rest))))
                   (Z.of_nat (List.length order_ids))
                   (Z.of_nat (List.length (full ++ rest))))
         (console out).
Proof.
  intros R cfg w db seed out order_ids products category_names
         HB Ho Hp Hrun.
  unfold run in Hrun.
  apply bind_Ok in Hrun. destruct Hrun as [cw [_ Hrun]].
  apply bind_Ok in Hrun. destruct Hrun as [qw [_ Hrun]].
  rewrite (run_body_after_fetch cfg w db (Random seed) order_ids products
             category_names Ho Hp) in Hrun.
  pose proof (after_fetch_no_runtime_error cfg w order_ids products
                category_names (Random seed)) as Hquiet.
  destruct (after_fetch cfg w order_ids products category_names (Random seed))
    as [[printed conn]|e|] eqn:Ha;
    [|destruct e; try discriminate; exfalso; exact (Hquiet msg eq_refl)
     |discriminate].
  inversion Hrun; subst. clear Hrun Hquiet. cbn [connection console].
  unfold after_fetch in Ha.
  apply bind_Ok in Ha. destruct Ha as [[s rng'] [Hf Ha]].
  set (conn0 := if CLEAR_EXISTING_ORDER_ITEMS cfg
                then [DeleteOrderItems; Commit] else []) in *.
  assert (Hinit : batched cfg conn0
            ({| sent := conn0; buffer := []; total_items := 0;
                batches := 0 |}, Random seed)).
  { exists []. cbn [fst sent buffer total_items batches]. simpl.
    rewrite app_nil_r. repeat split; try lia. constructor. }
  destruct (orders_batched cfg conn0 _ _ _ _ _ _ HB Hf Hinit)
    as [chunks [Hsent [Hfull [Hroom [Htotal Hbatches]]]]].
  cbn [fst] in *.
  destruct (buffer s) as [|it more] eqn:Eb; inversion Ha; subst; clear Ha.
  - exists chunks, []. rewrite app_nil_r, Hsent, Htotal, Hbatches, <- app_assoc.
    split; [reflexivity|]. split; [assumption|]. split; [now left|].
    right. now left.
  - exists chunks, [it :: more]. unfold flush.
    cbn [sent total_items batches].
    rewrite Eb, Hsent, Htotal, Hbatches, item_flushes_app, concat_app.
    simpl. rewrite !app_nil_r, !length_app, <- !app_assoc. simpl.
    split; [reflexivity|]. split; [assumption|]. split.
    + right. eexists. split; [reflexivity|]. simpl in *. lia.
    + right. left. f_equal; lia.
Qed.

Lemma run_items_batches_witness :
  exists full rest,
    connection catalogue_out =
      (if CLEAR_EXISTING_ORDER_ITEMS script_config
       then [DeleteOrderItems; Commit] else []) ++
      item_flushes (full ++ rest) ++ [Close] /\
    Forall (fun c => Z.of_nat (List.length c) = BATCH_SIZE script_config)
           full /\
    (rest = [] \/
     exists c, rest = [c] /\
               0 < Z.of_nat (List.length c) < BATCH_SIZE script_config) /\
    In (Inserted (Z.of_nat (List.length (List.concat (full ++ rest)))) 2
                 (Z.of_nat (List.length (full ++ rest))))
       (console catalogue_out).
Proof.
  exact (run_items_batches (scripted catalogue_tape) script_config
           Sample.world catalogue_db 42 catalogue_out [101; 102]
           catalogue_products catalogue_categories
           eq_refl eq_refl eq_refl catalogue_run).
Defined.

End TraceProperties.

Section RollbackItems.
Import PyDict PyRandom OrderItems.

(** X19. When a run of [insert_order_items.py] rolls back. As long as
    the connector raises nothing, a run that returns has rolled back
    exactly when [orders] or the join of the products with their
    categories is empty, and then the rollback and the close are the
    only statements: no DELETE was sent and no row was written. A run
    that gets past the fetchers never rolls back what it has
    committed. *)
Theorem run_items_rolls_back_iff_empty :
  forall (R : RandomSource) (cfg : Config) (w : Payments.World)
         (db : Database) (seed : Z) (out : Outcome),
    run cfg w db seed = Ok out ->
    (In Rollback (connection out) <->
     orders db = [] \/ products_with_category db = []) /\
    (In Rollback (connection out) -> connection out = [Rollback; Close]).
Proof.
  intros R cfg w db seed out Hrun. unfold run in Hrun.
  apply bind_Ok in Hrun. destruct Hrun as [cw [_ Hrun]].
  apply bind_Ok in Hrun. destruct Hrun as [qw [_ Hrun]].
  destruct (orders db) as [|oid oids] eqn:Eo.
  { unfold run_body, fetch_orders in Hrun. rewrite Eo in Hrun.
    cbn [bind] in Hrun. inversion Hrun; subst. cbn [connection].
    split; [|reflexivity]. split; [now left|]. intros _. now left. }
  destruct (products_with_category db) as [|prow prows] eqn:Ep.
  { unfold run_body, fetch_orders, fetch_products in Hrun.
    rewrite Eo, Ep in Hrun. cbn [bind] in Hrun.
    inversion Hrun; subst. cbn [connection].
    split; [|reflexivity]. split; [now right|]. intros _. now left. }
  assert (Ho : fetch_orders db = Ok (oid :: oids))
    by (unfold fetch_orders; now rewrite Eo).
  assert (Hp : exists products category_names,
            fetch_products db = Ok (products, category_names)).
  { unfold fetch_products. rewrite Ep.
    destruct (fold_left _ (prow :: prows) _) as [products names]. eauto. }
  destruct Hp as [products [category_names Hp]].
  rewrite (run_body_after_fetch cfg w db (Random seed) _ products
             category_names Ho Hp) in Hrun.
  pose proof (after_fetch_no_runtime_error cfg w (oid :: oids) products
                category_names (Random seed)) as Hquiet.
  destruct (after_fetch cfg w (oid :: oids) products category_names
              (Random seed)) as [[printed conn]|e|] eqn:Ha;
    [|destruct e; try discriminate; exfalso; exact (Hquiet msg eq_refl)
     |discriminate].
  inversion Hrun; subst. clear Hrun Hquiet. cbn [connection].
  assert (Hnone : ~ In Rollback (conn ++ [Close])).
  { unfold after_fetch in Ha.
    apply bind_Ok in Ha. destruct Ha as [[s rng'] [Hf Ha]].
    destruct (sent_grows cfg _ _ _ _ _ _ _ _ Hf) as [tail [Hsent Htail]].
    cbn [sent] in Hsent. cbn [fst] in Ha.
    assert (Hs : ~ In Rollback (sent s)).
    { rewrite Hsent. intros Hin. apply in_app_or in Hin.
      destruct Hin as [Hin|Hin].
      - destruct (CLEAR_EXISTING_ORDER_ITEMS cfg); simpl in Hin;
          intuition discriminate.
      - exact (proj1 (Forall_forall _ _) Htail _ Hin eq_refl). }
    intros Hin. apply in_app_or in Hin.
    destruct Hin as [Hin|[Hin|[]]]; [|discriminate].
    destruct (buffer s) as [|it more]; inversion Ha; subst; clear Ha.
    - exact (Hs Hin).
    - unfold flush in Hin. cbn [sent] in Hin. apply in_app_or in Hin.
      destruct Hin as [Hin|[Hin|[Hin|[]]]];
        [exact (Hs Hin)|discriminate|discriminate]. }
  split; [|intros Hin; contradiction].
  split; [intros Hin; contradiction|].
  intros [H|H]; discriminate.
Qed.

Lemma run_items_rolls_back_iff_empty_witness :
  (In Rollback (connection catalogue_out) <->
   orders catalogue_db = [] \/ products_with_category catalogue_db = []) /\
  (In Rollback (connection catalogue_out) ->
   connection catalogue_out = [Rollback; Close]).
Proof.
  exact (run_items_rolls_back_iff_empty (scripted catalogue_tape)
           script_config Sample.world catalogue_db 42 catalogue_out
           catalogue_run).
Defined.

End RollbackItems.

(** ** The inline flush and [insert_items_in_batches] *)

Section InlineFlush.
Import PyDict PyRandom OrderItems.
Context {R : RandomSource}.
Variable cfg : Config.

(** [b] is [a] after the rounds of [insert_items_in_batches] on some
    rows. *)
Definition buffered (a b : RunState * rng_state) : Prop :=
  exists items, fst b = fold_left (buffer_step (BATCH_SIZE cfg)) items (fst a).

Lemma buffered_refl (a : RunState * rng_state) : buffered a a.
Proof. exists []. reflexivity. Qed.

Lemma buffered_trans (a b c : RunState * rng_state) :
  buffered a b -> buffered b c -> buffered a c.
Proof.
  intros [i1 H1] [i2 H2]. exists (i1 ++ i2).
  now rewrite fold_left_app, <- H1.
Qed.

Lemma add_line_buffered (products : dict Z Product) (order_id pid : Z)
    (a b : RunState * rng_state) :
  add_line cfg products order_id a pid = Ok b -> buffered a b.
Proof.
  destruct a as [s rng]. unfold add_line. intros Ha.
  apply bind_Ok in Ha. destruct Ha as [weights [_ Ha]].
  apply bind_Ok in Ha. destruct Ha as [[q rng1] [_ Ha]].
  destruct (get products pid) as [p|]; [|discriminate].
  cbn [bind] in Ha. inversion Ha; subst.
  exists [{| item_order_id := order_id; item_product_id := pid;
             quantity := Z.max 1 q; unit_price := price p |}].
  reflexivity.
Qed.

Lemma orders_buffered (products : dict Z Product) (product_ids : list Z)
    (weights_map : dict Z Q) (order_ids : list Z)
    (a b : RunState * rng_state) :
  for_each (order_step cfg products product_ids weights_map) order_ids a =
    Ok b ->
  buffered a b.
Proof.
  apply (for_each_related _ buffered _ buffered_refl buffered_trans).
  clear a b. intros [s rng] order_id b. unfold order_step. intros Ho.
  apply bind_Ok in Ho. destruct Ho as [weights [_ Ho]].
  apply bind_Ok in Ho. destruct Ho as [[cart_size rng1] [_ Ho]].
  apply bind_Ok in Ho. destruct Ho as [[chosen rng2] [_ Ho]].
  exact (for_each_related _ buffered _ buffered_refl buffered_trans
           (fun x pid y => add_line_buffered products order_id pid x y)
           _ _ Ho).
Qed.

Lemma buffer_step_written (batch_size : Z) (s : RunState) (it : Item) :
  written (buffer_step batch_size s it) = written s ++ [it].
Proof.
  unfold buffer_step.
  destruct (negb _ && _); unfold written; simpl.
  - rewrite items_of_app. simpl. now rewrite !app_nil_r, app_assoc.
  - now rewrite app_assoc.
Qed.

Lemma fold_buffer_step_written (batch_size : Z) (items : list Item) :
  forall s,
    written (fold_left (buffer_step batch_size) items s) = written s ++ items.
Proof.
  induction items as [|it items IH]; intros s; simpl.
  - now rewrite app_nil_r.
  - rewrite IH, buffer_step_written, <- app_assoc. reflexivity.
Qed.

End InlineFlush.

Section InlineFlushProperties.
Import PyDict PyRandom OrderItems.

(** X20. [run] flushes its buffer by hand, and
    [insert_items_in_batches] is never called; yet the two agree. What
    [run] sends between the DELETE and the close is what
    [insert_items_in_batches] would send for the rows of the run and
    [BATCH_SIZE], and the numbers of rows and of batches that [run]
    prints are the pair that the function would return: for any
    [BATCH_SIZE], also zero or negative. *)
Theorem run_items_flushes_as_insert_items_in_batches :
  forall (R : RandomSource) (cfg : Config) (w : Payments.World)
         (db : Database) (seed : Z) (out : Outcome) (order_ids : list Z)
         (products : dict Z Product) (category_names : dict Z string),
    fetch_orders db = Ok order_ids ->
    fetch_products db = Ok (products, category_names) ->
    run cfg w db seed = Ok out ->
    exists total batches,
      insert_items_in_batches
        (if CLEAR_EXISTING_ORDER_ITEMS cfg
         then [DeleteOrderItems; Commit] else [])
        (items_of (connection out)) (BATCH_SIZE cfg) =
        (removelast (connection out), (total, batches)) /\
      List.last (connection out) Rollback = Close /\
      In (Inserted total (Z.of_nat (List.length order_ids)) batches)
         (console out).
Proof.
  intros R cfg w db seed out order_ids products category_names Ho Hp Hrun.
  unfold run in Hrun.
  apply bind_Ok in Hrun. destruct Hrun as [cw [_ Hrun]].
  apply bind_Ok in Hrun. destruct Hrun as [qw [_ Hrun]].
  rewrite (run_body_after_fetch cfg w db (Random seed) order_ids products
             category_names Ho Hp) in Hrun.
  pose proof (after_fetch_no_runtime_error cfg w order_ids products
                category_names (Random seed)) as Hquiet.
  destruct (after_fetch cfg w order_ids products category_names (Random seed))
    as [[printed conn]|e|] eqn:Ha;
    [|destruct e; try discriminate; exfalso; exact (Hquiet msg eq_refl)
     |discriminate].
  inversion Hrun; subst. clear Hrun Hquiet. cbn [connection console].
  rewrite removelast_last, last_last, items_of_app. simpl.
  rewrite app_nil_r.
  unfold after_fetch in Ha.
  apply bind_Ok in Ha. destruct Ha as [[s rng'] [Hf Ha]].
  set (conn0 := if CLEAR_EXISTING_ORDER_ITEMS cfg
                then [DeleteOrderItems; Commit] else []) in *.
  set (s0 := {| sent := conn0; buffer := []; total_items := 0;
                batches := 0 |}) in *.
  destruct (orders_buffered cfg _ _ _ _ _ _ Hf) as [items Hitems].
  cbn [fst] in Hitems, Ha.
  assert (Hw : written s = items).
  { rewrite Hitems, fold_buffer_step_written. unfold written, s0, conn0.
    cbn [sent buffer]. rewrite app_nil_r.
    destruct (CLEAR_EXISTING_ORDER_ITEMS cfg); reflexivity. }
  set (s' := match buffer s with [] => s | _ => flush s end) in *.
  assert (Hsent : items_of (sent s') = items).
  { rewrite <- Hw. unfold s', written.
    destruct (buffer s) as [|it more] eqn:Eb.
    - now rewrite app_nil_r.
    - unfold flush. cbn [sent]. rewrite items_of_app, Eb. simpl.
      now rewrite app_nil_r. }
  inversion Ha; subst printed conn. clear Ha. rewrite Hsent.
  exists (total_items s'), (batches s').
  split; [|split; [reflexivity|right; now left]].
  unfold insert_items_in_batches. fold s0.
  destruct items as [|it items'] eqn:Ei.
  - simpl in Hitems. subst s'. rewrite Hitems. reflexivity.
  - rewrite <- Ei in *. rewrite <- Hitems. reflexivity.
Qed.

Lemma run_items_flushes_as_insert_items_in_batches_witness :
  exists total batches,
    insert_items_in_batches
      (if CLEAR_EXISTING_ORDER_ITEMS script_config
       then [DeleteOrderItems; Commit] else [])
      (items_of (connection catalogue_out)) (BATCH_SIZE script_config) =
      (removelast (connection catalogue_out), (total, batches)) /\
    List.last (connection catalogue_out) Rollback = Close /\
    In (Inserted total 2 batches) (console catalogue_out).
Proof.
  exact (run_items_flushes_as_insert_items_in_batches
           (scripted catalogue_tape) script_config Sample.world catalogue_db
           42 catalogue_out [101; 102] catalogue_products
           catalogue_categories eq_refl eq_refl catalogue_run).
Defined.

End InlineFlushProperties.

(* ------------------------------------------------------------------ *)
(** * insert_payments.py: no rollback after the fetchers *)

Section PaymentErrors.
Import PyDict PyRandom Payments.
Context {R : RandomSource}.
Variable cfg : Config.
Variable method_id_by_code : dict string Z.
Variable status_id_by_code : dict string Z.

Ltac not_runtime := intros msg; discriminate.

Lemma payments_normalize_no_runtime_error {K : Type} {HK : Key K}
    (dist : dict K Q) :
  no_runtime_error (Payments.normalize_distribution dist).
Proof.
  intros msg. unfold Payments.normalize_distribution.
  destruct dist as [|kv dist']; [discriminate|].
  destruct (existsb _ _); [discriminate|].
  destruct (Qleb _ _); discriminate.
Qed.

Lemma weighted_choice_key_no_runtime_error {K : Type} (rng : rng_state)
    (weights : dict K Q) :
  no_runtime_error (weighted_choice_key rng weights).
Proof.
  unfold weighted_choice_key. destruct weights as [|kv ws];
    [not_runtime|apply choices_no_runtime_error].
Qed.

Lemma subscript_no_runtime_error {V : Type} (d : dict string V)
    (k : string) :
  no_runtime_error (subscript d k).
Proof. unfold subscript. destruct (get d k); not_runtime. Qed.

Lemma weights_of_no_runtime_error (ms : list string) :
  forall acc, no_runtime_error (weights_of cfg ms acc).
Proof.
  induction ms as [|m ms IH]; intros acc; cbn [weights_of]; [not_runtime|].
  apply no_runtime_error_bind; [apply subscript_no_runtime_error|].
  intros c. apply IH.
Qed.

Lemma pick_next_method_no_runtime_error (rng : rng_state) (current : string)
    (counts : dict string Z) :
  no_runtime_error (pick_next_method cfg rng current counts).
Proof.
  unfold pick_next_method.
  destruct (if cap cfg _ <=? count_of counts current
            then (false, rng)
            else let '(r, rng') := random rng in (Qleb r _, rng'))
    as [stay rng1].
  destruct stay; [not_runtime|].
  destruct (alternatives cfg current counts) as [|a alt]; [not_runtime|].
  apply no_runtime_error_bind; [apply weights_of_no_runtime_error|].
  intros weights. apply weighted_choice_key_no_runtime_error.
Qed.

Lemma fill_chosen_no_runtime_error (fuel : nat) :
  forall (rng : rng_state) (chosen : list Z) (n_attempts max_seconds : Z),
    no_runtime_error (fill_chosen fuel rng chosen n_attempts max_seconds).
Proof.
  induction fuel as [|fuel IH]; intros rng chosen n_attempts max_seconds;
    cbn [fill_chosen];
    destruct (Z.of_nat (List.length chosen) <? n_attempts);
    try not_runtime.
  destruct (randint 1 max_seconds rng) as [s rng']. apply IH.
Qed.

Lemma sorted_attempt_times_no_runtime_error (fuel : nat) (rng : rng_state)
    (base_dt : datetime) (n_attempts : Z) :
  no_runtime_error (sorted_attempt_times cfg fuel rng base_dt n_attempts).
Proof.
  unfold sorted_attempt_times. destruct (n_attempts <=? 0); [not_runtime|].
  apply no_runtime_error_bind; [apply fill_chosen_no_runtime_error|].
  intros [chosen rng']. not_runtime.
Qed.

Lemma draw_total_attempts_planned_no_runtime_error (rng : rng_state) :
  no_runtime_error (draw_total_attempts_planned cfg rng).
Proof.
  unfold draw_total_attempts_planned, GLOBAL_ATTEMPT_WEIGHTS.
  apply no_runtime_error_bind; [apply payments_normalize_no_runtime_error|].
  intros weights.
  apply no_runtime_error_bind; [apply weighted_choice_key_no_runtime_error|].
  intros [n rng']. not_runtime.
Qed.

Lemma choose_method_no_runtime_error (rng : rng_state) (st : LoopState) :
  no_runtime_error (choose_method cfg rng st).
Proof.
  unfold choose_method. apply no_runtime_error_bind.
  - destruct (attempt_no st =? 0); [not_runtime|].
    apply no_runtime_error_bind; [apply pick_next_method_no_runtime_error|].
    intros [method rng1]. not_runtime.
  - intros [[method st1] rng1].
    apply no_runtime_error_bind; [apply subscript_no_runtime_error|].
    intros c.
    apply no_runtime_error_bind; [apply subscript_no_runtime_error|].
    intros n. destruct (cap cfg c <=? n); [|not_runtime].
    destruct (alternatives cfg method (method_counts st1)) as [|a alt];
      [not_runtime|].
    apply no_runtime_error_bind; [apply weights_of_no_runtime_error|].
    intros alt_weights.
    apply no_runtime_error_bind;
      [apply weighted_choice_key_no_runtime_error|].
    intros [method' rng2]. not_runtime.
Qed.

Lemma record_attempt_no_runtime_error (order : OrderInfo) (t : datetime)
    (rng : rng_state) (st : LoopState) (method : string) :
  no_runtime_error
    (record_attempt cfg method_id_by_code status_id_by_code order t rng st
                    method).
Proof.
  unfold record_attempt.
  apply no_runtime_error_bind; [apply subscript_no_runtime_error|].
  intros c. destruct (random rng) as [r rng'].
  destruct (get method_id_by_code method) as [method_id|]; [|not_runtime].
  destruct (Qltb r (get_success_rate c));
    (apply no_runtime_error_bind; [apply subscript_no_runtime_error|]);
    intros status; not_runtime.
Qed.

Lemma attempt_step_no_runtime_error (order : OrderInfo) (t : datetime)
    (rng : rng_state) (st : LoopState) :
  no_runtime_error
    (attempt_step cfg method_id_by_code status_id_by_code order t rng st).
Proof.
  unfold attempt_step. destruct (paid st); [not_runtime|].
  apply no_runtime_error_bind; [apply choose_method_no_runtime_error|].
  intros [[choice st1] rng1]. destruct choice as [method|]; [|not_runtime].
  apply record_attempt_no_runtime_error.
Qed.

Lemma attempt_loop_no_runtime_error (order : OrderInfo)
    (attempt_times : list datetime) :
  forall (rng : rng_state) (st : LoopState),
    no_runtime_error
      (attempt_loop cfg method_id_by_code status_id_by_code order
                    attempt_times rng st).
Proof.
  induction attempt_times as [|t later IH]; intros rng st;
    cbn [attempt_loop]; [not_runtime|].
  apply no_runtime_error_bind; [apply attempt_step_no_runtime_error|].
  intros [fl rng']. destruct fl as [st'|st']; [apply IH|not_runtime].
Qed.

Lemma forced_resolution_no_runtime_error (order : OrderInfo)
    (attempt_times : list datetime) (st : LoopState) :
  no_runtime_error
    (forced_resolution method_id_by_code status_id_by_code order
                       attempt_times st).
Proof.
  unfold forced_resolution. destruct (paid st); [not_runtime|].
  destruct (negb (order_status order =? 5)); [|not_runtime].
  apply no_runtime_error_bind.
  - destruct (get method_id_by_code (current_method st)); [not_runtime|].
    destruct (values method_id_by_code); not_runtime.
  - intros method_id.
    apply no_runtime_error_bind; [apply subscript_no_runtime_error|].
    intros status. not_runtime.
Qed.

Lemma simulate_order_no_runtime_error (fuel : nat)
    (method_weights : dict string Q) (rows0 : list Row) (rng : rng_state)
    (order : OrderInfo) :
  no_runtime_error
    (simulate_order cfg method_id_by_code status_id_by_code fuel
                    method_weights rows0 rng order).
Proof.
  unfold simulate_order.
  apply no_runtime_error_bind;
    [apply draw_total_attempts_planned_no_runtime_error|].
  intros [planned rng1].
  apply no_runtime_error_bind;
    [apply sorted_attempt_times_no_runtime_error|].
  intros [attempt_times rng2].
  apply no_runtime_error_bind;
    [apply weighted_choice_key_no_runtime_error|].
  intros [current rng3].
  apply no_runtime_error_bind; [apply attempt_loop_no_runtime_error|].
  intros [st rng4].
  apply no_runtime_error_bind; [apply forced_resolution_no_runtime_error|].
  intros st'. not_runtime.
Qed.

Lemma generate_rows_no_runtime_error (fuel : nat)
    (method_weights : dict string Q) (orders : list OrderInfo) :
  forall (rows0 : list Row) (rng : rng_state),
    no_runtime_error
      (generate_rows cfg method_id_by_code status_id_by_code fuel
                     method_weights rows0 rng orders).
Proof.
  induction orders as [|order orders IH]; intros rows0 rng;
    cbn [generate_rows]; [not_runtime|].
  apply no_runtime_error_bind; [apply simulate_order_no_runtime_error|].
  intros [rows1 rng1]. apply IH.
Qed.

End PaymentErrors.

Section PaymentRollback.
Import PyDict PyRandom Payments.

Lemma flushes_no_rollback (chunks : list (list Row)) :
  ~ In Rollback (flushes chunks).
Proof.
  unfold flushes. intros Hin. apply in_flat_map in Hin.
  destruct Hin as [chunk [_ [H|[H|[]]]]]; discriminate.
Qed.

(** X21. When a run of [insert_payments.py] rolls back. As long as
    the connector raises nothing, a run that returns has rolled back
    exactly when one of its three tables is empty, and then the rollback
    and the close are the only statements. After the fetchers no
    [RuntimeError] is raised, so the DELETE, once committed, is never
    followed by a rollback. *)
Theorem run_rolls_back_iff_empty :
  forall (R : RandomSource) (cfg : Config) (db : Database) (fuel : nat)
         (w : World) (seed : Z) (out : Outcome),
    run cfg fuel w db seed = Ok out ->
    (In Rollback (connection out) <->
     payment_methods db = [] \/ payment_status db = [] \/
       orders_with_totals db = []) /\
    (In Rollback (connection out) -> connection out = [Rollback; Close]).
Proof.
  intros R cfg db fuel w seed out Hrun. unfold run in Hrun.
  apply bind_Ok in Hrun. destruct Hrun as [weights [_ Hrun]].
  unfold run_body, fetch_payment_methods, fetch_payment_statuses,
    fetch_orders_with_totals in Hrun.
  destruct (payment_methods db) as [|mrow mrows] eqn:Em.
  { cbn [bind] in Hrun. inversion Hrun; subst. cbn [connection].
    split; [|reflexivity]. split; [now left|]. intros _. now left. }
  destruct (payment_status db) as [|srow srows] eqn:Es.
  { cbn [bind] in Hrun. inversion Hrun; subst. cbn [connection].
    split; [|reflexivity]. split; [now right; left|]. intros _. now left. }
  destruct (orders_with_totals db) as [|orow orows] eqn:Eo.
  { cbn [bind] in Hrun. inversion Hrun; subst. cbn [connection].
    split; [|reflexivity]. split; [now right; right|]. intros _. now left. }
  cbn [bind] in Hrun.
  assert (Hnone : ~ In Rollback (connection out)).
  { match type of Hrun with
    | context [generate_rows ?c ?mids ?sids ?f ?mw ?r0 ?rng ?os] =>
        pose proof (generate_rows_no_runtime_error c mids sids f mw os r0 rng)
          as Hquiet;
        destruct (generate_rows c mids sids f mw r0 rng os)
          as [[rows rng']|e|] eqn:Hg
    end.
    - cbn [bind] in Hrun.
      destruct (insert_payments_in_batches_all
                  (if CLEAR_EXISTING_PAYMENTS cfg
                   then [DeletePayments; Commit] else [])
                  rows (BATCH_SIZE cfg)) as [chunks [Hins _]].
      rewrite Hins in Hrun. inversion Hrun; subst. cbn [connection].
      intros Hin. apply in_app_or in Hin.
      destruct Hin as [Hin|[Hin|[]]]; [|discriminate].
      apply in_app_or in Hin. destruct Hin as [Hin|Hin].
      + destruct (CLEAR_EXISTING_PAYMENTS cfg); simpl in Hin;
          intuition discriminate.
      + exact (flushes_no_rollback chunks Hin).
    - cbn [bind] in Hrun. destruct e; try discriminate.
      exfalso. exact (Hquiet msg eq_refl).
    - discriminate. }
  split; [|intros Hin; contradiction].
  split; [intros Hin; contradiction|].
  intros [H|[H|H]]; discriminate.
Qed.

Definition retry_out : Outcome :=
  match run (R := scripted retry_tape) script_config 4 Sample.world
            Sample.db 42 with
  | Ok out => out
  | _ => {| console := []; connection := [] |}
  end.

Lemma retry_outcome :
  run (R := scripted retry_tape) script_config 4 Sample.world Sample.db 42 =
  Ok retry_out.
Proof. vm_compute. reflexivity. Qed.

Lemma run_rolls_back_iff_empty_witness :
  (In Rollback (connection retry_out) <->
   payment_methods Sample.db = [] \/ payment_status Sample.db = [] \/
     orders_with_totals Sample.db = []) /\
  (In Rollback (connection retry_out) ->
   connection retry_out = [Rollback; Close]).
Proof.
  exact (run_rolls_back_iff_empty (scripted retry_tape) script_config
           Sample.db 4 Sample.world 42 retry_out retry_outcome).
Defined.

End PaymentRollback.

(* ------------------------------------------------------------------ *)
(** * The rows of the orders of a run that goes through *)

Lemma subseq_prefix {A : Type} (a b c : list A) :
  subseq (a ++ b) c -> subseq a c.
Proof.
  intros H. remember (a ++ b) as l eqn:El. revert a b El.
  induction H as [|x l1 l2 H IH|x l1 l2 H IH]; intros a b El.
  - symmetry in El. apply app_eq_nil in El. destruct El as [-> _].
    constructor.
  - apply subseq_skip. eapply IH; eauto.
  - destruct a as [|y a]; [apply subseq_nil_l|].
    simpl in El. inversion El; subst. apply subseq_take. eapply IH; eauto.
Qed.

Section ReadyRuns.
Import PyDict PyRandom Payments.
Context {R : RandomSource}.

(** What a run needs to go through: methods that are distinct and have
    positive weights, a valid distribution of the number of attempts,
    the two tables read, the statuses [paid] and [failed] among them,
    and attempt times that are drawn within the fuel. *)
Definition run_ready (cfg : Config) (fuel : nat) (db : Database)
    (method_id_by_code status_id_by_code : dict string Z) : Prop :=
  wf (PAYMENT_METHOD_CONFIG cfg) /\
  PAYMENT_METHOD_CONFIG cfg <> [] /\
  (forall m c,
     get (PAYMENT_METHOD_CONFIG cfg) m = Some c -> (0 < get_weight c)%Q) /\
  wf (GLOBAL_ATTEMPT_DIST cfg) /\
  ~ invalid_distribution (GLOBAL_ATTEMPT_DIST cfg) /\
  (forall rng base_dt n,
     n <= MAX_GLOBAL_ATTEMPTS cfg ->
     exists res, sorted_attempt_times cfg fuel rng base_dt n = Ok res) /\
  (exists id_to_code,
     fetch_payment_methods db = Ok (id_to_code, method_id_by_code)) /\
  (exists id_to_code,
     fetch_payment_statuses db = Ok (id_to_code, status_id_by_code)) /\
  (exists p, get status_id_by_code "paid" = Some p) /\
  (exists f, get status_id_by_code "failed" = Some f).

Lemma run_ready_wf (cfg : Config) (fuel : nat) (db : Database)
    (method_id_by_code status_id_by_code : dict string Z) :
  run_ready cfg fuel db method_id_by_code status_id_by_code ->
  wf (PAYMENT_METHOD_CONFIG cfg).
Proof. intros H. apply H. Qed.

(** A run that is ready generates the rows of all its orders, and what
    holds of the rows that each order appends holds of the rows of the
    run, order by order. *)
Lemma run_ready_rows (cfg : Config) (fuel : nat) (db : Database)
    (method_id_by_code status_id_by_code : dict string Z)
    (P : OrderInfo -> list Row -> Prop) :
  run_ready cfg fuel db method_id_by_code status_id_by_code ->
  (forall rows0 rows1 rng rng' order,
     simulate_order cfg method_id_by_code status_id_by_code fuel
                    (build_method_weights cfg) rows0 rng order =
       Ok (rows1, rng') ->
     exists emitted, rows1 = rows0 ++ emitted /\ P order emitted) ->
  forall orders rows0 rng,
    exists rows rng' per_order,
      generate_rows cfg method_id_by_code status_id_by_code fuel
                    (build_method_weights cfg) rows0 rng orders =
        Ok (rows, rng') /\
      rows = rows0 ++ List.concat per_order /\
      Forall2
        (fun order emitted =>
           Forall (fun r => row_order_id r = order_id order) emitted /\
           P order emitted)
        orders per_order /\
      (NoDup (map order_id orders) ->
       Forall2
         (fun order emitted =>
            emitted = rows_of_order order (List.concat per_order))
         orders per_order).
Proof.
  intros [Hwf [Hcfg [Hpos [Hdwf [Hvalid [Htimes [[m_i2c Hm]
           [_ [Hp Hf]]]]]]]]] Hone orders rows0 rng.
  destruct (generate_rows_returns cfg method_id_by_code status_id_by_code
              fuel Hwf Hcfg Hpos Hdwf Hvalid Hp Hf
              (fetched_methods_nonempty db _ _ Hm) Htimes orders rows0 rng)
    as [rows [rng' Hgen]].
  destruct (generate_rows_by_order cfg method_id_by_code status_id_by_code
              Hwf P fuel (build_method_weights cfg) Hone
              orders rows0 rows rng rng' Hgen) as [per_order Hall].
  exists rows, rng', per_order. split; [exact Hgen|exact Hall].
Qed.

End ReadyRuns.

Section OrderResolution.
Import PyDict PyRandom Payments.
Context {R : RandomSource}.
Variable cfg : Config.
Variable method_id_by_code : dict string Z.
Variable status_id_by_code : dict string Z.
Variable order : OrderInfo.
Hypothesis cfg_wf : wf (PAYMENT_METHOD_CONFIG cfg).

(** [simulate_order] stage by stage: the attempt times, the attempt
    loop and the forced resolution. *)
Lemma simulate_order_stages_times (fuel : nat)
    (method_weights : dict string Q) (rows0 rows1 : list Row)
    (rng rng' : rng_state) :
  simulate_order cfg method_id_by_code status_id_by_code fuel method_weights
                 rows0 rng order = Ok (rows1, rng') ->
  exists planned attempt_times rng1 rng2 current rng3 st st',
    sorted_attempt_times cfg fuel rng1 (order_date order) planned =
      Ok (attempt_times, rng2) /\
    attempt_loop cfg method_id_by_code status_id_by_code order attempt_times
                 rng3 (initial_state cfg current rows0) = Ok (st, rng') /\
    forced_resolution method_id_by_code status_id_by_code order
                      attempt_times st = Ok st' /\
    rows1 = rows st'.
Proof.
  unfold simulate_order. intros Hs.
  apply bind_Ok in Hs. destruct Hs as [[planned rng1] [_ Hs]].
  apply bind_Ok in Hs. destruct Hs as [[attempt_times rng2] [Htimes Hs]].
  apply bind_Ok in Hs. destruct Hs as [[current rng3] [_ Hs]].
  apply bind_Ok in Hs. destruct Hs as [[st rng4] [Hloop Hs]].
  apply bind_Ok in Hs. destruct Hs as [st' [Hforce Hs]].
  inversion Hs; subst.
  exists planned, attempt_times, rng1, rng2, current, rng3, st, st'. tauto.
Qed.

(** The rows that the attempt loop has appended when it is left:
    failed attempts, then the payment if the loop ends paid, all dated
    at attempt times; none at all when no method has an id. *)
Lemma attempt_loop_rows (attempt_times : list datetime) (current : string)
    (rows0 : list Row) (rng rng' : rng_state) (st : LoopState) :
  attempt_loop cfg method_id_by_code status_id_by_code order attempt_times
               rng (initial_state cfg current rows0) = Ok (st, rng') ->
  exists failures tail,
    rows st = rows0 ++ failures ++ tail /\
    Forall (failed_row status_id_by_code order) failures /\
    (if paid st
     then exists r, tail = [r] /\ paid_row status_id_by_code order r
     else tail = []) /\
    subseq (map row_payment_date (failures ++ tail)) attempt_times /\
    (none_registered cfg method_id_by_code ->
     failures = [] /\ tail = [] /\ paid st = false).
Proof.
  intros Hl.
  assert (Hshape : shape_inv status_id_by_code order rows0 st).
  { apply (attempt_loop_invariant cfg method_id_by_code status_id_by_code
             order cfg_wf (shape_inv status_id_by_code order rows0)
             (fun t s fl => shape_inv_step cfg method_id_by_code
                              status_id_by_code order rows0 t s fl)
             _ _ _ _ _) with (2 := Hl).
    exists [], []. simpl. rewrite app_nil_r. repeat split. constructor. }
  assert (Hdated : dated_inv rows0 attempt_times st).
  { apply (attempt_loop_dated cfg method_id_by_code status_id_by_code order
             cfg_wf rows0 attempt_times [] _ _ _ _) with (2 := Hl).
    exists []. simpl. rewrite app_nil_r. split; [reflexivity|constructor]. }
  destruct Hshape as [failures [tail [Hrows [Hfail Htail]]]].
  destruct Hdated as [new [Hnew Hsub]].
  assert (new = failures ++ tail)
    by (apply (app_inv_head rows0); congruence).
  subst new.
  exists failures, tail.
  split; [exact Hrows|]. split; [exact Hfail|]. split; [exact Htail|].
  split; [exact Hsub|].
  intros Hnone.
  assert (Hquiet : quiet_inv rows0 st).
  { apply (attempt_loop_invariant cfg method_id_by_code status_id_by_code
             order cfg_wf (quiet_inv rows0)
             (fun t s fl => quiet_inv_step cfg method_id_by_code
                              status_id_by_code order rows0 t s fl Hnone)
             _ _ _ _ _) with (2 := Hl).
    split; reflexivity. }
  destruct Hquiet as [Hr Hp].
  assert (Hnil : failures ++ tail = []).
  { apply (app_inv_head rows0). rewrite app_nil_r. congruence. }
  apply app_eq_nil in Hnil. tauto.
Qed.

(** The rows of an order that is not cancelled: failed attempts dated
    at attempt times, then one payment, which is the attempt that
    succeeded, dated at its attempt time, or else the forced payment,
    dated one second after the last attempt time. *)
Lemma simulate_order_resolution (fuel : nat) (method_weights : dict string Q)
    (rows0 rows1 : list Row) (rng rng' : rng_state) :
  order_status order <> 5 ->
  simulate_order cfg method_id_by_code status_id_by_code fuel method_weights
                 rows0 rng order = Ok (rows1, rng') ->
  exists earlier last planned attempt_times rng1 rng2,
    rows1 = rows0 ++ earlier ++ [last] /\
    Forall (failed_row status_id_by_code order) earlier /\
    paid_row status_id_by_code order last /\
    sorted_attempt_times cfg fuel rng1 (order_date order) planned =
      Ok (attempt_times, rng2) /\
    subseq (map row_payment_date earlier) attempt_times /\
    (In (row_payment_date last) attempt_times \/
     (row_payment_date last =
        List.last attempt_times (order_date order) + 1 /\
      Forall (fun t => t < row_payment_date last) attempt_times)) /\
    (none_registered cfg method_id_by_code ->
     earlier = [] /\
     row_payment_date last =
       List.last attempt_times (order_date order) + 1).
Proof.
  intros H5 Hs. apply simulate_order_stages_times in Hs.
  destruct Hs as [planned [times [rng1 [rng2 [current [rng3 [st [st'
                   [Ht [Hl [Hf ->]]]]]]]]]]].
  destruct (attempt_loop_rows _ _ _ _ _ _ Hl)
    as [failures [tail [Hrows [Hfail [Htail [Hsub Hnone]]]]]].
  destruct (sorted_attempt_times_facts cfg (fun _ => True) _ _ _ _ _ _
              (fun _ => I) Ht) as [Hsorted _].
  apply forced_resolution_cases in Hf.
  destruct Hf as [[-> [Hp|Hc]]|[Hp [_ [mid [status [Hst [_ [Hr _]]]]]]]];
    [| contradiction |].
  - rewrite Hp in Htail. destruct Htail as [r [-> Hpaid]].
    exists failures, r, planned, times, rng1, rng2.
    split; [exact Hrows|]. split; [exact Hfail|]. split; [exact Hpaid|].
    split; [exact Ht|]. split.
    + rewrite map_app in Hsub. exact (subseq_prefix _ _ _ Hsub).
    + split.
      * left. apply (subseq_In _ _ _ Hsub). apply in_map.
        apply in_or_app. right. now left.
      * intros Hn. destruct (Hnone Hn) as [_ [Hnil _]]. discriminate.
  - rewrite Hp in Htail. subst tail. rewrite app_nil_r in Hrows, Hsub.
    eexists failures, _, planned, times, rng1, rng2.
    rewrite Hr, Hrows, <- app_assoc.
    split; [reflexivity|]. split; [exact Hfail|].
    split; [unfold paid_row; simpl; tauto|].
    split; [exact Ht|]. split; [exact Hsub|].
    cbn [attempt_row row_payment_date]. rewrite forced_time.
    split.
    + right. split; [reflexivity|].
      eapply Forall_impl;
        [|exact (sorted_upto_last times Hsorted (order_date order))].
      intros t Hle. simpl in Hle. unfold datetime in *. lia.
    + intros Hn. destruct (Hnone Hn) as [Hnil _]. split; [exact Hnil|].
      reflexivity.
Qed.

(** The rows of a cancelled order: nothing is appended after the
    attempt loop, so that every row is dated at an attempt time, and
    none one second after the last. *)
Lemma simulate_order_cancelled (fuel : nat) (method_weights : dict string Q)
    (rows0 rows1 : list Row) (rng rng' : rng_state) :
  order_status order = 5 ->
  simulate_order cfg method_id_by_code status_id_by_code fuel method_weights
                 rows0 rng order = Ok (rows1, rng') ->
  exists failures tail planned attempt_times rng1 rng2,
    rows1 = rows0 ++ failures ++ tail /\
    Forall (failed_row status_id_by_code order) failures /\
    (tail = [] \/
     exists r, tail = [r] /\ paid_row status_id_by_code order r) /\
    sorted_attempt_times cfg fuel rng1 (order_date order) planned =
      Ok (attempt_times, rng2) /\
    subseq (map row_payment_date (failures ++ tail)) attempt_times /\
    Forall (fun r => row_payment_date r <>
                     List.last attempt_times (order_date order) + 1)
           (failures ++ tail).
Proof.
  intros H5 Hs. apply simulate_order_stages_times in Hs.
  destruct Hs as [planned [times [rng1 [rng2 [current [rng3 [st [st'
                   [Ht [Hl [Hf ->]]]]]]]]]]].
  destruct (attempt_loop_rows _ _ _ _ _ _ Hl)
    as [failures [tail [Hrows [Hfail [Htail [Hsub _]]]]]].
  destruct (sorted_attempt_times_facts cfg (fun _ => True) _ _ _ _ _ _
              (fun _ => I) Ht) as [Hsorted _].
  apply forced_resolution_cases in Hf.
  destruct Hf as [[-> _]|[_ [Hn5 _]]]; [|contradiction].
  exists failures, tail, planned, times, rng1, rng2.
  split; [exact Hrows|]. split; [exact Hfail|]. split.
  - destruct (paid st); [right; exact Htail|left; exact Htail].
  - split; [exact Ht|]. split; [exact Hsub|].
    apply Forall_forall. intros r Hr Hdate.
    assert (Hin : In (row_payment_date r) times)
      by (apply (subseq_In _ _ _ Hsub); now apply in_map).
    pose proof (proj1 (Forall_forall _ _)
                  (sorted_upto_last times Hsorted (order_date order))
                  _ Hin) as Hle.
    simpl in Hle. unfold datetime in *. lia.
Qed.

End OrderResolution.

(* ------------------------------------------------------------------ *)
(** * The claims on the rows of an order *)

Section SampleRuns.
Import PyDict PyRandom Payments.

(** The constants of the script and the sample tables are ready for a
    run, whatever the draws. *)
Lemma sample_ready (floats : list Q) :
  run_ready (R := scripted floats) script_config 4 Sample.db
            (Sample.method_ids Sample.db) (Sample.status_ids Sample.db).
Proof.
  split; [apply wf_of_items|]. split; [discriminate|].
  split; [exact script_weights_pos|]. split; [apply wf_of_items|].
  split; [exact script_dist_valid|].
  split; [exact (scripted_times_drawn floats)|].
  split; [eexists; reflexivity|]. split; [eexists; reflexivity|].
  split; eexists; reflexivity.
Qed.

Lemma sample_ready_without_card (floats : list Q) :
  run_ready (R := scripted floats) script_config 4 Sample.db_without_card
            (Sample.method_ids Sample.db_without_card)
            (Sample.status_ids Sample.db_without_card).
Proof.
  split; [apply wf_of_items|]. split; [discriminate|].
  split; [exact script_weights_pos|]. split; [apply wf_of_items|].
  split; [exact script_dist_valid|].
  split; [exact (scripted_times_drawn floats)|].
  split; [eexists; reflexivity|]. split; [eexists; reflexivity|].
  split; eexists; reflexivity.
Qed.

(** A run in which three attempts by card fail, which is the cap of
    [card], before the forced payment. *)
Definition over_cap_tape : list Q := [0.8; 0; 0.9; 0; 0.9; 0; 0.9]%Q.

Definition over_cap_rows : list Row :=
  [{| row_order_id := 101; row_attempt_no := 1; row_payment_date := 1001;
      row_amount_paid := 0%Q; row_payment_method_id := 1;
      row_payment_status_id := 3 |};
   {| row_order_id := 101; row_attempt_no := 2; row_payment_date := 1002;
      row_amount_paid := 0%Q; row_payment_method_id := 1;
      row_payment_status_id := 3 |};
   {| row_order_id := 101; row_attempt_no := 3; row_payment_date := 1003;
      row_amount_paid := 0%Q; row_payment_method_id := 1;
      row_payment_status_id := 3 |};
   {| row_order_id := 101; row_attempt_no := 4; row_payment_date := 1004;
      row_amount_paid := 100%Q; row_payment_method_id := 1;
      row_payment_status_id := 2 |}].

Lemma over_cap_run :
  generate_rows (R := scripted over_cap_tape) script_config
    (Sample.method_ids Sample.db) (Sample.status_ids Sample.db) 4
    (build_method_weights script_config) []
    (@Random (scripted over_cap_tape) 42) [Sample.delivered] =
  Ok (over_cap_rows, ([], 3%nat)).
Proof. vm_compute. reflexivity. Qed.

(** A run on the tables without [card]. The first order draws a success
    for an attempt by card, which is skipped, and is paid by its second
    attempt, by paypal; the only attempt of the second order is skipped
    and the order is paid by the forced resolution. *)
Definition skip_tape : list Q := [0.5; 0; 0; 0.9; 0; 0; 0.1; 0.1; 0.1]%Q.

Definition skip_orders : list OrderInfo := [Sample.delivered; shipped].

Definition skip_rows : list Row :=
  [{| row_order_id := 101; row_attempt_no := 2; row_payment_date := 1002;
      row_amount_paid := 100%Q; row_payment_method_id := 2;
      row_payment_status_id := 2 |};
   {| row_order_id := 103; row_attempt_no := 2; row_payment_date := 9004;
      row_amount_paid := 20%Q; row_payment_method_id := 2;
      row_payment_status_id := 2 |}].

Lemma skip_run :
  generate_rows (R := scripted skip_tape) script_config
    (Sample.method_ids Sample.db_without_card)
    (Sample.status_ids Sample.db_without_card) 4
    (build_method_weights script_config) []
    (@Random (scripted skip_tape) 42) skip_orders =
  Ok (skip_rows, ([], 3%nat)).
Proof. vm_compute. reflexivity. Qed.

End SampleRuns.

Section OrderClaims.
Import PyDict PyRandom Payments.

(** C1. A run that is ready generates its rows, and in them every order
    that is not cancelled (status other than 5) has rows of its own, of
    which exactly one carries the id of the status [paid]; that row is
    the last one of the order and pays its total. With distinct order
    ids, the rows of an order are the rows of the run with its id. *)
Theorem non_cancelled_order_paid_once_last :
  forall (R : RandomSource) (cfg : Config) (fuel : nat) (db : Database)
         (method_id_by_code status_id_by_code : dict string Z)
         (rows0 : list Row) (rng : rng_state) (orders : list OrderInfo),
    run_ready cfg fuel db method_id_by_code status_id_by_code ->
    exists rows rng' per_order,
      generate_rows cfg method_id_by_code status_id_by_code fuel
                    (build_method_weights cfg) rows0 rng orders =
        Ok (rows, rng') /\
      rows = rows0 ++ List.concat per_order /\
      Forall2
        (fun order emitted =>
           Forall (fun r => row_order_id r = order_id order) emitted /\
           (order_status order <> 5 ->
            exists earlier last paid_id,
              emitted = earlier ++ [last] /\
              get status_id_by_code "paid" = Some paid_id /\
              row_payment_status_id last = paid_id /\
              row_amount_paid last = order_total order /\
              Forall (fun r => row_payment_status_id r <> paid_id) earlier))
        orders per_order /\
      (NoDup (map order_id orders) ->
       Forall2
         (fun order emitted =>
            emitted = rows_of_order order (List.concat per_order))
         orders per_order).
Proof.
  intros R cfg fuel db method_id_by_code status_id_by_code rows0 rng orders
         Hready.
  apply (run_ready_rows cfg fuel db method_id_by_code status_id_by_code
           _ Hready).
  pose proof (run_ready_wf _ _ _ _ _ Hready) as Hwf.
  destruct Hready as [_ [_ [_ [_ [_ [_ [_ [[s_i2c Hfetch] _]]]]]]]].
  clear - Hwf Hfetch. intros rows0 rows1 rng rng' order Hs.
  destruct (simulate_order_shape cfg _ _ Hwf _ _ _ _ _ _ _ Hs)
    as [emitted [-> [failures [tail [-> [Hfail [Htail Hn5]]]]]]].
  eexists. split; [reflexivity|].
  intros H5. destruct Htail as [->|[r [-> [Hid [Hamt Hst]]]]];
    [now elim (Hn5 H5)|].
  exists failures, r, (row_payment_status_id r).
  repeat split; try assumption.
  eapply Forall_impl; [|exact Hfail].
  intros r' [_ [_ Hf]] Heq. rewrite Heq in Hf.
  pose proof (status_ids_injective _ _ _ _ _ _ Hfetch Hf Hst) as Habs.
  discriminate.
Qed.

Lemma non_cancelled_order_paid_once_last_witness :
  exists per_order,
    mixed_rows = [] ++ List.concat per_order /\
    Forall2
      (fun order emitted =>
         Forall (fun r => row_order_id r = order_id order) emitted /\
         (order_status order <> 5 ->
          exists earlier last paid_id,
            emitted = earlier ++ [last] /\
            get (Sample.status_ids Sample.db) "paid" = Some paid_id /\
            row_payment_status_id last = paid_id /\
            row_amount_paid last = order_total order /\
            Forall (fun r => row_payment_status_id r <> paid_id) earlier))
      mixed_orders per_order /\
    (NoDup (map order_id mixed_orders) ->
     Forall2
       (fun order emitted =>
          emitted = rows_of_order order (List.concat per_order))
       mixed_orders per_order).
Proof.
  destruct (non_cancelled_order_paid_once_last (scripted mixed_tape)
              script_config 4 Sample.db (Sample.method_ids Sample.db)
              (Sample.status_ids Sample.db) []
              (@Random (scripted mixed_tape) 42) mixed_orders
              (sample_ready mixed_tape))
    as [rows [rng' [per_order [Hgen Hrows]]]].
  rewrite mixed_run in Hgen. inversion Hgen; subst.
  exists per_order. exact Hrows.
Defined.

(** C2, as the code has it. The forced resolution leaves a cancelled
    order (status 5) as the attempt loop left it. A run that is ready
    generates its rows, and in them the rows of a cancelled order are
    failed attempts (amount zero), followed by at most one payment of
    the total; every one of them is the row of an attempt of the loop,
    dated at one of the attempt times of the order, and none is dated
    as a forced payment would be, one second after the last attempt
    time. The rows of a cancelled order can be none at all. *)
Theorem cancelled_order_rows :
  forall (R : RandomSource) (cfg : Config) (fuel : nat) (db : Database)
         (method_id_by_code status_id_by_code : dict string Z)
         (rows0 : list Row) (rng : rng_state) (orders : list OrderInfo),
    run_ready cfg fuel db method_id_by_code status_id_by_code ->
    (forall order attempt_times st,
       order_status order = 5 ->
       forced_resolution method_id_by_code status_id_by_code order
                         attempt_times st = Ok st) /\
    (exists rows rng' per_order,
       generate_rows cfg method_id_by_code status_id_by_code fuel
                     (build_method_weights cfg) rows0 rng orders =
         Ok (rows, rng') /\
       rows = rows0 ++ List.concat per_order /\
       Forall2
         (fun order emitted =>
            Forall (fun r => row_order_id r = order_id order) emitted /\
            (order_status order = 5 ->
             exists failures tail planned attempt_times rng1 rng2,
               emitted = failures ++ tail /\
               Forall (failed_row status_id_by_code order) failures /\
               (tail = [] \/
                exists r,
                  tail = [r] /\ paid_row status_id_by_code order r) /\
               sorted_attempt_times cfg fuel rng1 (order_date order) planned
                 = Ok (attempt_times, rng2) /\
               subseq (map row_payment_date emitted) attempt_times /\
               Forall (fun r => row_payment_date r <>
                                List.last attempt_times (order_date order)
                                + 1) emitted))
         orders per_order /\
       (NoDup (map order_id orders) ->
        Forall2
          (fun order emitted =>
             emitted = rows_of_order order (List.concat per_order))
          orders per_order)) /\
    generate_rows (R := scripted []) script_config
      (Sample.method_ids Sample.db_without_card)
      (Sample.status_ids Sample.db_without_card) 10
      (build_method_weights script_config) []
      (@Random (scripted []) 42) [Sample.cancelled] = Ok ([], ([], 1%nat)).
Proof.
  intros R cfg fuel db method_id_by_code status_id_by_code rows0 rng orders
         Hready.
  split; [|split; [|vm_compute; reflexivity]].
  - intros order attempt_times st H5. unfold forced_resolution.
    destruct (paid st); [reflexivity|].
    apply Z.eqb_eq in H5. rewrite H5. reflexivity.
  - apply (run_ready_rows cfg fuel db method_id_by_code status_id_by_code
             _ Hready).
    pose proof (run_ready_wf _ _ _ _ _ Hready) as Hwf.
    clear - Hwf. intros rows0 rows1 rng rng' order Hs.
    destruct (simulate_order_shape cfg _ _ Hwf _ _ _ _ _ _ _ Hs)
      as [emitted [Hrows _]].
    exists emitted. split; [exact Hrows|]. intros H5.
    destruct (simulate_order_cancelled cfg _ _ order Hwf _ _ _ _ _ _ H5 Hs)
      as [failures [tail [planned [times [rng1 [rng2
           [Hrows' [Hfail [Htail [Ht [Hsub Hdate]]]]]]]]]]].
    assert (emitted = failures ++ tail)
      by (apply (app_inv_head rows0); congruence).
    subst emitted.
    exists failures, tail, planned, times, rng1, rng2. tauto.
Qed.

Lemma cancelled_order_rows_witness :
  exists per_order,
    mixed_rows = [] ++ List.concat per_order /\
    Forall2
      (fun order emitted =>
         Forall (fun r => row_order_id r = order_id order) emitted /\
         (order_status order = 5 ->
          exists failures tail planned attempt_times rng1 rng2,
            emitted = failures ++ tail /\
            Forall (failed_row (Sample.status_ids Sample.db) order)
                   failures /\
            (tail = [] \/
             exists r,
               tail = [r] /\
               paid_row (Sample.status_ids Sample.db) order r) /\
            sorted_attempt_times (R := scripted mixed_tape) script_config 4
              rng1 (order_date order) planned = Ok (attempt_times, rng2) /\
            subseq (map row_payment_date emitted) attempt_times /\
            Forall (fun r => row_payment_date r <>
                             List.last attempt_times (order_date order) + 1)
                   emitted))
      mixed_orders per_order /\
    (NoDup (map order_id mixed_orders) ->
     Forall2
       (fun order emitted =>
          emitted = rows_of_order order (List.concat per_order))
       mixed_orders per_order).
Proof.
  destruct (proj1 (proj2
              (cancelled_order_rows (scripted mixed_tape)
                 script_config 4 Sample.db (Sample.method_ids Sample.db)
                 (Sample.status_ids Sample.db) []
                 (@Random (scripted mixed_tape) 42) mixed_orders
                 (sample_ready mixed_tape))))
    as [rows [rng' [per_order [Hgen Hrows]]]].
  rewrite mixed_run in Hgen. inversion Hgen; subst.
  exists per_order. exact Hrows.
Defined.

(** C4, as the code has it. An attempt whose method has no id in
    [payment_methods] is skipped after its number was taken: the number
    of attempts goes up by one and no row is appended, so that no row
    carries that number. A run that is ready generates its rows, and in
    them the attempt numbers of the rows of an order are positive and
    grow strictly; they are [1 .. m] for the [m] rows of the order when
    every configured method has an id, so that no attempt is skipped. *)
Theorem attempt_numbers_of_order :
  forall (R : RandomSource) (cfg : Config) (fuel : nat) (db : Database)
         (method_id_by_code status_id_by_code : dict string Z)
         (rows0 : list Row) (rng : rng_state) (orders : list OrderInfo),
    run_ready cfg fuel db method_id_by_code status_id_by_code ->
    (forall order t rng st method c,
       get (PAYMENT_METHOD_CONFIG cfg) method = Some c ->
       get method_id_by_code method = None ->
       exists st',
         record_attempt cfg method_id_by_code status_id_by_code order t rng
                        st method = Ok (Continue st', snd (random rng)) /\
         attempt_no st' = attempt_no st + 1 /\
         rows st' = rows st) /\
    (exists rows rng' per_order,
       generate_rows cfg method_id_by_code status_id_by_code fuel
                     (build_method_weights cfg) rows0 rng orders =
         Ok (rows, rng') /\
       rows = rows0 ++ List.concat per_order /\
       Forall2
         (fun order emitted =>
            Forall (fun r => row_order_id r = order_id order) emitted /\
            (ascending 0 (map row_attempt_no emitted) /\
             (all_registered cfg method_id_by_code ->
              map row_attempt_no emitted = one_to (List.length emitted))))
         orders per_order /\
       (NoDup (map order_id orders) ->
        Forall2
          (fun order emitted =>
             emitted = rows_of_order order (List.concat per_order))
          orders per_order)).
Proof.
  intros R cfg fuel db method_id_by_code status_id_by_code rows0 rng orders
         Hready.
  split.
  - intros order t rng1 st method c Hcfg Hid. eexists.
    split; [exact (record_attempt_skips cfg method_id_by_code
                     status_id_by_code order t rng1 st method c Hcfg Hid)|].
    split; reflexivity.
  - apply (run_ready_rows cfg fuel db method_id_by_code status_id_by_code
             _ Hready).
    pose proof (run_ready_wf _ _ _ _ _ Hready) as Hwf.
    clear - Hwf. intros rows0 rows1 rng rng' order Hs.
    apply (simulate_order_numbering cfg _ _ order Hwf) in Hs. exact Hs.
Qed.

Lemma attempt_numbers_of_order_witness :
  exists per_order,
    mixed_rows = [] ++ List.concat per_order /\
    Forall2
      (fun order emitted =>
         Forall (fun r => row_order_id r = order_id order) emitted /\
         (ascending 0 (map row_attempt_no emitted) /\
          (all_registered script_config (Sample.method_ids Sample.db) ->
           map row_attempt_no emitted = one_to (List.length emitted))))
      mixed_orders per_order /\
    (NoDup (map order_id mixed_orders) ->
     Forall2
       (fun order emitted =>
          emitted = rows_of_order order (List.concat per_order))
       mixed_orders per_order).
Proof.
  destruct (proj2
              (attempt_numbers_of_order (scripted mixed_tape)
                 script_config 4 Sample.db (Sample.method_ids Sample.db)
                 (Sample.status_ids Sample.db) []
                 (@Random (scripted mixed_tape) 42) mixed_orders
                 (sample_ready mixed_tape)))
    as [rows [rng' [per_order [Hgen Hrows]]]].
  rewrite mixed_run in Hgen. inversion Hgen; subst.
  exists per_order. exact Hrows.
Defined.

(** C5, as the code has it. With caps that are not negative, the
    per-method counter of an order never goes over
    [min(max_attempts, MAX_GLOBAL_ATTEMPTS)]: every round of the attempt
    loop preserves the bound, which holds when the loop is entered and
    so when it is left. A run that is ready generates its rows,
    and in them the rows of an order are the rows of its attempts, which
    are within the cap for every method, followed by at most one forced
    payment, which is outside the counter: with it an order has at most
    one row more for a method. *)
Theorem method_attempts_within_cap :
  forall (R : RandomSource) (cfg : Config) (db : Database)
         (id_to_code : dict Z string)
         (method_id_by_code status_id_by_code : dict string Z),
    wf (PAYMENT_METHOD_CONFIG cfg) ->
    (forall m c,
       get (PAYMENT_METHOD_CONFIG cfg) m = Some c -> 0 <= cap cfg c) ->
    fetch_payment_methods db = Ok (id_to_code, method_id_by_code) ->
    (forall order t rng rng' st fl,
       cap_inv cfg st ->
       attempt_step cfg method_id_by_code status_id_by_code order t rng st =
         Ok (fl, rng') ->
       cap_inv cfg (flow_state fl)) /\
    (forall order attempt_times current rows0 rng rng' st,
       attempt_loop cfg method_id_by_code status_id_by_code order
                    attempt_times rng (initial_state cfg current rows0) =
         Ok (st, rng') ->
       cap_inv cfg st) /\
    (forall fuel rows0 rng orders,
       run_ready cfg fuel db method_id_by_code status_id_by_code ->
       exists rows rng' per_order,
         generate_rows cfg method_id_by_code status_id_by_code fuel
                       (build_method_weights cfg) rows0 rng orders =
           Ok (rows, rng') /\
         rows = rows0 ++ List.concat per_order /\
         Forall2
           (fun order emitted =>
              Forall (fun r => row_order_id r = order_id order) emitted /\
              exists attempts forced,
                emitted = attempts ++ forced /\
                (List.length forced <= 1)%nat /\
                forall m c mid,
                  get (PAYMENT_METHOD_CONFIG cfg) m = Some c ->
                  get method_id_by_code m = Some mid ->
                  Z.of_nat (rows_with_method mid attempts) <= cap cfg c /\
                  Z.of_nat (rows_with_method mid emitted) <= cap cfg c + 1)
           orders per_order /\
         (NoDup (map order_id orders) ->
          Forall2
            (fun order emitted =>
               emitted = rows_of_order order (List.concat per_order))
            orders per_order)).
Proof.
  intros R cfg db id_to_code method_id_by_code status_id_by_code
         Hwf Hcaps Hfetch.
  assert (Hinj : ids_injective method_id_by_code).
  { intros m m' i. eapply method_ids_injective; eauto. }
  split; [|split].
  - intros order t rng rng' st fl Hinv Hs.
    apply attempt_step_outcome in Hs; [|assumption].
    eapply cap_inv_step; eauto.
  - intros order attempt_times current rows0 rng rng' st Hl.
    apply (attempt_loop_invariant cfg method_id_by_code status_id_by_code
             order Hwf (cap_inv cfg)
             (fun t s fl => cap_inv_step cfg method_id_by_code
                              status_id_by_code order t s fl)
             _ _ _ _ _) with (2 := Hl).
    intros m c Hm.
    pose proof (initial_counts_zero cfg m current rows0) as Hzero.
    specialize (Hcaps m c Hm). lia.
  - intros fuel rows0 rng orders Hready.
    apply (run_ready_rows cfg fuel db method_id_by_code status_id_by_code
             _ Hready).
    clear - Hwf Hcaps Hinj. intros rows0 rows1 rng rng' order Hs.
    destruct (simulate_order_caps cfg _ _ order Hwf _ _ _ _ _ _ Hinj Hcaps Hs)
      as [attempts [forced [-> [Hlen Hbound]]]].
    eexists. split; [reflexivity|]. exists attempts, forced. auto.
Qed.

Lemma method_attempts_within_cap_witness :
  exists per_order,
    over_cap_rows = [] ++ List.concat per_order /\
    Forall2
      (fun order emitted =>
         Forall (fun r => row_order_id r = order_id order) emitted /\
         exists attempts forced,
           emitted = attempts ++ forced /\
           (List.length forced <= 1)%nat /\
           forall m c mid,
             get (PAYMENT_METHOD_CONFIG script_config) m = Some c ->
             get (Sample.method_ids Sample.db) m = Some mid ->
             Z.of_nat (rows_with_method mid attempts) <=
               cap script_config c /\
             Z.of_nat (rows_with_method mid emitted) <=
               cap script_config c + 1)
      [Sample.delivered] per_order /\
    (NoDup (map order_id [Sample.delivered]) ->
     Forall2
       (fun order emitted =>
          emitted = rows_of_order order (List.concat per_order))
       [Sample.delivered] per_order).
Proof.
  destruct (proj2 (proj2
              (method_attempts_within_cap (scripted over_cap_tape)
                 script_config Sample.db
                 (of_items (payment_methods Sample.db))
                 (Sample.method_ids Sample.db) (Sample.status_ids Sample.db)
                 (wf_of_items _) script_caps_nonneg eq_refl))
              4%nat [] (@Random (scripted over_cap_tape) 42)
              [Sample.delivered] (sample_ready over_cap_tape))
    as [rows [rng' [per_order [Hgen Hrows]]]].
  rewrite over_cap_run in Hgen. inversion Hgen; subst.
  exists per_order. exact Hrows.
Defined.

(** C10, as the code has it. The success draw is made before the method
    id is looked up: an attempt whose method has no id consumes the
    draw, appends no row and leaves [paid] as it was, whatever the draw
    gave, and the loop goes on with the later times. When the loop is
    left paid, its last row is the payment of an attempt, dated at the
    time of that attempt, after failed rows only; when it is left
    unpaid, all its rows are failed. For an order that is not cancelled
    the forced resolution then appends the payment if, and only if, the
    loop was left unpaid. So a run that is ready generates its rows,
    and in them an order that is not cancelled ends with exactly one
    row of the status [paid], after failed attempts dated at attempt
    times: the row of the attempt that succeeded, dated at its attempt
    time, or else the forced payment, dated one second after the last
    attempt time and after every attempt time; and it is the forced
    payment, alone, when no configured method has an id. *)
Theorem skipped_attempt_keeps_unpaid :
  forall (R : RandomSource) (cfg : Config) (fuel : nat) (db : Database)
         (method_id_by_code status_id_by_code : dict string Z)
         (rows0 : list Row) (rng : rng_state) (orders : list OrderInfo),
    run_ready cfg fuel db method_id_by_code status_id_by_code ->
    (forall order t rng st method c,
       get (PAYMENT_METHOD_CONFIG cfg) method = Some c ->
       get method_id_by_code method = None ->
       record_attempt cfg method_id_by_code status_id_by_code order t rng st
                      method =
         Ok (Continue {| current_method := current_method st;
                         method_counts :=
                           set (method_counts st) method
                               (count_of (method_counts st) method + 1);
                         paid := paid st;
                         attempt_no := attempt_no st + 1;
                         rows := rows st |},
             snd (random rng))) /\
    (forall order t later rng rng' st st',
       attempt_step cfg method_id_by_code status_id_by_code order t rng st =
         Ok (Continue st', rng') ->
       attempt_loop cfg method_id_by_code status_id_by_code order
                    (t :: later) rng st =
       attempt_loop cfg method_id_by_code status_id_by_code order
                    later rng' st') /\
    (forall order attempt_times current rows0 rng rng' st,
       attempt_loop cfg method_id_by_code status_id_by_code order
                    attempt_times rng (initial_state cfg current rows0) =
         Ok (st, rng') ->
       exists failures tail,
         rows st = rows0 ++ failures ++ tail /\
         Forall (failed_row status_id_by_code order) failures /\
         (if paid st
          then exists r,
                 tail = [r] /\ paid_row status_id_by_code order r /\
                 In (row_payment_date r) attempt_times
          else tail = [])) /\
    (forall order attempt_times st st',
       order_status order <> 5 ->
       forced_resolution method_id_by_code status_id_by_code order
                         attempt_times st = Ok st' ->
       if paid st then st' = st
       else exists r,
              rows st' = rows st ++ [r] /\
              paid_row status_id_by_code order r /\
              row_attempt_no r = attempt_no st + 1 /\
              row_payment_date r = t_force order attempt_times) /\
    (exists rows rng' per_order,
       generate_rows cfg method_id_by_code status_id_by_code fuel
                     (build_method_weights cfg) rows0 rng orders =
         Ok (rows, rng') /\
       rows = rows0 ++ List.concat per_order /\
       Forall2
         (fun order emitted =>
            Forall (fun r => row_order_id r = order_id order) emitted /\
            (order_status order <> 5 ->
             exists earlier last paid_id planned attempt_times rng1 rng2,
               emitted = earlier ++ [last] /\
               Forall (failed_row status_id_by_code order) earlier /\
               paid_row status_id_by_code order last /\
               get status_id_by_code "paid" = Some paid_id /\
               row_payment_status_id last = paid_id /\
               Forall (fun r => row_payment_status_id r <> paid_id)
                      earlier /\
               sorted_attempt_times cfg fuel rng1 (order_date order) planned
                 = Ok (attempt_times, rng2) /\
               subseq (map row_payment_date earlier) attempt_times /\
               (In (row_payment_date last) attempt_times \/
                (row_payment_date last =
                   List.last attempt_times (order_date order) + 1 /\
                 Forall (fun t => t < row_payment_date last)
                        attempt_times)) /\
               (none_registered cfg method_id_by_code ->
                earlier = [] /\
                row_payment_date last =
                  List.last attempt_times (order_date order) + 1)))
         orders per_order /\
       (NoDup (map order_id orders) ->
        Forall2
          (fun order emitted =>
             emitted = rows_of_order order (List.concat per_order))
          orders per_order)).
Proof.
  intros R cfg fuel db method_id_by_code status_id_by_code rows0 rng orders
         Hready.
  pose proof (run_ready_wf _ _ _ _ _ Hready) as Hwf.
  split; [|split; [|split; [|split]]].
  - intros order t rng1 st method c. apply record_attempt_skips.
  - intros order t later rng1 rng' st st' Hs. simpl. now rewrite Hs.
  - intros order attempt_times current rows1 rng1 rng' st Hl.
    destruct (attempt_loop_rows cfg _ _ order Hwf _ _ _ _ _ _ Hl)
      as [failures [tail [Hrows [Hfail [Htail [Hsub _]]]]]].
    exists failures, tail. split; [exact Hrows|]. split; [exact Hfail|].
    destruct (paid st); [|exact Htail].
    destruct Htail as [r [-> Hpaid]]. exists r.
    split; [reflexivity|]. split; [exact Hpaid|].
    apply (subseq_In _ _ _ Hsub). apply in_map.
    apply in_or_app. right. now left.
  - intros order attempt_times st st'. apply forced_resolution_pays.
  - apply (run_ready_rows cfg fuel db method_id_by_code status_id_by_code
             _ Hready).
    destruct Hready as [_ [_ [_ [_ [_ [_ [_ [[s_i2c Hfetch] _]]]]]]]].
    clear - Hwf Hfetch. intros rows0 rows1 rng rng' order Hs.
    destruct (simulate_order_shape cfg _ _ Hwf _ _ _ _ _ _ _ Hs)
      as [emitted [Hrows _]].
    exists emitted. split; [exact Hrows|]. intros H5.
    destruct (simulate_order_resolution cfg _ _ order Hwf _ _ _ _ _ _ H5 Hs)
      as [earlier [last [planned [times [rng1 [rng2
           [Hrows' [Hfail [Hpaid [Ht [Hsub [Hdate Hnone]]]]]]]]]]]].
    assert (emitted = earlier ++ [last])
      by (apply (app_inv_head rows0); congruence).
    subst emitted.
    exists earlier, last, (row_payment_status_id last), planned, times,
           rng1, rng2.
    split; [reflexivity|]. split; [exact Hfail|]. split; [exact Hpaid|].
    split; [apply Hpaid|]. split; [reflexivity|]. split.
    + eapply Forall_impl; [|exact Hfail].
      intros r' [_ [_ Hf]] Heq. rewrite Heq in Hf.
      destruct Hpaid as [_ [_ Hst]].
      pose proof (status_ids_injective _ _ _ _ _ _ Hfetch Hf Hst) as Habs.
      discriminate.
    + tauto.
Qed.

Lemma skipped_attempt_keeps_unpaid_witness :
  get (Sample.method_ids Sample.db_without_card) "card" = None /\
  exists per_order,
    skip_rows = [] ++ List.concat per_order /\
    Forall2
      (fun order emitted =>
         Forall (fun r => row_order_id r = order_id order) emitted /\
         (order_status order <> 5 ->
          exists earlier last paid_id planned attempt_times rng1 rng2,
            emitted = earlier ++ [last] /\
            Forall (failed_row (Sample.status_ids Sample.db_without_card)
                               order) earlier /\
            paid_row (Sample.status_ids Sample.db_without_card) order last /\
            get (Sample.status_ids Sample.db_without_card) "paid" =
              Some paid_id /\
            row_payment_status_id last = paid_id /\
            Forall (fun r => row_payment_status_id r <> paid_id) earlier /\
            sorted_attempt_times (R := scripted skip_tape) script_config 4
              rng1 (order_date order) planned = Ok (attempt_times, rng2) /\
            subseq (map row_payment_date earlier) attempt_times /\
            (In (row_payment_date last) attempt_times \/
             (row_payment_date last =
                List.last attempt_times (order_date order) + 1 /\
              Forall (fun t => t < row_payment_date last) attempt_times)) /\
            (none_registered script_config
                             (Sample.method_ids Sample.db_without_card) ->
             earlier = [] /\
             row_payment_date last =
               List.last attempt_times (order_date order) + 1)))
      skip_orders per_order /\
    (NoDup (map order_id skip_orders) ->
     Forall2
       (fun order emitted =>
          emitted = rows_of_order order (List.concat per_order))
       skip_orders per_order).
Proof.
  split; [reflexivity|].
  destruct (proj2 (proj2 (proj2 (proj2
              (skipped_attempt_keeps_unpaid (scripted skip_tape)
                 script_config 4 Sample.db_without_card
                 (Sample.method_ids Sample.db_without_card)
                 (Sample.status_ids Sample.db_without_card) []
                 (@Random (scripted skip_tape) 42) skip_orders
                 (sample_ready_without_card skip_tape))))))
    as [rows [rng' [per_order [Hgen Hrows]]]].
  rewrite skip_run in Hgen. inversion Hgen; subst.
  exists per_order. exact Hrows.
Defined.

End OrderClaims.
